(** * Tiki e-commerce analytics ETL: the raw-to-clean transformation

    A shallow embedding of [TikiTransform/scripts/transform_tiki.py] and
    [TikiTransform/scripts/transform_google_trends.py], and the properties
    of the value parsers, the category resolver, the deduplication, the
    schema enforcement and the trend aggregation.

    Layout:
    - [Py]      the parts of Python, [re], NumPy and pandas the scripts use;
    - [Tiki]    [transform_tiki.py];
    - [Trends]  [transform_google_trends.py];
    - [Samples] sample batches;
    - [PyFacts], [TikiFacts], [TrendsFacts]  the properties.

    Modelling conventions.
    - A Python [str] is a [string]: its UTF-8 bytes.  [str.lower],
      [str.strip], the classes [\d] and [\s], [int] and [float] are
      modelled on the ASCII range, where a byte is a character; Python
      also knows the digits, blanks and capitals of other scripts, so
      what is stated of the parsers on text takes the text in ASCII
      ([Py.ascii_text]).
    - Python integers are [Z].  A Python float is [pyfloat]: NaN, an
      infinity, or a finite dyadic number; decimal text and products are
      rounded to binary64, ties to even.
    - A call that may raise returns [result]: [Ok v] or [Raise e]. *)

From Stdlib Require Import List String Ascii ZArith Lia Bool Arith.
From Stdlib Require Import DecimalString.
From Stdlib Require Import Permutation Sorted.
Import ListNotations.

Set Implicit Arguments.

Module Py.

(** ** Exceptions and results *)

Inductive exn : Type :=
| ValueError
| TypeError
| KeyError
| OverflowError
| AttributeError
| IndexError
| AssertionError
| FileNotFoundError.

Inductive result (A : Type) : Type :=
| Ok (a : A)
| Raise (e : exn).

Arguments Ok {A} a.
Arguments Raise {A} e.

Definition bind {A B : Type} (c : result A) (f : A -> result B) : result B :=
  match c with
  | Ok a => f a
  | Raise e => Raise e
  end.

Notation "x <- c ;; k" := (bind c (fun x => k))
  (at level 61, c at next level, right associativity).
Notation "' pat <- c ;; k" := (bind c (fun x => match x with pat => k end))
  (at level 61, pat pattern, c at next level, right associativity).

Definition returns {A : Type} (c : result A) : bool :=
  match c with Ok _ => true | Raise _ => false end.

(** [try: c  except ValueError: d] *)
Definition except_ValueError {A : Type} (c : result A) (d : result A) : result A :=
  match c with
  | Raise ValueError => d
  | other => other
  end.

(** [try: c  except Exception: d] *)
Definition except_Exception {A : Type} (c : result A) (d : A) : A :=
  match c with
  | Ok a => a
  | Raise _ => d
  end.

Fixpoint mapM {A B : Type} (f : A -> result B) (l : list A) : result (list B) :=
  match l with
  | [] => Ok []
  | a :: l' => b <- f a ;; bs <- mapM f l' ;; Ok (b :: bs)
  end.

(** ** Text *)

Definition text := list ascii.

Definition txt (s : string) : text := list_ascii_of_string s.

Definition code (c : ascii) : nat := nat_of_ascii c.

(** A [text] is a sequence of bytes, where a Python [str] is a sequence
    of code points whose digits, blanks and letters [str.lower],
    [str.strip], the classes [\d] and [\s], [int] and [float] know in
    every script.  On ASCII text a byte is a character, and the
    functions below are those of Python; the statements that depend on
    them take their text in ASCII. *)
Definition is_ascii (c : ascii) : bool := (code c <? 128)%nat.

Definition ascii_text (s : text) : bool := forallb is_ascii s.

(** The class [\d], the digits of [int] and [float]: in ASCII, 0 to 9. *)
Definition is_digit (c : ascii) : bool :=
  (48 <=? code c)%nat && (code c <=? 57)%nat.

(** [str.isspace] on the ASCII range: tab, newline, vertical tab, form
    feed, carriage return, the four separators 28..31 and the space. *)
Definition is_space (c : ascii) : bool :=
  ((9 <=? code c)%nat && (code c <=? 13)%nat)
  || ((28 <=? code c)%nat && (code c <=? 32)%nat).

Definition is_upper (c : ascii) : bool :=
  (65 <=? code c)%nat && (code c <=? 90)%nat.

(** [str.lower] on the ASCII range: A to Z. *)
Definition lower_char (c : ascii) : ascii :=
  if is_upper c then ascii_of_nat (code c + 32) else c.

Definition lower (s : text) : text := map lower_char s.

Fixpoint lstrip (s : text) : text :=
  match s with
  | c :: s' => if is_space c then lstrip s' else s
  | [] => []
  end.

Definition rstrip (s : text) : text := rev (lstrip (rev s)).

Definition strip (s : text) : text := rstrip (lstrip s).

(** [s.replace(a, b)] for one-character [a] and any [b]. *)
Definition replace_char (a : ascii) (b : text) (s : text) : text :=
  flat_map (fun c => if Ascii.eqb c a then b else [c]) s.

(** [s.split(sep)] for a one-character separator: never empty. *)
Fixpoint split_char (sep : ascii) (s : text) : list text :=
  match s with
  | [] => [[]]
  | c :: s' =>
      if Ascii.eqb c sep then [] :: split_char sep s'
      else match split_char sep s' with
           | w :: ws => (c :: w) :: ws
           | [] => [[c]]
           end
  end.

Fixpoint starts_with (p s : text) : bool :=
  match p, s with
  | [], _ => true
  | a :: p', b :: s' => Ascii.eqb a b && starts_with p' s'
  | _ :: _, [] => false
  end.

(** [p in s] for two strings. *)
Fixpoint contains (p s : text) : bool :=
  starts_with p s ||
  match s with
  | [] => false
  | _ :: s' => contains p s'
  end.

Definition text_eqb (a b : text) : bool :=
  if list_eq_dec ascii_dec a b then true else false.

Definition digit_val (c : ascii) : Z := Z.of_nat (code c) - 48.

(** The number a run of decimal digits writes, most significant first. *)
Definition decimal (ds : text) : Z :=
  fold_left (fun acc c => 10 * acc + digit_val c)%Z ds 0%Z.

(** ** Regular expressions: a backtracking matcher as in [re]

    Greedy repetition, ordered alternation, numbered groups.  The matcher
    is in continuation-passing style: [k] is the rest of the pattern, and
    a [None] from it makes the matcher try its next choice. *)

Inductive regex : Type :=
| Eps
| Chr (p : ascii -> bool)
| Seq (r1 r2 : regex)
| Alt (r1 r2 : regex)
| Star (r : regex)
| Group (n : nat) (r : regex)
| Bol
| Eol.

Definition Plus (r : regex) : regex := Seq r (Star r).
Definition Opt (r : regex) : regex := Alt r Eps.

Definition Char (c : ascii) : regex := Chr (Ascii.eqb c).

(** A letter under [re.IGNORECASE]. *)
Definition CharI (c : ascii) : regex :=
  Chr (fun x => Ascii.eqb (lower_char x) (lower_char c)).

Fixpoint Lit_of (mk : ascii -> regex) (s : text) : regex :=
  match s with
  | [] => Eps
  | [c] => mk c
  | c :: s' => Seq (mk c) (Lit_of mk s')
  end.

Definition Lit (s : string) : regex := Lit_of Char (txt s).
Definition LitI (s : string) : regex := Lit_of CharI (txt s).

Definition digit : regex := Chr is_digit.
Definition space : regex := Chr is_space.

Definition captures := list (nat * text).

Fixpoint group (n : nat) (caps : captures) : option text :=
  match caps with
  | [] => None
  | (m, g) :: caps' => if Nat.eqb n m then Some g else group n caps'
  end.

Section Matcher.

Variable R : Type.

(** [total] is the length of the whole subject, for [^]. *)
Variable total : nat.

Definition cont := text -> captures -> option R.

(** The greedy loop of [r*]: one more [body] that consumes something,
    then the loop again; when that fails, the rest of the pattern. *)
Fixpoint star_loop (body : text -> captures -> cont -> option R) (k : cont)
    (n : nat) (s : text) (caps : captures) {struct n} : option R :=
  match n with
  | O => k s caps
  | S n' =>
      match body s caps
              (fun s' caps' =>
                 if (List.length s' <? List.length s)%nat
                 then star_loop body k n' s' caps'
                 else None) with
      | Some x => Some x
      | None => k s caps
      end
  end.

Fixpoint rmatch (r : regex) (s : text) (caps : captures) (k : cont)
    {struct r} : option R :=
  match r with
  | Eps => k s caps
  | Chr p =>
      match s with
      | c :: s' => if p c then k s' caps else None
      | [] => None
      end
  | Seq r1 r2 => rmatch r1 s caps (fun s' caps' => rmatch r2 s' caps' k)
  | Alt r1 r2 =>
      match rmatch r1 s caps k with
      | Some x => Some x
      | None => rmatch r2 s caps k
      end
  | Star r1 => star_loop (rmatch r1) k (List.length s) s caps
  | Group n r1 =>
      rmatch r1 s caps
        (fun s' caps' =>
           k s' ((n, firstn (List.length s - List.length s') s) :: caps'))
  | Bol => if (List.length s =? total)%nat then k s caps else None
  | Eol =>
      match s with
      | [] => k s caps
      | [c] => if Ascii.eqb c (ascii_of_nat 10) then k s caps else None
      | _ => None
      end
  end.

End Matcher.

(** [m.group(n)] of a match object, where the caller goes on to use it as
    a string: a group that took no part is [None] there, and the use
    raises [e]. *)
Definition group_str (n : nat) (caps : captures) (e : exn) : result text :=
  match group n caps with
  | Some g => Ok g
  | None => Raise e
  end.

Definition accept : text -> captures -> option captures :=
  fun _ caps => Some caps.

(** [re.match(r, s)]: the captures of a match at the start of [s]. *)
Definition re_match (r : regex) (s : text) : option captures :=
  rmatch (List.length s) r s [] accept.

Fixpoint search_from (total : nat) (r : regex) (s : text) : option captures :=
  match rmatch total r s [] accept with
  | Some caps => Some caps
  | None =>
      match s with
      | [] => None
      | _ :: s' => search_from total r s'
      end
  end.

(** [re.search(r, s)]: the captures of the leftmost match. *)
Definition re_search (r : regex) (s : text) : option captures :=
  search_from (List.length s) r s.

(** [re.sub(r, '', s)] for a pattern that is one character class. *)
Definition re_sub_class (p : ascii -> bool) (s : text) : text :=
  filter (fun c => negb (p c)) s.

(** ** Floats: binary64, rounded to nearest, ties to even *)

Local Open Scope Z_scope.

(** A float is NaN, an infinity, or the dyadic number [m * 2^e].  A double
    is such a number with [|m| < 2^53] and [-1074 <= e <= 971]; what is
    proved for every [FFin m e] holds for every double. *)
Inductive pyfloat : Type :=
| FNan
| FInf (negative : bool)
| FFin (m e : Z).

(** [2^e] for [e >= 0], and 1 below: the two sides of a scaling. *)
Definition pow2 (e : Z) : Z := 2 ^ Z.max 0 e.

(** The integer nearest to [n/d], ties to even ([0 <= n], [0 < d]). *)
Definition rne (n d : Z) : Z :=
  let q := n / d in
  match 2 * (n mod d) ?= d with
  | Lt => q
  | Gt => q + 1
  | Eq => if Z.even q then q else q + 1
  end.

(** [floor (log2 (n/d))] for [0 < n], [0 < d]. *)
Definition ilog2 (n d : Z) : Z :=
  let g := Z.log2 n - Z.log2 d in
  if d * pow2 g <=? n * pow2 (- g) then g else g - 1.

(** The double nearest to [n/d] ([0 <= n], [0 < d]): 53 bits from the
    leading one, no exponent below -1074, infinity from [2^1024] on. *)
Definition round64 (n d : Z) : pyfloat :=
  if n =? 0 then FFin 0 0
  else
    let e := Z.max (ilog2 n d - 52) (- 1074) in
    let m := rne (n * pow2 (- e)) (d * pow2 e) in
    if 2 ^ 1024 <=? m * pow2 e then FInf false else FFin m e.

Definition fneg (x : pyfloat) : pyfloat :=
  match x with
  | FNan => FNan
  | FInf s => FInf (negb s)
  | FFin m e => FFin (- m) e
  end.

Definition round64s (n d : Z) : pyfloat :=
  if n <? 0 then fneg (round64 (- n) d) else round64 n d.

(** [float(z)] *)
Definition float_of_int (z : Z) : pyfloat := round64s z 1.

Definition is_neg (x : pyfloat) : bool :=
  match x with
  | FInf s => s
  | FFin m _ => m <? 0
  | FNan => false
  end.

(** [x * y] *)
Definition fmul (x y : pyfloat) : pyfloat :=
  match x, y with
  | FNan, _ | _, FNan => FNan
  | FFin m1 e1, FFin m2 e2 =>
      round64s (m1 * m2 * pow2 (e1 + e2)) (pow2 (- (e1 + e2)))
  | FInf s, FFin m _ | FFin m _, FInf s =>
      if m =? 0 then FNan else FInf (xorb s (m <? 0))
  | FInf s1, FInf s2 => FInf (xorb s1 s2)
  end.

(** [int(x)]: truncation toward zero. *)
Definition int_of_float (x : pyfloat) : result Z :=
  match x with
  | FNan => Raise ValueError
  | FInf _ => Raise OverflowError
  | FFin m e => Ok (Z.quot (m * pow2 e) (pow2 (- e)))
  end.

(** [np.isnan(x)] *)
Definition isnan (x : pyfloat) : bool :=
  match x with FNan => true | _ => false end.

(** [float(s)] on text made of ASCII digits and dots, which is all the
    callers pass on ASCII text: [digits], [digits.], [digits.digits] or
    [.digits]; any other such text is a [ValueError]. *)
Definition float_of_decimal (s : text) : result pyfloat :=
  match split_char "." s with
  | [w] =>
      if negb (Nat.eqb (List.length w) 0) && forallb is_digit w
      then Ok (round64 (decimal w) 1)
      else Raise ValueError
  | [w; f] =>
      if negb (Nat.eqb (List.length (w ++ f)) 0) && forallb is_digit (w ++ f)
      then Ok (round64 (decimal (w ++ f)) (10 ^ Z.of_nat (List.length f)))
      else Raise ValueError
  | _ => Raise ValueError
  end.

(** [int(s)] on ASCII text: blanks around, a sign, digits with single
    underscores between them.  (Python also refuses a string of more
    than 4300 digits, which the statements that reach such lengths
    exclude.) *)
Fixpoint int_digits (s : text) (acc : Z) (after_digit : bool) : result Z :=
  match s with
  | [] => if after_digit then Ok acc else Raise ValueError
  | c :: s' =>
      if is_digit c then int_digits s' (10 * acc + digit_val c) true
      else if Ascii.eqb c "_" && after_digit then
        match s' with
        | d :: _ => if is_digit d then int_digits s' acc false
                    else Raise ValueError
        | [] => Raise ValueError
        end
      else Raise ValueError
  end.

Definition int_of_text (s : text) : result Z :=
  match strip s with
  | "-"%char :: s' => z <- int_digits s' 0 false ;; Ok (- z)
  | "+"%char :: s' => int_digits s' 0 false
  | s' => int_digits s' 0 false
  end.

(** ** Values: what a cell of a DataFrame holds *)

Inductive scalar : Type :=
| SNone                       (* None, pd.NA, NaT *)
| SBool (b : bool)
| SInt (z : Z)
| SFloat (x : pyfloat)        (* [SFloat FNan] is NaN *)
| SStr (s : string)
| SDate (y m d : Z)           (* datetime.date *)
| STime (ns : Z).             (* pd.Timestamp in UTC: ns since the epoch *)

(** A JSON array of scalars is the one non-scalar value modelled. *)
Inductive value : Type :=
| Scalar (v : scalar)
| VList (l : list scalar).

Coercion Scalar : scalar >-> value.

Definition NaN : scalar := SFloat FNan.

(** The scalar a cell holds, where the script has made it one. *)
Definition scalar_of (v : value) : scalar :=
  match v with Scalar x => x | VList _ => SNone end.

Definition scalar_isna (v : scalar) : bool :=
  match v with
  | SNone | SFloat FNan => true
  | _ => false
  end.

(** [pd.isna(v)]: a bool for a scalar, an array of bools for a list. *)
Inductive isna_result : Type :=
| NaBool (b : bool)
| NaArray (bs : list bool).

Definition pd_isna (v : value) : isna_result :=
  match v with
  | Scalar x => NaBool (scalar_isna x)
  | VList l => NaArray (map scalar_isna l)
  end.

(** [bool(r)], as [if pd.isna(v)] asks for: the truth value of an array
    of two or more elements is a [ValueError]; of an empty one [False],
    with a deprecation warning (NumPy 2.2 and later raise there too). *)
Definition truth (r : isna_result) : result bool :=
  match r with
  | NaBool b => Ok b
  | NaArray [] => Ok false
  | NaArray [b] => Ok b
  | NaArray _ => Raise ValueError
  end.

(** [isinstance(v, (int, float))]; [bool] is a subclass of [int]. *)
Definition is_number (v : value) : bool :=
  match v with
  | Scalar (SBool _) | Scalar (SInt _) | Scalar (SFloat _) => true
  | _ => false
  end.

(** [int(v)] of a number. *)
Definition int_of_number (v : scalar) : result Z :=
  match v with
  | SBool b => Ok (if b then 1 else 0)
  | SInt z => Ok z
  | SFloat x => int_of_float x
  | _ => Raise TypeError
  end.

(** *** [str(v)] *)

Definition text_of_Z (z : Z) : text := txt (NilZero.string_of_int (Z.to_int z)).

(** [z] in at least [w] digits, zero-padded. *)
Definition pad (w : nat) (z : Z) : text :=
  let ds := text_of_Z z in
  repeat "0"%char (w - List.length ds) ++ ds.

Definition p10 (k : Z) : Z := 10 ^ Z.max 0 k.

(** The least [k] from [k0] on with [n/d < 10^k]. *)
Fixpoint find_decpt (fuel : nat) (k n d : Z) : Z :=
  match fuel with
  | O => k
  | S fuel' =>
      if n * p10 (- k) <? d * p10 k then k
      else find_decpt fuel' (k + 1) n d
  end.

Definition same_value (x : pyfloat) (n d : Z) : bool :=
  match x with
  | FFin m e => m * pow2 e * d =? n * pow2 (- e)
  | _ => false
  end.

(** The shortest digits that read back as [n/d], nearest first: the
    digits as a number, how many they are, and the place of the point. *)
Fixpoint shortest_digits (fuel : nat) (nd : Z) (decpt n d : Z) : Z * Z * Z :=
  let N := n * p10 (nd - decpt) in
  let D := d * p10 (decpt - nd) in
  let near := rne N D in
  let far := if near =? N / D then N / D + 1 else N / D in
  let back c := same_value (round64 (c * p10 (decpt - nd)) (p10 (nd - decpt))) n d in
  let fix_up c := if c =? 10 ^ nd then (10 ^ (nd - 1), nd, decpt + 1)
                  else (c, nd, decpt) in
  match fuel with
  | O => fix_up near
  | S fuel' =>
      if back near then fix_up near
      else if back far then fix_up far
      else shortest_digits fuel' (nd + 1) decpt n d
  end.

Fixpoint strip_zeros (fuel : nat) (c nd : Z) : Z * Z :=
  match fuel with
  | O => (c, nd)
  | S fuel' =>
      if (1 <? nd) && (c mod 10 =? 0) then strip_zeros fuel' (c / 10) (nd - 1)
      else (c, nd)
  end.

(** [repr(x)] of a float, also its [str]. *)
Definition repr_float (x : pyfloat) : text :=
  match x with
  | FNan => txt "nan"
  | FInf s => if s then txt "-inf" else txt "inf"
  | FFin m e =>
      if m =? 0 then txt "0.0"
      else
        let n := Z.abs m * pow2 e in
        let d := pow2 (- e) in
        let k := find_decpt 800 (- 400) n d in
        let '(c0, nd0, decpt) := shortest_digits 16 1 k n d in
        let '(c, nd) := strip_zeros 17 c0 nd0 in
        let ds := text_of_Z c in
        let sign := if m <? 0 then ["-"%char] else [] in
        sign ++
        if (16 <? decpt) || (decpt <? - 3) then
          firstn 1 ds
          ++ (if 1 <? nd then "."%char :: skipn 1 ds else [])
          ++ ("e"%char :: (if decpt - 1 <? 0 then "-"%char else "+"%char)
                :: pad 2 (Z.abs (decpt - 1)))
        else if decpt <=? 0 then
          txt "0." ++ repeat "0"%char (Z.to_nat (- decpt)) ++ ds
        else if decpt <? nd then
          firstn (Z.to_nat decpt) ds ++ "."%char :: skipn (Z.to_nat decpt) ds
        else
          ds ++ repeat "0"%char (Z.to_nat (decpt - nd)) ++ txt ".0"
  end.

(** The civil date of a day number (days since 1970-01-01). *)
Definition civil_of_days (days : Z) : Z * Z * Z :=
  let z := days + 719468 in
  let era := z / 146097 in
  let doe := z mod 146097 in
  let yoe := (doe - doe / 1460 + doe / 36524 - doe / 146096) / 365 in
  let doy := doe - (365 * yoe + yoe / 4 - yoe / 100) in
  let mp := (5 * doy + 2) / 153 in
  let d := doy - (153 * mp + 2) / 5 + 1 in
  let m := if mp <? 10 then mp + 3 else mp - 9 in
  let y := yoe + era * 400 + (if m <=? 2 then 1 else 0) in
  (y, m, d).

Definition ns_per_day : Z := 86400 * 10 ^ 9.

Definition iso_date (y m d : Z) : text :=
  pad 4 y ++ "-"%char :: pad 2 m ++ "-"%char :: pad 2 d.

(** The date and the time of day of a timestamp, then its fraction. *)
Definition iso_time (sep : ascii) (ns : Z) : text :=
  let '(y, m, d) := civil_of_days (ns / ns_per_day) in
  let r := ns mod ns_per_day in
  let secs := r / 10 ^ 9 in
  let frac := r mod 10 ^ 9 in
  iso_date y m d ++ sep :: pad 2 (secs / 3600) ++ ":"%char
    :: pad 2 (secs / 60 mod 60) ++ ":"%char :: pad 2 (secs mod 60)
    ++ (if frac =? 0 then []
        else if frac mod 1000 =? 0 then "."%char :: pad 6 (frac / 1000)
        else "."%char :: pad 9 frac).

Definition quote1 : ascii := "'"%char.
Definition quote2 : ascii := ascii_of_nat 34.
Definition backslash : ascii := ascii_of_nat 92.

Definition hex_digit (n : nat) : ascii :=
  if (n <? 10)%nat then ascii_of_nat (48 + n) else ascii_of_nat (87 + n).

(** [repr(s)] of a string: single quotes unless it holds one and no
    double quote; the quote, the backslash and control characters
    escaped. *)
Definition repr_str (s : text) : text :=
  let has q := existsb (Ascii.eqb q) s in
  let q := if has quote1 && negb (has quote2) then quote2 else quote1 in
  let esc c :=
    if Ascii.eqb c q || Ascii.eqb c backslash then [backslash; c]
    else if Ascii.eqb c (ascii_of_nat 10) then [backslash; "n"%char]
    else if Ascii.eqb c (ascii_of_nat 13) then [backslash; "r"%char]
    else if Ascii.eqb c (ascii_of_nat 9) then [backslash; "t"%char]
    else if (code c <? 32)%nat || Nat.eqb (code c) 127 then
      [backslash; "x"%char; hex_digit (code c / 16); hex_digit (code c mod 16)]
    else [c] in
  q :: flat_map esc s ++ [q].

Definition str_scalar (v : scalar) : text :=
  match v with
  | SNone => txt "None"
  | SBool b => if b then txt "True" else txt "False"
  | SInt z => text_of_Z z
  | SFloat x => repr_float x
  | SStr s => txt s
  | SDate y m d => iso_date y m d
  | STime ns => iso_time " " ns ++ txt "+00:00"
  end.

Definition repr_scalar (v : scalar) : text :=
  match v with
  | SStr s => repr_str (txt s)
  | SDate y m d =>
      txt "datetime.date(" ++ text_of_Z y ++ txt ", " ++ text_of_Z m
        ++ txt ", " ++ text_of_Z d ++ txt ")"
  | STime ns =>
      txt "Timestamp('" ++ iso_time " " ns ++ txt "+0000', tz='UTC')"
  | other => str_scalar other
  end.

Fixpoint join (sep : text) (l : list text) : text :=
  match l with
  | [] => []
  | [a] => a
  | a :: l' => a ++ sep ++ join sep l'
  end.

(** [str(v)] *)
Definition py_str (v : value) : text :=
  match v with
  | Scalar x => str_scalar x
  | VList l => "["%char :: join (txt ", ") (map repr_scalar l) ++ txt "]"
  end.

(** [bool(v)] *)
Definition truthy (v : value) : bool :=
  match v with
  | Scalar SNone => false
  | Scalar (SBool b) => b
  | Scalar (SInt z) => negb (z =? 0)
  | Scalar (SFloat (FFin m _)) => negb (m =? 0)
  | Scalar (SFloat _) => true
  | Scalar (SStr s) => negb (Nat.eqb (String.length s) 0)
  | Scalar (SDate _ _ _) | Scalar (STime _) => true
  | VList l => negb (Nat.eqb (List.length l) 0)
  end.

Definition is_None (v : value) : bool :=
  match v with Scalar SNone => true | _ => false end.

(** [np.isnan(v)] of a number: an integer outside the 64-bit range is an
    object to NumPy, and [isnan] refuses it. *)
Definition np_isnan (v : scalar) : result bool :=
  match v with
  | SFloat x => Ok (isnan x)
  | SInt z => if (- 2 ^ 63 <=? z) && (z <? 2 ^ 64) then Ok false
              else Raise TypeError
  | SBool _ => Ok false
  | _ => Raise TypeError
  end.

(** ** pandas: DataFrames

    A frame is its column labels, in order and possibly repeated, and
    its rows; the cells of a row stand under the labels, position by
    position. *)

Definition label := string.

Definition row := list value.

Record frame : Type := Frame { columns : list label; rows : list row }.

Definition scalar_eq_dec (a b : scalar) : {a = b} + {a <> b}.
Proof.
  repeat decide equality; apply Z.eq_dec.
Defined.

Definition value_eq_dec (a b : value) : {a = b} + {a <> b}.
Proof.
  decide equality; [ apply scalar_eq_dec | apply (list_eq_dec scalar_eq_dec) ].
Defined.

Definition value_eqb (a b : value) : bool :=
  if value_eq_dec a b then true else false.

(** [Series.isna()] of one cell: a list is an object, not a null. *)
Definition cell_isna (v : value) : bool :=
  match v with
  | Scalar x => scalar_isna x
  | VList _ => false
  end.

Fixpoint positions_from (i : nat) (c : label) (cols : list label) : list nat :=
  match cols with
  | [] => []
  | x :: cols' =>
      (if String.eqb x c then [i] else []) ++ positions_from (S i) c cols'
  end.

(** Where the label [c] stands among the columns. *)
Definition positions (c : label) (df : frame) : list nat :=
  positions_from 0 c (columns df).

(** [c in df.columns] *)
Definition has_col (c : label) (df : frame) : bool :=
  existsb (String.eqb c) (columns df).

Definition cell (r : row) (j : nat) : value := nth j r (Scalar SNone).

(** The one column labelled [c]: with no such column a [KeyError]; with
    several, the use the script makes of them raises [on_dup]. *)
Definition position (on_dup : exn) (c : label) (df : frame) : result nat :=
  match positions c df with
  | [] => Raise KeyError
  | [j] => Ok j
  | _ => Raise on_dup
  end.

(** [df[c]] where the script goes on to use it as a Series ([df[c]] is a
    DataFrame when several columns bear the label). *)
Definition get_col (on_dup : exn) (c : label) (df : frame) : result (list value) :=
  j <- position on_dup c df ;; Ok (map (fun r => cell r j) (rows df)).

Fixpoint set_at (ps : list nat) (v : value) (i : nat) (r : row) : row :=
  match r with
  | [] => []
  | x :: r' =>
      (if existsb (Nat.eqb i) ps then v else x) :: set_at ps v (S i) r'
  end.

(** [df[c] = vals]: in place under an existing label, else a new last
    column. *)
Definition set_col (c : label) (vals : list value) (df : frame) : frame :=
  if has_col c df then
    Frame (columns df)
      (map (fun rv => set_at (positions c df) (snd rv) 0 (fst rv))
           (combine (rows df) vals))
  else
    Frame (columns df ++ [c])
      (map (fun rv => fst rv ++ [snd rv]) (combine (rows df) vals)).

(** [df[c] = v] for one value [v]. *)
Definition set_const (c : label) (v : value) (df : frame) : frame :=
  set_col c (map (fun _ => v) (rows df)) df.

(** [df[labels]]: for each label in turn every column that bears it; a
    label no column bears is a [KeyError]. *)
Definition select (labels : list label) (df : frame) : result frame :=
  ps <- mapM (fun c => match positions c df with
                       | [] => Raise KeyError
                       | js => Ok (map (fun j => (c, j)) js)
                       end) labels ;;
  let picked := List.concat ps in
  Ok (Frame (map fst picked)
            (map (fun r => map (fun cj => cell r (snd cj)) picked) (rows df))).

(** [df.rename(columns=mapping)] *)
Definition rename (mapping : label -> label) (df : frame) : frame :=
  Frame (map mapping (columns df)) (rows df).

Fixpoint keep_where {A : Type} (mask : list bool) (l : list A) : list A :=
  match mask, l with
  | b :: mask', x :: l' => if b then x :: keep_where mask' l' else keep_where mask' l'
  | _, _ => []
  end.

(** [df.drop(columns=labels, errors='ignore')] *)
Definition drop_cols (labels : list label) (df : frame) : frame :=
  let mask := map (fun c => negb (existsb (String.eqb c) labels)) (columns df) in
  Frame (keep_where mask (columns df)) (map (keep_where mask) (rows df)).

(** [df.loc[:, ~df.columns.duplicated()]]: the first column of each label. *)
Fixpoint first_occurrence (seen cols : list label) : list bool :=
  match cols with
  | [] => []
  | c :: cols' =>
      negb (existsb (String.eqb c) seen) :: first_occurrence (c :: seen) cols'
  end.

Definition drop_duplicate_columns (df : frame) : frame :=
  let mask := first_occurrence [] (columns df) in
  Frame (keep_where mask (columns df)) (map (keep_where mask) (rows df)).

(** [len(df.columns) != len(set(df.columns))] *)
Definition has_duplicate_columns (df : frame) : bool :=
  existsb negb (first_occurrence [] (columns df)).

(** [df.empty]: no row or no column. *)
Definition frame_empty (df : frame) : bool :=
  Nat.eqb (List.length (columns df)) 0 || Nat.eqb (List.length (rows df)) 0.

(** [df.dropna(subset=labels)] over single columns at [js]. *)
Definition dropna_at (js : list nat) (rs : list row) : list row :=
  filter (fun r => forallb (fun j => negb (cell_isna (cell r j))) js) rs.

(** [drop_duplicates(keep='first')] on the key of a row; null keys are
    equal to each other. *)
Fixpoint drop_duplicates_by (key : row -> value) (seen : list value)
    (rs : list row) : list row :=
  match rs with
  | [] => []
  | r :: rs' =>
      if existsb (value_eqb (key r)) seen then drop_duplicates_by key seen rs'
      else r :: drop_duplicates_by key (key r :: seen) rs'
  end.

(** The instant of a cell of a datetime column; [None] is NaT. *)
Definition instant (v : value) : option Z :=
  match v with
  | Scalar (STime ns) => Some ns
  | _ => None
  end.

(** [a] is not after [b] in descending order, NaT last. *)
Definition desc_le (a b : option Z) : bool :=
  match a, b with
  | Some x, Some y => y <=? x
  | Some _, None => true
  | None, None => true
  | None, Some _ => false
  end.

Fixpoint insert_desc (key : row -> option Z) (r : row) (sorted : list row)
    : list row :=
  match sorted with
  | [] => [r]
  | x :: rest =>
      if desc_le (key r) (key x) then r :: sorted
      else x :: insert_desc key r rest
  end.

(** [df.sort_values(c, ascending=False)] on a datetime column: latest
    first, NaT last.  Equal instants keep the order they came in, which
    is what the sort does on the short arrays it sorts by insertion; the
    order of ties is otherwise unspecified. *)
Definition sort_values_desc (key : row -> option Z) (rs : list row) : list row :=
  fold_right (insert_desc key) [] rs.

(** [pd.DataFrame(records)] of JSON objects: the keys in the order they
    first appear, NaN where a record lacks a key.  The cells are kept as
    the records hold them; pandas stores the integers of a column that
    has a missing cell as doubles, equal to them below [2^53]. *)
Definition record := list (label * value).

Fixpoint lookup (c : label) (r : record) : value :=
  match r with
  | [] => Scalar NaN
  | (k, v) :: r' => if String.eqb k c then v else lookup c r'
  end.

Definition DataFrame (records : list record) : frame :=
  let keys := List.concat (map (map fst) records) in
  let cols := keep_where (first_occurrence [] keys) keys in
  Frame cols (map (fun r => map (fun c => lookup c r) cols) records).

(** ** pandas: conversions

    What pandas makes of text and other objects is a parameter:
    - [fromisoformat s]: the date of [datetime.fromisoformat(s)], [None]
      for its [ValueError];
    - [to_numeric_obj v]: [pd.to_numeric(errors='coerce')] of one cell
      that is no number: a number, or NaN;
    - [to_datetime_obj v]: [pd.to_datetime(utc=True)] of one cell that is
      not null: an instant, NaT, or the error it raises;
    - [cast_int64 m e]: the 64-bit integer that [.astype('int64')] stores
      for the finite double [m * 2^e] when its integer part is outside
      the 64-bit range: C leaves the cast undefined, NumPy warns, pandas
      silences the warning, and the run goes on with that integer. *)

Record library : Type := Library {
  fromisoformat : text -> option (Z * Z * Z);
  to_numeric_obj : value -> scalar;
  to_datetime_obj : value -> result (option Z);
  cast_int64 : Z -> Z -> Z
}.

Section Conversions.

Variable L : library.

(** A plain run of at most 18 digits converts to the integer it writes. *)
Definition plain_digits (s : text) : bool :=
  negb (Nat.eqb (List.length s) 0) && (List.length s <=? 18)%nat
  && forallb is_digit s.

Definition to_numeric_cell (v : value) : scalar :=
  match v with
  | Scalar SNone => NaN
  | Scalar (SInt z) => SInt z
  | Scalar (SFloat x) => SFloat x
  | Scalar (SStr s) =>
      if plain_digits (txt s) then SInt (decimal (txt s)) else to_numeric_obj L v
  | _ => to_numeric_obj L v
  end.

Definition is_float (v : scalar) : bool :=
  match v with SFloat _ => true | _ => false end.

Definition as_float (v : scalar) : scalar :=
  match v with
  | SInt z => SFloat (float_of_int z)
  | other => other
  end.

(** [pd.to_numeric(col, errors='coerce')]: a column with a float or a
    NaN in it is a float column, its integers rounded to doubles. *)
Definition to_numeric (col : list value) : list scalar :=
  let cells := map to_numeric_cell col in
  if existsb is_float cells then map as_float cells else cells.

(** [.astype('Int64')] of one cell of a numeric or object column. *)
Definition astype_Int64 (v : scalar) : result scalar :=
  match v with
  | SNone | SFloat FNan => Ok SNone
  | SBool b => Ok (SInt (if b then 1 else 0))
  | SInt z =>
      if (- 2 ^ 63 <=? z) && (z <? 2 ^ 63) then Ok (SInt z)
      else Raise OverflowError
  | SFloat (FFin m e) =>
      if (m * pow2 e) mod pow2 (- e) =? 0
      then Ok (SInt (m * pow2 e / pow2 (- e)))
      else Raise TypeError
  | _ => Raise TypeError
  end.

(** [pd.to_numeric(col, errors='coerce').astype('Int64')] *)
Definition to_Int64 (col : list value) : result (list value) :=
  cells <- mapM astype_Int64 (to_numeric col) ;; Ok (map Scalar cells).

(** [pd.to_datetime(col, utc=True)] *)
Definition to_datetime_cell (v : value) : result value :=
  if cell_isna v then Ok (Scalar SNone)
  else
    t <- to_datetime_obj L v ;;
    Ok (Scalar (match t with Some ns => STime ns | None => SNone end)).

Definition to_datetime (col : list value) : result (list value) :=
  mapM to_datetime_cell col.

End Conversions.

End Py.

(** * [transform_tiki.py] *)

Module Tiki.

Import Py.
Local Open Scope Z_scope.

(** ** Configuration *)

Definition FACT_SCHEMA : list string :=
  [ "snapshot_date"; "product_id"; "current_price"; "original_price";
    "discount_rate"; "sales_volume_acc"; "review_count"; "rating_average";
    "inventory_status"; "tiki_now"; "extracted_at" ]%string.

Definition DIM_PRODUCTS_SCHEMA : list string :=
  [ "product_id"; "sku"; "name"; "brand_name"; "image_url"; "product_url";
    "seller_id"; "seller_name"; "seller_logo"; "category_id";
    "root_category_id"; "category_depth"; "created_at"; "updated_at" ]%string.

Definition DIM_CATEGORIES_SCHEMA : list string :=
  [ "category_id"; "category_name"; "category_level"; "full_path";
    "url_key"; "parent_id"; "standard_category" ]%string.

(** ** The patterns *)

(** [\d{3}] and [\d{1,3}], the longer first. *)
Definition digit3 : regex := Seq digit (Seq digit digit).
Definition digit1_3 : regex := Seq digit (Opt (Seq digit (Opt digit))).

Definition dot_or_comma (c : ascii) : bool :=
  Ascii.eqb c "." || Ascii.eqb c ",".

(** [(\d+(?:[.,]\d+)?)\s*(k|tr|m|trieu|triệu)] *)
Definition suffix_pattern : regex :=
  Seq (Group 1 (Seq (Plus digit) (Opt (Seq (Chr dot_or_comma) (Plus digit)))))
    (Seq (Star space)
       (Group 2 (Alt (Lit "k") (Alt (Lit "tr") (Alt (Lit "m")
                   (Alt (Lit "trieu") (Lit "triệu"))))))).

(** [(\d{1,3}(?:\.\d{3})+)] *)
Definition thousand_sep_pattern : regex :=
  Group 1 (Seq digit1_3 (Plus (Seq (Char ".") digit3))).

(** [(\d+)] *)
Definition simple_pattern : regex := Group 1 (Plus digit).

(** [/c(\d+)] *)
Definition category_url_pattern : regex :=
  Seq (Lit "/c") (Group 1 (Plus digit)).

(** [^[\s]*(\d{1,3}(?:\.\d{3})+)(?:\s*(?:đ|VND|₫))?[\s]*$] under
    [re.IGNORECASE]; the capital of đ is Đ. *)
Definition price_pattern : regex :=
  Seq Bol (Seq (Star space)
    (Seq (Group 1 (Seq digit1_3 (Plus (Seq (Char ".") digit3))))
      (Seq (Opt (Seq (Star space)
                   (Alt (Alt (Lit "đ") (Lit "Đ")) (Alt (LitI "VND") (Lit "₫")))))
        (Seq (Star space) Eol)))).

(** [[^\d.]] *)
Definition not_digit_or_dot (c : ascii) : bool :=
  negb (is_digit c || Ascii.eqb c ".").

(** [/([^/]+)/c\d+] *)
Definition url_key_pattern : regex :=
  Seq (Char "/")
    (Seq (Group 1 (Plus (Chr (fun c => negb (Ascii.eqb c "/")))))
       (Seq (Lit "/c") (Plus digit))).

(** ** The value parsers *)

(** [pd.isna(value) or value is None] *)
Definition isna_or_None (v : value) : result bool :=
  b <- truth (pd_isna v) ;; Ok (b || is_None v).

(** [multipliers.get(suffix, 1)] *)
Definition multipliers (suffix : text) : Z :=
  if text_eqb suffix (txt "k") then 1000
  else if text_eqb suffix (txt "tr") then 1000000
  else if text_eqb suffix (txt "trieu") then 1000000
  else if text_eqb suffix (txt "triệu") then 1000000
  else if text_eqb suffix (txt "m") then 1000000
  else 1.

Definition parse_sales_volume (value : value) : result Z :=
  null <- isna_or_None value ;;
  if null then Ok 0
  else if is_number value then int_of_number (scalar_of value)
  else
    let text := strip (lower (py_str value)) in
    (* Check for suffix first (k, tr, m, etc.) *)
    match re_search suffix_pattern text with
    | Some suffix_match =>
        (* Has suffix - treat . or , as decimal separator *)
        g1 <- group_str 1 suffix_match AttributeError ;;
        let number_str := replace_char "," (txt ".") g1 in
        suffix <- group_str 2 suffix_match TypeError ;;
        match float_of_decimal number_str with
        | Raise ValueError => Ok 0
        | Raise e => Raise e
        | Ok number =>
            int_of_float (fmul number (float_of_int (multipliers suffix)))
        end
    | None =>
        (* No suffix - check for thousand separator pattern *)
        match re_search thousand_sep_pattern text with
        | Some thousand_match =>
            g1 <- group_str 1 thousand_match AttributeError ;;
            let number_str := replace_char "." [] g1 in
            except_ValueError (int_of_text number_str) (Ok 0)
        | None =>
            (* Simple number without suffix or thousand separator *)
            match re_search simple_pattern text with
            | Some simple_match =>
                except_ValueError
                  (g1 <- group_str 1 simple_match TypeError ;; int_of_text g1)
                  (Ok 0)
            | None => Ok 0
            end
        end
    end.

Definition parse_discount_rate (value : value) : result Z :=
  null <- isna_or_None value ;;
  if null then Ok 0
  else if is_number value then
    z <- int_of_number (scalar_of value) ;; Ok (Z.abs z)
  else
    let text := strip (py_str value) in
    match re_search simple_pattern text with
    | Some m => g1 <- group_str 1 m TypeError ;; int_of_text g1
    | None => Ok 0
    end.

Definition extract_category_id (url : value) : result (option Z) :=
  null <- isna_or_None url ;;
  if null then Ok None
  else
    (* Pattern matches /c followed by digits *)
    match re_search category_url_pattern (py_str url) with
    | Some m => g1 <- group_str 1 m TypeError ;; z <- int_of_text g1 ;; Ok (Some z)
    | None => Ok None
    end.

Definition clean_price (value : value) : result (option Z) :=
  null <- isna_or_None value ;;
  if null then Ok None
  else if is_number value then
    nan <- np_isnan (scalar_of value) ;;
    if negb nan then z <- int_of_number (scalar_of value) ;; Ok (Some z)
    else Ok None
  else
    let text := strip (py_str value) in
    (* Check for Vietnamese thousand separator pattern (e.g., 1.000.000) *)
    match re_match price_pattern text with
    | Some thousand_match =>
        g1 <- group_str 1 thousand_match AttributeError ;;
        let number_str := replace_char "." [] g1 in
        except_ValueError (z <- int_of_text number_str ;; Ok (Some z)) (Ok None)
    | None =>
        (* Fallback: Remove non-numeric characters except decimal point *)
        let cleaned := re_sub_class not_digit_or_dot text in
        if Nat.eqb (List.length cleaned) 0 then Ok None
        else
          except_ValueError
            (x <- float_of_decimal cleaned ;; z <- int_of_float x ;; Ok (Some z))
            (Ok None)
    end.




(** [has_tiki_now], local to [transform_data]. *)
Definition has_tiki_now (badges : value) : bool :=
  except_Exception
    (null <- truth (pd_isna badges) ;;
     if null then Ok false
     else if is_None badges then Ok false
     else
       match badges with
       | VList l =>
           (* Handle list, numpy array, or any iterable *)
           Ok (existsb (fun x => match x with
                                 | SStr s => String.eqb s "tiki_now"
                                 | _ => false
                                 end) l)
       | Scalar (SStr s) => Ok (contains (txt "tiki_now") (lower (txt s)))
       | _ => Ok false
       end)
    false.

(** [parse_category_path], local to [transform_data]: the ids of a path
    such as ["1815 > 28670 > 12296 > 4593"]. *)
Definition parse_category_path (path_str : value) : list Z :=
  except_Exception
    (null <- truth (pd_isna path_str) ;;
     if null || negb (truthy path_str) then Ok []
     else mapM int_of_text (split_char ">" (py_str path_str)))
    [].

(** [path_list[-1] if path_list else None] *)
Definition get_leaf_id (path_list : list Z) : scalar :=
  match rev path_list with
  | z :: _ => SInt z
  | [] => SNone
  end.

(** [path_list[0] if path_list else None] *)
Definition get_root_id (path_list : list Z) : scalar :=
  match path_list with
  | z :: _ => SInt z
  | [] => SNone
  end.

(** [len(path_list) if path_list else 0] *)
Definition get_depth (path_list : list Z) : scalar :=
  SInt (Z.of_nat (List.length path_list)).

(** [extract_url_key], local to [transform_data]. *)
Definition extract_url_key (url : value) : result scalar :=
  null <- isna_or_None url ;;
  if null then Ok SNone
  else
    match re_search url_key_pattern (py_str url) with
    | Some m => g1 <- group_str 1 m TypeError ;; Ok (SStr (string_of_list_ascii g1))
    | None => Ok SNone
    end.

(** ** The transformation pipeline *)

Section Pipeline.

Variable L : library.

Local Open Scope string_scope.

Definition parse_snapshot_date (extracted_at : value) : result scalar :=
  null <- isna_or_None extracted_at ;;
  if null then Ok SNone
  else
    (* Handle ISO format with Z suffix; a ValueError gives None *)
    let dt_str := replace_char "Z" (txt "+00:00") (py_str extracted_at) in
    match fromisoformat L (hd [] (split_char "+" dt_str)) with
    | Some (y, m, d) => Ok (SDate y m d)
    | None => Ok SNone
    end.

(** *** 1. Rename columns *)

Definition rename_map (c : label) : label :=
  if c =? "_extracted_at" then "extracted_at"
  else if c =? "thumbnail_url" then "image_url"
  else if c =? "seller" then "seller_name"
  else if c =? "brand" then "brand_name"
  else if c =? "quantity_sold" then "sales_volume"
  else if c =? "rating" then "rating_average"
  else c.

(** *** 2. Parse and standardize columns *)

Definition option_cell (z : option Z) : scalar :=
  match z with Some n => SInt n | None => SNone end.

(** [series.apply(f)] followed by [.astype('Int64')]. *)
Definition apply_Int64 (f : value -> result scalar) (col : list value)
    : result (list value) :=
  cells <- mapM f col ;;
  cells <- mapM astype_Int64 cells ;;
  Ok (map Scalar cells).

Definition parse_columns (df : frame) : result frame :=
  extracted_at <- get_col ValueError "extracted_at" df ;;
  snapshot_date <- mapM parse_snapshot_date extracted_at ;;
  let df := set_col "snapshot_date" (map Scalar snapshot_date) df in
  product_id <- get_col TypeError "product_id" df ;;
  product_id <- to_Int64 L product_id ;;
  let df := set_col "product_id" product_id df in
  seller_id <- get_col TypeError "seller_id" df ;;
  seller_id <- to_Int64 L seller_id ;;
  let df := set_col "seller_id" seller_id df in
  price <- get_col ValueError "price" df ;;
  current_price <-
    apply_Int64 (fun v => z <- clean_price v ;; Ok (option_cell z)) price ;;
  let df := set_col "current_price" current_price df in
  original_price <- get_col ValueError "original_price" df ;;
  original_price <-
    apply_Int64 (fun v => z <- clean_price v ;; Ok (option_cell z)) original_price ;;
  let df := set_col "original_price" original_price df in
  discount_rate <- get_col ValueError "discount_rate" df ;;
  discount_rate <-
    apply_Int64 (fun v => z <- parse_discount_rate v ;; Ok (SInt z)) discount_rate ;;
  let df := set_col "discount_rate" discount_rate df in
  sales_volume <- get_col ValueError "sales_volume" df ;;
  sales_volume_acc <-
    apply_Int64 (fun v => z <- parse_sales_volume v ;; Ok (SInt z)) sales_volume ;;
  let df := set_col "sales_volume_acc" sales_volume_acc df in
  rating_average <- get_col TypeError "rating_average" df ;;
  let df := set_col "rating_average" (map Scalar (to_numeric L rating_average)) df in
  review_count <- get_col TypeError "review_count" df ;;
  review_count <- to_Int64 L review_count ;;
  Ok (set_col "review_count" review_count df).

(** [old.fillna(new)], row by row. *)
Definition fillna (old new : list value) : list value :=
  map (fun on => if cell_isna (fst on) then snd on else fst on) (combine old new).

(** One cell of [series == 0]. *)
Definition is_zero (v : value) : bool :=
  match v with
  | Scalar (SInt z) => (z =? 0)%Z
  | Scalar (SFloat (FFin m _)) => (m =? 0)%Z
  | Scalar (SBool b) => negb b
  | _ => false
  end.

(** [df.loc[old == 0, c] = new], row by row. *)
Definition fill_zero (old new : list value) : list value :=
  map (fun on => if is_zero (fst on) then snd on else fst on) (combine old new).

(** The category fields from [category_path], then from the URL:
    existing values are kept, nulls (zeros, for the depth) are filled. *)
Definition resolve_categories (df : frame) : result frame :=
  df <-
    (if has_col "category_path" df then
       category_path <- get_col ValueError "category_path" df ;;
       let parsed := map parse_category_path category_path in
       let df := set_col "_parsed_path"
                   (map (fun ids => VList (map SInt ids)) parsed) df in
       let leaves := map (fun ids => Scalar (get_leaf_id ids)) parsed in
       let roots := map (fun ids => Scalar (get_root_id ids)) parsed in
       let depths := map (fun ids => Scalar (get_depth ids)) parsed in
       (* Apply extraction with fallback to existing values *)
       df <-
         (if negb (has_col "category_id" df) then Ok (set_col "category_id" leaves df)
          else
            old <- get_col ValueError "category_id" df ;;
            if forallb cell_isna old then Ok (set_col "category_id" leaves df)
            else Ok (set_col "category_id" (fillna old leaves) df)) ;;
       df <-
         (if negb (has_col "root_category_id" df)
          then Ok (set_col "root_category_id" roots df)
          else
            old <- get_col ValueError "root_category_id" df ;;
            if forallb cell_isna old then Ok (set_col "root_category_id" roots df)
            else Ok (set_col "root_category_id" (fillna old roots) df)) ;;
       df <-
         (if negb (has_col "category_depth" df)
          then Ok (set_col "category_depth" depths df)
          else
            old <- get_col ValueError "category_depth" df ;;
            if forallb is_zero old then Ok (set_col "category_depth" depths df)
            else Ok (set_col "category_depth" (fill_zero old depths) df)) ;;
       (* Cleanup temp column *)
       Ok (drop_cols ["_parsed_path"] df)
     else Ok df) ;;
  (* Fallback: extract category_id from URL if still null *)
  if negb (has_col "category_id" df) then
    url <- get_col ValueError "_category_url" df ;;
    ids <- mapM extract_category_id url ;;
    Ok (set_col "category_id" (map (fun z => Scalar (option_cell z)) ids) df)
  else
    old <- get_col ValueError "category_id" df ;;
    if existsb cell_isna old then
      url <- get_col ValueError "_category_url" df ;;
      url_ids <- mapM extract_category_id url ;;
      Ok (set_col "category_id"
            (fillna old (map (fun z => Scalar (option_cell z)) url_ids)) df)
    else Ok df.

(** Convert to proper types. *)
Definition convert_category_types (df : frame) : result frame :=
  category_id <- get_col TypeError "category_id" df ;;
  category_id <- to_Int64 L category_id ;;
  let df := set_col "category_id" category_id df in
  df <-
    (if has_col "root_category_id" df then
       c <- get_col TypeError "root_category_id" df ;;
       c <- to_Int64 L c ;;
       Ok (set_col "root_category_id" c df)
     else Ok df) ;;
  if has_col "category_depth" df then
    c <- get_col TypeError "category_depth" df ;;
    c <- to_Int64 L c ;;
    Ok (set_col "category_depth" c df)
  else Ok df.

(** One cell of [series.notna() & (series > 0)] on an Int64 column. *)
Definition is_positive (v : value) : bool :=
  match v with
  | Scalar (SInt z) => (0 <? z)%Z
  | _ => false
  end.

Definition derive_flags (df : frame) : result frame :=
  (* Assume in stock if price exists and > 0 *)
  current_price <- get_col ValueError "current_price" df ;;
  let df := set_col "inventory_status"
              (map (fun v => Scalar (SBool (is_positive v))) current_price) df in
  (* Derive tiki_now: True if 'tiki_now' appears in badges array *)
  badges <- get_col ValueError "badges" df ;;
  let df := set_col "tiki_now"
              (map (fun v => Scalar (SBool (has_tiki_now v))) badges) df in
  (* Convert extracted_at to datetime (was string from JSON) *)
  extracted_at <- get_col TypeError "extracted_at" df ;;
  extracted_at <- to_datetime L extracted_at ;;
  Ok (set_col "extracted_at" extracted_at df).

(** *** 3. Deduplication *)

(** The rows latest first, then the first row of each product. *)
Definition dedup_rows (at_extracted at_product : nat) (rs : list row) : list row :=
  drop_duplicates_by (fun r => cell r at_product) []
    (sort_values_desc (fun r => instant (cell r at_extracted)) rs).

Definition deduplicate (df : frame) : result frame :=
  at_extracted <- position ValueError "extracted_at" df ;;
  at_product <- position KeyError "product_id" df ;;
  Ok (Frame (columns df) (dedup_rows at_extracted at_product (rows df))).

(** *** 4. Null validation *)

Definition validate_nulls (df : frame) : result frame :=
  at_product <- position KeyError "product_id" df ;;
  at_price <- position KeyError "current_price" df ;;
  Ok (Frame (columns df) (dropna_at [at_product; at_price] (rows df))).

(** *** 5. Split into fact and dimension tables *)

(** [for col in schema: if col not in df.columns: df[col] = None], then
    [df[schema]]. *)
Definition enforce_schema (schema : list label) (df : frame) : result frame :=
  let df := fold_left
              (fun df col => if negb (has_col col df)
                             then set_const col (Scalar SNone) df else df)
              schema df in
  select schema df.

Definition build_fact (df : frame) : result frame :=
  select [ "snapshot_date"; "product_id"; "current_price"; "original_price";
           "discount_rate"; "sales_volume_acc"; "review_count";
           "rating_average"; "inventory_status"; "tiki_now"; "extracted_at" ] df.

(** [series.astype(str).replace('<NA>', None)] *)
Definition sku_cell (v : value) : value :=
  if text_eqb (py_str v) (txt "<NA>") then Scalar SNone
  else Scalar (SStr (string_of_list_ascii (py_str v))).

Definition build_dim (df : frame) : result frame :=
  let dim_columns :=
    ([ "product_id"; "sku"; "name"; "brand_name"; "image_url"; "product_url";
       "seller_id"; "seller_name"; "seller_logo"; "category_id"; "category_name" ]
     ++ (if has_col "root_category_id" df then ["root_category_id"] else [])
     ++ (if has_col "category_depth" df then ["category_depth"] else []))%list in
  dim_df <- select dim_columns df ;;
  (* Convert sku to string (BigQuery schema requirement) *)
  sku <- get_col AttributeError "sku" dim_df ;;
  let dim_df := set_col "sku" (map sku_cell sku) dim_df in
  extracted_at <- get_col ValueError "extracted_at" df ;;
  let dim_df := set_col "created_at" extracted_at dim_df in
  extracted_at <- get_col ValueError "extracted_at" df ;;
  Ok (set_col "updated_at" extracted_at dim_df).

Definition int_cell (v : value) : Z :=
  match v with Scalar (SInt z) => z | _ => 0%Z end.

(** [min(x, 3) if pd.notna(x) else 1] *)
Definition level_of_depth (x : value) : value :=
  if negb (cell_isna x) then Scalar (SInt (Z.min (int_cell x) 3))
  else Scalar (SInt 1).

(** [root.notna() & (root != leaf)] *)
Definition has_root (root leaf : value) : bool :=
  negb (cell_isna root) && negb (value_eqb root leaf).

(** ["root > leaf"] when the root differs, else the leaf id. *)
Definition full_path_cell (root leaf : value) : value :=
  Scalar (SStr (string_of_list_ascii
    (if has_root root leaf
     then (text_of_Z (int_cell root) ++ txt " > " ++ text_of_Z (int_cell leaf))%list
     else py_str leaf))).

(** The root for depth above 1, else NULL. *)
Definition parent_cell (depth root : value) : value :=
  if negb (cell_isna depth) && (1 <? int_cell depth)%Z && negb (cell_isna root)
  then root else Scalar SNone.

Definition build_categories (df : frame) : result frame :=
  (* Select category columns *)
  let cat_cols :=
    ([ "category_id"; "_category_url" ]
     ++ (if has_col "category_name" df then ["category_name"] else [])
     ++ (if has_col "root_category_id" df then ["root_category_id"] else [])
     ++ (if has_col "category_depth" df then ["category_depth"] else []))%list in
  cat_df <- select cat_cols df ;;
  at_id <- position KeyError "category_id" cat_df ;;
  (* Remove null categories, keep unique categories *)
  let cat_df :=
    Frame (columns cat_df)
      (drop_duplicates_by (fun r => cell r at_id) []
         (dropna_at [at_id] (rows cat_df))) in
  url <- get_col ValueError "_category_url" cat_df ;;
  url_key <- mapM extract_url_key url ;;
  let cat_df := set_col "url_key" (map Scalar url_key) cat_df in
  (* Ensure category_name exists (NULL if not from crawler) *)
  let cat_df := if negb (has_col "category_name" cat_df)
                then set_const "category_name" (Scalar SNone) cat_df
                else cat_df in
  (* Build category_level (1=Root, 2=Sub, 3=Deep Leaf) *)
  cat_df <-
    (if has_col "category_depth" cat_df then
       depth <- get_col ValueError "category_depth" cat_df ;;
       Ok (set_col "category_level" (map level_of_depth depth) cat_df)
     else Ok (set_const "category_level" (Scalar (SInt 1)) cat_df)) ;;
  (* Build full_path (root_id > leaf_id) *)
  leaf <- get_col ValueError "category_id" cat_df ;;
  cat_df <-
    (if has_col "root_category_id" cat_df then
       root <- get_col ValueError "root_category_id" cat_df ;;
       Ok (set_col "full_path"
             (map (fun rl => full_path_cell (fst rl) (snd rl)) (combine root leaf))
             cat_df)
     else
       Ok (set_col "full_path"
             (map (fun l => Scalar (SStr (string_of_list_ascii (py_str l)))) leaf)
             cat_df)) ;;
  (* Build parent_id (root for sub/leaf categories, NULL for root) *)
  cat_df <-
    (if has_col "root_category_id" cat_df && has_col "category_depth" cat_df then
       depth <- get_col ValueError "category_depth" cat_df ;;
       root <- get_col ValueError "root_category_id" cat_df ;;
       Ok (set_col "parent_id"
             (map (fun dr => parent_cell (fst dr) (snd dr)) (combine depth root))
             cat_df)
     else Ok (set_const "parent_id" (Scalar SNone) cat_df)) ;;
  (* standard_category will be NULL (to be filled manually) *)
  let cat_df := set_const "standard_category" (Scalar SNone) cat_df in
  (* Drop temporary columns and ensure only schema columns exist *)
  let cat_df := drop_cols ["_category_url"] cat_df in
  let cat_df := drop_cols ["root_category_id"] cat_df in
  let cat_df := drop_cols ["category_depth"] cat_df in
  (* Add missing columns with NULL (only if truly missing) *)
  let missing_cols :=
    filter (fun col => negb (has_col col cat_df)) DIM_CATEGORIES_SCHEMA in
  let cat_df := fold_left
                  (fun df col => if negb (has_col col df)
                                 then set_const col (Scalar SNone) df else df)
                  missing_cols cat_df in
  (* Final selection in schema order *)
  cat_df <- select DIM_CATEGORIES_SCHEMA cat_df ;;
  (* INT64 columns (nullable integer) *)
  cat_df <-
    fold_left
      (fun acc col =>
         df <- acc ;;
         if has_col col df then
           c <- get_col TypeError col df ;;
           c <- mapM astype_Int64 (map scalar_of c) ;;
           Ok (set_col col (map Scalar c) df)
         else Ok df)
      [ "category_id"; "category_level"; "parent_id" ] (Ok cat_df) ;;
  if has_duplicate_columns cat_df then Ok (drop_duplicate_columns cat_df)
  else Ok cat_df.

(** [transform_data(df)]: the fact, product and category tables. *)
Definition transform_data (df : frame) : result (frame * frame * frame) :=
  let df := rename rename_map df in
  df <- parse_columns df ;;
  df <- resolve_categories df ;;
  df <- convert_category_types df ;;
  df <- derive_flags df ;;
  df <- deduplicate df ;;
  df <- validate_nulls df ;;
  fact_df <- build_fact df ;;
  dim_df <- build_dim df ;;
  cat_df <- build_categories df ;;
  fact_df <- enforce_schema FACT_SCHEMA fact_df ;;
  dim_df <- enforce_schema DIM_PRODUCTS_SCHEMA dim_df ;;
  Ok (fact_df, dim_df, cat_df).

End Pipeline.


(** ** Storage and the entry point

    The bucket is a list of named blobs: raw zone files hold JSON
    records, clean zone files hold the tables written. *)

Inductive blob : Type :=
| Json (records : list record)
| Parquet (table : frame).

Record gcs : Type := Gcs {
  credentials_found : bool;
  bucket_name : string;
  bucket : list (string * blob)
}.

(** A step that reads or writes the bucket and may raise. *)
Definition io (A : Type) : Type := gcs -> result A * gcs.

Definition io_ret {A : Type} (a : A) : io A := fun w => (Ok a, w).

Definition io_bind {A B : Type} (c : io A) (f : A -> io B) : io B :=
  fun w =>
    match c w with
    | (Ok a, w') => f a w'
    | (Raise e, w') => (Raise e, w')
    end.

Definition io_lift {A : Type} (r : result A) : io A := fun w => (r, w).

Definition io_read {A : Type} (f : gcs -> result A) : io A := fun w => (f w, w).

Notation "x <~ c ;; k" := (io_bind c (fun x => k))
  (at level 61, c at next level, right associativity).

Local Open Scope string_scope.

Definition raw_zone_prefix : string := "raw_zone/tiki/products".
Definition clean_zone_prefix : string := "clean_zone/tiki/fact_daily_snapshot".

Definition ends_with (suffix s : string) : bool :=
  starts_with (rev (txt suffix)) (rev (txt s)).

(** [get_gcs_client()] *)
Definition get_gcs_client : io unit :=
  io_read (fun w => if credentials_found w then Ok tt
                    else Raise FileNotFoundError).

(** [list_blobs_with_prefix(client, prefix)] *)
Definition list_blobs_with_prefix (prefix : string) (w : gcs)
    : list (string * blob) :=
  filter (fun nb => starts_with (txt prefix) (txt (fst nb))
                    && ends_with ".json" (fst nb)) (bucket w).

(** [read_json_from_gcs]: the records of a JSON blob; anything else does
    not decode. *)
Definition read_json (b : blob) : result (list record) :=
  match b with
  | Json records => Ok records
  | Parquet _ => Raise ValueError
  end.

(** [load_raw_data(client, execution_date)] *)
Definition load_raw_data (execution_date : string) : io frame :=
  io_read (fun w =>
    let prefix := raw_zone_prefix ++ "/snapshot_date=" ++ execution_date ++ "/" in
    let blobs := list_blobs_with_prefix prefix w in
    if Nat.eqb (List.length blobs) 0 then
      (* No JSON files found in raw zone for date ... *)
      Raise ValueError
    else
      all_records <- mapM (fun nb => read_json (snd nb)) blobs ;;
      Ok (DataFrame (List.concat all_records))).

Fixpoint upload (name : string) (b : blob) (bk : list (string * blob))
    : list (string * blob) :=
  match bk with
  | [] => [(name, b)]
  | (n, old) :: bk' =>
      if n =? name then (name, b) :: bk' else (n, old) :: upload name b bk'
  end.

(** [write_parquet_to_gcs]: the Arrow table of a frame with a repeated
    column name is refused; otherwise the blob is written. *)
Definition write_parquet_to_gcs (df : frame) (destination_path : string)
    : io string :=
  fun w =>
    if has_duplicate_columns df then (Raise ValueError, w)
    else
      (Ok ("gs://" ++ bucket_name w ++ "/" ++ destination_path),
       Gcs (credentials_found w) (bucket_name w)
           (upload destination_path (Parquet df) (bucket w))).

(** [save_to_clean_zone] *)
Definition save_to_clean_zone (fact_df dim_df cat_df : frame)
    (execution_date : string) : io (string * string * string) :=
  let part := "/snapshot_date=" ++ execution_date ++ "/part-001.parquet" in
  fact_uri <~ write_parquet_to_gcs fact_df (clean_zone_prefix ++ part) ;;
  dim_uri <~ write_parquet_to_gcs dim_df ("clean_zone/tiki/dim_products" ++ part) ;;
  cat_uri <~ write_parquet_to_gcs cat_df ("clean_zone/tiki/dim_categories" ++ part) ;;
  io_ret (fact_uri, dim_uri, cat_uri).

Record summary : Type := Summary {
  fact_uri : string; dim_uri : string; cat_uri : string;
  fact_records : nat; dim_records : nat; cat_records : nat
}.

(** [run_transformation(execution_date)]; the handler logs the error and
    raises it again. *)
Definition run_transformation (L : library) (execution_date : string)
    : io summary :=
  _ <~ get_gcs_client ;;
  raw_df <~ load_raw_data execution_date ;;
  tables <~ io_lift (transform_data L raw_df) ;;
  let '(fact_df, dim_df, cat_df) := tables in
  if frame_empty fact_df then
    (* Transformation resulted in empty fact DataFrame *)
    io_lift (Raise ValueError)
  else
    uris <~ save_to_clean_zone fact_df dim_df cat_df execution_date ;;
    let '(fact_uri, dim_uri, cat_uri) := uris in
    io_ret (Summary fact_uri dim_uri cat_uri
              (List.length (rows fact_df)) (List.length (rows dim_df))
              (List.length (rows cat_df))).

End Tiki.

(** * [transform_google_trends.py] *)

Module Trends.

Import Py.
Local Open Scope Z_scope.

(** One row of the long format, cleaned: a date is its day number, and
    [None] is NaT. *)
Record long_row : Type := LongRow {
  date : option Z;
  keyword : string;
  score : Z;
  is_partial : bool;
  inserted_at : Z
}.

(** One row of the output. *)
Record trend_row : Type := TrendRow {
  out_date : Z;
  out_keyword : string;
  out_score : Z;
  out_is_partial : bool;
  out_inserted_at : Z
}.

(** ** STEP 4: cleaning *)

Section Cleaning.

(** What pandas makes of text ([Py.library]), and [to_date v]: the day
    of [pd.to_datetime(v)] for a cell that is not null, [None] for NaT,
    or the error it raises. *)
Variable L : library.
Variable to_date : value -> result (option Z).

Definition is_number_cell (v : value) : bool :=
  match v with
  | Scalar (SInt _) | Scalar (SFloat _) => true
  | _ => false
  end.

Definition is_bool_cell (v : value) : bool :=
  match v with Scalar (SBool _) => true | _ => false end.

(** [series.dtype == 'object']: the column is neither all numbers nor
    all booleans. *)
Definition is_object_dtype (col : list value) : bool :=
  negb (forallb is_number_cell col) && negb (forallb is_bool_cell col).

(** [series.replace('<1', '0')] on one cell. *)
Definition replace_less_than_one (v : value) : value :=
  match v with
  | Scalar (SStr s) => if String.eqb s "<1" then Scalar (SStr "0") else v
  | _ => v
  end.

(** [series.fillna(0)] on one cell. *)
Definition fillna_zero (v : scalar) : scalar :=
  if scalar_isna v then SInt 0 else v.

(** [.astype('int64')] on one cell without nulls: a float is truncated,
    an infinity refused ([IntCastingNaNError], a [ValueError]); for a
    finite float outside the 64-bit range the cast stores what the
    platform gives, and does not raise. *)
Definition astype_int64 (v : scalar) : result Z :=
  match v with
  | SInt z => Ok z
  | SBool b => Ok (if b then 1 else 0)
  | SFloat (FFin m e) =>
      let z := Z.quot (m * pow2 e) (pow2 (- e)) in
      if (- 2 ^ 63 <=? z) && (z <? 2 ^ 63) then Ok z else Ok (cast_int64 L m e)
  | _ => Raise ValueError
  end.

(** 4a-4c on the score column. *)
Definition clean_scores (col : list value) : result (list Z) :=
  let numeric :=
    if is_object_dtype col then
      (* Replace "<1" with 0; also handle any other non-numeric strings *)
      to_numeric L (map replace_less_than_one col)
    else map scalar_of col in
  (* Replace NaN/null values with 0, then cast *)
  mapM astype_int64 (map fillna_zero numeric).

(** 4d: [pd.to_datetime(series).dt.date] on one cell. *)
Definition clean_date (v : value) : result (option Z) :=
  if cell_isna v then Ok None else to_date v.

(** ** STEPS 2 and 3: the isPartial column, then melt *)

Local Open Scope string_scope.

(** The first column named [isPartial] in any case. *)
Definition find_is_partial (cols : list label) : option label :=
  find (fun col => text_eqb (lower (txt col)) (txt "ispartial")) cols.

(** One keyword column of the wide frame as rows of the long one. *)
Definition melt_column (dates partials : list value) (kw : label)
    (scores : list value) : list (value * value * label * value) :=
  map (fun dps => (fst (fst dps), snd (fst dps), kw, snd dps))
      (combine (combine dates partials) scores).

(** ** STEP 6: aggregation *)

Fixpoint text_compare (a b : text) : comparison :=
  match a, b with
  | [], [] => Eq
  | [], _ :: _ => Lt
  | _ :: _, [] => Gt
  | x :: a', y :: b' =>
      match Nat.compare (code x) (code y) with
      | Eq => text_compare a' b'
      | c => c
      end
  end.

(** The order of the group keys [(date, keyword)]. *)
Definition key_compare (d1 : Z) (k1 : string) (d2 : Z) (k2 : string)
    : comparison :=
  match Z.compare d1 d2 with
  | Eq => text_compare (txt k1) (txt k2)
  | c => c
  end.

(** One more row of a group: the maximum of each aggregated column. *)
Definition merge (g : trend_row) (r : long_row) : trend_row :=
  TrendRow (out_date g) (out_keyword g)
    (Z.max (out_score g) (score r))
    (out_is_partial g || is_partial r)
    (Z.max (out_inserted_at g) (inserted_at r)).

Fixpoint upsert (d : Z) (r : long_row) (groups : list trend_row)
    : list trend_row :=
  match groups with
  | [] => [TrendRow d (keyword r) (score r) (is_partial r) (inserted_at r)]
  | g :: groups' =>
      match key_compare d (keyword r) (out_date g) (out_keyword g) with
      | Lt => TrendRow d (keyword r) (score r) (is_partial r) (inserted_at r)
              :: groups
      | Eq => merge g r :: groups'
      | Gt => g :: upsert d r groups'
      end
  end.

(** [groupby(['date', 'keyword'], as_index=False).agg(max, max, max)]: one
    row per key, in key order; rows without a date belong to no group. *)
Definition aggregate (long : list long_row) : list trend_row :=
  fold_left (fun groups r => match date r with
                             | Some d => upsert d r groups
                             | None => groups
                             end) long [].

(** ** [transform_trends_data], from the frame read to the frame saved *)

Fixpoint zip_rows (dates : list (option Z)) (kws : list label) (scores : list Z)
    (partials : list bool) (now : Z) : list long_row :=
  match dates, kws, scores, partials with
  | d :: dates', k :: kws', s :: scores', p :: partials' =>
      LongRow d k s p now :: zip_rows dates' kws' scores' partials' now
  | _, _, _, _ => []
  end.

Definition transform_trends_data (now : Z) (df : frame) : result (list trend_row) :=
  (* STEP 2: separate isPartial from keywords *)
  let '(df, is_partial_col) :=
    match find_is_partial (columns df) with
    | Some col => (df, col)
    | None => (set_const "isPartial" (Scalar (SBool false)) df, "isPartial")
    end in
  let keyword_columns :=
    filter (fun col => negb (String.eqb col "date" || String.eqb col is_partial_col))
           (columns df) in
  (* STEP 3: melt *)
  dates <- get_col ValueError "date" df ;;
  partials <- get_col ValueError is_partial_col df ;;
  melted <- mapM (fun kw => scores <- get_col ValueError kw df ;;
                            Ok (melt_column dates partials kw scores))
                 keyword_columns ;;
  let df_long := List.concat melted in
  (* STEP 4: cleaning *)
  scores <- clean_scores (map snd df_long) ;;
  let partials := map (fun r => truthy (snd (fst (fst r)))) df_long in
  dates <- mapM (fun r => clean_date (fst (fst (fst r)))) df_long ;;
  (* STEP 5: inserted_at, and the first of them for the log *)
  let long := zip_rows dates (map (fun r => snd (fst r)) df_long) scores partials now in
  match long with
  | [] => Raise IndexError
  | _ :: _ =>
      (* STEPS 6 and 7 *)
      Ok (aggregate long)
  end.



End Cleaning.

(** ** [validate_parquet], on the frame the output is saved as *)

Definition final_columns : list label :=
  [ "date"; "keyword"; "score"; "is_partial"; "inserted_at" ]%string.

Definition date_cell (days : Z) : value :=
  let '(y, m, d) := civil_of_days days in Scalar (SDate y m d).

(** STEP 7 and 8: the frame written. *)
Definition frame_of (out : list trend_row) : frame :=
  Frame final_columns
    (map (fun r => [ date_cell (out_date r);
                     Scalar (SStr (out_keyword r));
                     Scalar (SInt (out_score r));
                     Scalar (SBool (out_is_partial r));
                     Scalar (STime (out_inserted_at r)) ]) out).

Definition is_int_cell (v : value) : bool :=
  match v with Scalar (SInt _) => true | _ => false end.

Local Open Scope string_scope.

Definition validate_parquet (df : frame) : result bool :=
  (* Check required columns *)
  if negb (forallb (fun c => has_col c df) final_columns) then Raise ValueError
  else
    (* Check data types *)
    score <- get_col ValueError "score" df ;;
    if negb (forallb is_int_cell score) then Raise AssertionError
    else
      is_partial <- get_col ValueError "is_partial" df ;;
      if negb (forallb is_bool_cell is_partial) then Raise AssertionError
      else
        (* Check no nulls in required fields *)
        date <- get_col ValueError "date" df ;;
        keyword <- get_col ValueError "keyword" df ;;
        if existsb cell_isna (date ++ keyword ++ score)%list then Raise ValueError
        else Ok true.

End Trends.

Unset Implicit Arguments.

(** * Sample batches *)

Module Samples.

Import Py Tiki.
Local Open Scope Z_scope.
Local Open Scope string_scope.

(** A record as the crawler writes it. *)
Definition sample_record : record :=
  [ ("product_id", Scalar (SStr "278628866"));
    ("sku", Scalar (SStr "8465413657217"));
    ("name", Scalar (SStr "Apple iPhone 17 Pro Max"));
    ("brand_name", Scalar (SStr "Apple"));
    ("seller_name", Scalar (SStr "Tiki Trading"));
    ("seller_id", Scalar (SInt 1));
    ("seller_logo", Scalar SNone);
    ("price", Scalar (SInt 37250000));
    ("original_price", Scalar (SInt 37990000));
    ("discount_rate", Scalar (SStr "-2%"));
    ("sales_volume", Scalar (SStr "Đã bán 1.5k"));
    ("rating_average", Scalar (SFloat (FFin 5 0)));
    ("review_count", Scalar (SInt 47));
    ("badges", VList [SStr "tiki_now"]);
    ("product_url", Scalar (SStr "https://tiki.vn/apple-iphone-17-pro-max-p278628866.html"));
    ("image_url", Scalar (SStr "https://salt.tikicdn.com/cache/280x280/ts/product/85/50/d4/test.jpg"));
    ("_extracted_at", Scalar (SStr "2026-01-18T16:49:55.805Z"));
    ("_category_url", Scalar (SStr "https://tiki.vn/dien-thoai-may-tinh-bang/c1789"));
    ("category_name", Scalar (SStr "dien-thoai-may-tinh-bang")) ].

Definition two_names_record : record :=
  ("thumbnail_url", Scalar (SStr "https://salt.tikicdn.com/cache/280x280/thumb.jpg"))
  :: sample_record.

(** A record whose price is null: the only row of its batch is dropped
    by the null validation. *)
Definition priceless_record : record :=
  map (fun kv => if fst kv =? "price" then ("price", Scalar SNone) else kv)
      sample_record.

(** A library that reads no text: every date text is refused, every
    text is no number, every timestamp is NaT; a double beyond the
    64-bit range is cast to the least integer, as on x86-64. *)
Definition blind_library : library :=
  Library (fun _ => None) (fun _ => NaN) (fun _ => Ok None)
          (fun _ _ => (- 2 ^ 63)%Z).

Definition sample_bucket (r : record) : gcs :=
  Gcs true "tiki-bucket"
    [ ("raw_zone/tiki/products/snapshot_date=2026-01-18/page-001.json", Json [r]) ].

(** A library that gives one answer: [d] for every date text, [t] for
    every timestamp. *)
Definition answering (d : option (Z * Z * Z)) (t : option Z) : library :=
  Library (fun _ => d) (fun _ => NaN) (fun _ => Ok t) (fun _ _ => (- 2 ^ 63)%Z).

(** Two observations of product 1 and one of product 2. *)
Definition early_row : row :=
  [ Scalar (SInt 1); Scalar (STime 100); Scalar (SInt 37990000) ].

Definition late_row : row :=
  [ Scalar (SInt 1); Scalar (STime 200); Scalar (SInt 37250000) ].

Definition other_row : row :=
  [ Scalar (SInt 2); Scalar (STime 150); Scalar (SInt 990000) ].

Definition observed_twice : frame :=
  Frame [ "product_id"; "extracted_at"; "current_price" ]
        [ early_row; other_row; late_row ].

(** Two products of one category path: the first carries its category
    id and depth, the second carries neither. *)
Definition half_resolved : frame :=
  Frame [ "product_id"; "category_id"; "category_depth"; "category_path";
          "_category_url" ]
    [ [ Scalar (SInt 1); Scalar (SInt 8095); Scalar (SInt 2);
        Scalar (SStr "1789 > 1795"); Scalar (SStr "https://tiki.vn/dien-thoai/c1789") ];
      [ Scalar (SInt 2); Scalar SNone; Scalar (SInt 0);
        Scalar (SStr "1789 > 1795"); Scalar (SStr "https://tiki.vn/dien-thoai/c1789") ] ].

(** The record of another product, whose image is under the name the
    listing API gives it. *)
Definition thumbnail_record : record :=
  map (fun kv =>
         if fst kv =? "image_url" then ("thumbnail_url", snd kv)
         else if fst kv =? "product_id" then ("product_id", Scalar (SStr "278628867"))
         else kv)
      sample_record.

(** Two days of two keywords, read without an isPartial column; the
    second window repeats the first day. *)
Definition trends_wide : frame :=
  Frame [ "date"; "iphone"; "samsung" ]
    [ [ Scalar (SStr "2026-01-17"); Scalar (SStr "5"); Scalar (SStr "<1") ];
      [ Scalar (SStr "2026-01-18"); Scalar (SStr "8"); Scalar (SStr "3") ];
      [ Scalar (SStr "2026-01-17"); Scalar (SStr "7"); Scalar NaN ] ].

(** The day of a date text of the sample, NaT for any other. *)
Definition sample_day (v : value) : result (option Z) :=
  match v with
  | Scalar (SStr "2026-01-17") => Ok (Some 20470%Z)
  | Scalar (SStr "2026-01-18") => Ok (Some 20471%Z)
  | _ => Ok None
  end.



End Samples.

(** * Properties of the Python layer *)

Module PyFacts.

Import Py.
Local Open Scope Z_scope.

(** ** The matcher is sound for the relational reading of a pattern *)

Section Soundness.

Variable total : nat.

(** [steps r s caps s' caps']: [r] matches a prefix of [s], leaving [s']
    and turning the captures [caps] into [caps']. *)
Inductive steps : regex -> text -> captures -> text -> captures -> Prop :=
| steps_eps s c : steps Eps s c s c
| steps_chr p a s c : p a = true -> steps (Chr p) (a :: s) c s c
| steps_seq r1 r2 s c s1 c1 s2 c2 :
    steps r1 s c s1 c1 -> steps r2 s1 c1 s2 c2 -> steps (Seq r1 r2) s c s2 c2
| steps_alt_l r1 r2 s c s' c' :
    steps r1 s c s' c' -> steps (Alt r1 r2) s c s' c'
| steps_alt_r r1 r2 s c s' c' :
    steps r2 s c s' c' -> steps (Alt r1 r2) s c s' c'
| steps_star_stop r s c : steps (Star r) s c s c
| steps_star_more r s c s1 c1 s2 c2 :
    steps r s c s1 c1 -> (List.length s1 < List.length s)%nat ->
    steps (Star r) s1 c1 s2 c2 -> steps (Star r) s c s2 c2
| steps_group n r s c s' c' :
    steps r s c s' c' ->
    steps (Group n r) s c s' ((n, firstn (List.length s - List.length s') s) :: c')
| steps_bol s c : List.length s = total -> steps Bol s c s c
| steps_eol_end c : steps Eol [] c [] c
| steps_eol_newline c :
    steps Eol [ascii_of_nat 10] c [ascii_of_nat 10] c.

Variable R : Type.

Lemma star_loop_sound (body : text -> captures -> cont R -> option R)
    (r : regex) (k : cont R) :
  (forall s caps k' x, body s caps k' = Some x ->
     exists s' caps', steps r s caps s' caps' /\ k' s' caps' = Some x) ->
  forall n s caps x,
    star_loop body k n s caps = Some x ->
    exists s' caps', steps (Star r) s caps s' caps' /\ k s' caps' = Some x.
Proof.
  intros Hbody. induction n as [|n IH]; intros s caps x H; cbn [star_loop] in H.
  - exists s, caps. split; [ constructor | exact H ].
  - destruct (body s caps _) as [y|] eqn:Hb.
    + injection H as ->.
      apply Hbody in Hb. destruct Hb as (s1 & c1 & Hs & Hk).
      destruct (List.length s1 <? List.length s)%nat eqn:Hlt; [ | discriminate ].
      apply Nat.ltb_lt in Hlt.
      apply IH in Hk. destruct Hk as (s2 & c2 & Hs2 & Hk2).
      exists s2, c2. split; [ | exact Hk2 ].
      eapply steps_star_more; eauto.
    + exists s, caps. split; [ constructor | exact H ].
Qed.

Theorem rmatch_sound (r : regex) :
  forall s caps (k : cont R) x,
    rmatch total r s caps k = Some x ->
    exists s' caps', steps r s caps s' caps' /\ k s' caps' = Some x.
Proof.
  induction r as [ | p | r1 IH1 r2 IH2 | r1 IH1 r2 IH2 | r IH | n r IH | | ];
    intros s caps k x H; cbn [rmatch] in H.
  - exists s, caps. split; [ constructor | exact H ].
  - destruct s as [|a s]; [ discriminate | ].
    destruct (p a) eqn:Hp; [ | discriminate ].
    exists s, caps. split; [ constructor; exact Hp | exact H ].
  - apply IH1 in H. destruct H as (s1 & c1 & Hs1 & H).
    apply IH2 in H. destruct H as (s2 & c2 & Hs2 & H).
    exists s2, c2. split; [ econstructor; eauto | exact H ].
  - destruct (rmatch total r1 s caps k) as [y|] eqn:H1.
    + injection H as ->. apply IH1 in H1. destruct H1 as (s1 & c1 & Hs & Hk).
      exists s1, c1. split; [ apply steps_alt_l; exact Hs | exact Hk ].
    + apply IH2 in H. destruct H as (s1 & c1 & Hs & Hk).
      exists s1, c1. split; [ apply steps_alt_r; exact Hs | exact Hk ].
  - eapply star_loop_sound; [ | exact H ]. intros; eapply IH; eauto.
  - apply IH in H. destruct H as (s1 & c1 & Hs & Hk).
    eexists s1, _. split; [ constructor; exact Hs | exact Hk ].
  - destruct (List.length s =? total)%nat eqn:E; [ | discriminate ].
    apply Nat.eqb_eq in E.
    exists s, caps. split; [ constructor; exact E | exact H ].
  - destruct s as [|a [|b s]]; [ | | discriminate ].
    + exists [], caps. split; [ constructor | exact H ].
    + destruct (Ascii.eqb a (ascii_of_nat 10)) eqn:E; [ | discriminate ].
      apply Ascii.eqb_eq in E. subst a.
      exists [ascii_of_nat 10], caps. split; [ constructor | exact H ].
Qed.

(** What a match leaves is a suffix of what it started from. *)
Lemma steps_suffix r s c s' c' :
  steps r s c s' c' -> exists w, s = w ++ s'.
Proof.
  induction 1.
  - exists []. reflexivity.
  - exists [a]. reflexivity.
  - destruct IHsteps1 as [w1 ->]. destruct IHsteps2 as [w2 ->].
    exists (w1 ++ w2). rewrite app_assoc. reflexivity.
  - exact IHsteps.
  - exact IHsteps.
  - exists []. reflexivity.
  - destruct IHsteps1 as [w1 ->]. destruct IHsteps2 as [w2 ->].
    exists (w1 ++ w2). rewrite app_assoc. reflexivity.
  - exact IHsteps.
  - exists []. reflexivity.
  - exists []. reflexivity.
  - exists []. reflexivity.
Qed.


(** A repeated class consumes characters of the class and captures
    nothing. *)
Lemma steps_star_chr p s c s' c' :
  steps (Star (Chr p)) s c s' c' ->
  c' = c /\ exists w, s = w ++ s' /\ forallb p w = true.
Proof.
  intros H. remember (Star (Chr p)) as r eqn:Er.
  induction H; try discriminate.
  - split; [ reflexivity | exists []; split; reflexivity ].
  - injection Er as ->. specialize (IHsteps2 eq_refl).
    destruct IHsteps2 as [-> (w & -> & Hw)].
    inversion H; subst.
    split; [ reflexivity | ].
    exists (a :: w). split; [ reflexivity | ].
    cbn. apply andb_true_iff. split; assumption.
Qed.

Lemma steps_plus_chr p s c s' c' :
  steps (Plus (Chr p)) s c s' c' ->
  c' = c /\ exists w, s = w ++ s' /\ forallb p w = true /\ w <> [].
Proof.
  intros H. inversion H as [ | | ? ? ? ? s1 c1 ? ? Hc Hs | | | | | | | | ]; subst.
  inversion Hc; subst.
  apply steps_star_chr in Hs. destruct Hs as [-> (w & -> & Hw)].
  split; [ reflexivity | ].
  exists (a :: w). repeat split.
  - cbn. apply andb_true_iff. split; assumption.
  - discriminate.
Qed.

Lemma firstn_app_length {A : Type} (w s' : list A) :
  firstn (List.length (w ++ s') - List.length s') (w ++ s') = w.
Proof.
  rewrite length_app, Nat.add_sub. rewrite firstn_app, Nat.sub_diag.
  cbn. rewrite app_nil_r. apply firstn_all.
Qed.

(** A group around it captures exactly what it consumed. *)
Lemma steps_group_plus_chr n p s c s' c' :
  steps (Group n (Plus (Chr p))) s c s' c' ->
  exists w, c' = (n, w) :: c /\ s = w ++ s' /\ forallb p w = true /\ w <> [].
Proof.
  intros H. inversion H as [ | | | | | | | ? ? ? ? ? ? Hp | | | ]; subst.
  apply steps_plus_chr in Hp. destruct Hp as [-> (w & -> & Hw & Hne)].
  exists w. rewrite firstn_app_length. repeat split; assumption.
Qed.

End Soundness.

(** A successful search is a match of the pattern somewhere. *)
Lemma search_from_sound total r s caps :
  search_from total r s = Some caps ->
  exists s0 s', steps total r s0 [] s' caps.
Proof.
  induction s as [|a s IH]; cbn [search_from]; intros H.
  - destruct (rmatch total r [] [] accept) as [y|] eqn:E; [ | discriminate ].
    injection H as ->. apply rmatch_sound in E.
    destruct E as (s' & c' & Hs & Hk). injection Hk as ->. eauto.
  - destruct (rmatch total r (a :: s) [] accept) as [y|] eqn:E.
    + injection H as ->. apply rmatch_sound in E.
      destruct E as (s' & c' & Hs & Hk). injection Hk as ->. eauto.
    + apply IH. exact H.
Qed.

Lemma re_search_sound r s caps :
  re_search r s = Some caps -> exists s0 s', steps (List.length s) r s0 [] s' caps.
Proof. apply search_from_sound. Qed.

Lemma re_match_sound r s caps :
  re_match r s = Some caps -> exists s', steps (List.length s) r s [] s' caps.
Proof.
  unfold re_match. intros H. apply rmatch_sound in H.
  destruct H as (s' & c' & Hs & Hk). injection Hk as ->. eauto.
Qed.


(** ** Numbers written in digits *)

Lemma is_digit_not_space c : is_digit c = true -> is_space c = false.
Proof.
  unfold is_digit, is_space. intros H.
  apply andb_true_iff in H. destruct H as [H1 H2].
  apply Nat.leb_le in H1. apply Nat.leb_le in H2.
  apply orb_false_iff. split; apply andb_false_iff.
  - right. apply Nat.leb_gt. lia.
  - right. apply Nat.leb_gt. lia.
Qed.

Lemma lstrip_digits ds :
  forallb is_digit ds = true -> lstrip ds = ds.
Proof.
  destruct ds as [|c ds]; cbn; [ reflexivity | ].
  intros H. apply andb_true_iff in H. destruct H as [H _].
  rewrite (is_digit_not_space _ H). reflexivity.
Qed.

Lemma forallb_rev {A : Type} (p : A -> bool) (l : list A) :
  forallb p (rev l) = forallb p l.
Proof.
  induction l as [|a l IH]; cbn; [ reflexivity | ].
  rewrite forallb_app, IH. cbn. rewrite andb_true_r. apply andb_comm.
Qed.

Lemma strip_digits ds :
  forallb is_digit ds = true -> strip ds = ds.
Proof.
  intros H. unfold strip, rstrip. rewrite (lstrip_digits ds H).
  rewrite lstrip_digits; [ apply rev_involutive | ].
  rewrite forallb_rev. exact H.
Qed.

Lemma int_digits_digits ds : forall acc b,
  forallb is_digit ds = true -> (ds <> [] \/ b = true) ->
  int_digits ds acc b
  = Ok (fold_left (fun a c => 10 * a + digit_val c)%Z ds acc).
Proof.
  induction ds as [|c ds IH]; intros acc b Hd Hne; cbn.
  - destruct Hne as [Hne | ->]; [ contradiction | reflexivity ].
  - cbn in Hd. apply andb_true_iff in Hd. destruct Hd as [Hc Hd].
    rewrite Hc. apply IH; [ exact Hd | right; reflexivity ].
Qed.

Lemma digit_not_sign c :
  is_digit c = true -> c <> "-"%char /\ c <> "+"%char.
Proof.
  intros H. split; intros ->; discriminate.
Qed.

(** [int] of a run of digits is the number it writes. *)
Lemma int_of_text_digits ds :
  forallb is_digit ds = true -> ds <> [] -> int_of_text ds = Ok (decimal ds).
Proof.
  intros Hd Hne. unfold int_of_text. rewrite (strip_digits ds Hd).
  destruct ds as [|c ds]; [ contradiction | ].
  assert (Hc : is_digit c = true).
  { cbn in Hd. apply andb_true_iff in Hd. apply Hd. }
  destruct (digit_not_sign c Hc) as [Hm Hp].
  assert (E : int_digits (c :: ds) 0 false = Ok (decimal (c :: ds))).
  { apply int_digits_digits; [ exact Hd | left; discriminate ]. }
  destruct c as [b0 b1 b2 b3 b4 b5 b6 b7].
  destruct b0, b1, b2, b3, b4, b5, b6, b7; try exact E;
    first [ exfalso; apply Hm; reflexivity | exfalso; apply Hp; reflexivity ].
Qed.



(** ** Rounding to binary64 stays in range *)


Lemma pow2_nonneg e : 0 <= e -> pow2 e = 2 ^ e /\ pow2 (- e) = 1.
Proof.
  intros H. unfold pow2. rewrite Z.max_r by lia.
  rewrite (Z.max_l 0 (- e)) by lia. split; reflexivity.
Qed.

Lemma pow2_nonpos e : e <= 0 -> pow2 e = 1 /\ pow2 (- e) = 2 ^ (- e).
Proof.
  intros H. unfold pow2. rewrite (Z.max_l 0 e) by lia.
  rewrite (Z.max_r 0 (- e)) by lia. split; reflexivity.
Qed.









Section MoreSoundness.

Variable total : nat.




End MoreSoundness.









Lemma digit_val_range c : is_digit c = true -> 0 <= digit_val c <= 9.
Proof.
  unfold is_digit, digit_val. intros H.
  apply andb_true_iff in H. destruct H as [H1 H2].
  apply Nat.leb_le in H1. apply Nat.leb_le in H2. lia.
Qed.

Lemma decimal_range ds :
  forallb is_digit ds = true ->
  0 <= decimal ds < 10 ^ Z.of_nat (List.length ds).
Proof.
  unfold decimal. intros Hd.
  assert (G : forall acc k, 0 <= acc < 10 ^ k -> 0 <= k ->
            0 <= fold_left (fun a c => 10 * a + digit_val c) ds acc
              < 10 ^ (k + Z.of_nat (List.length ds))).
  { induction ds as [|c ds IH]; intros acc k Ha Hk; cbn [fold_left List.length].
    - rewrite Z.add_0_r. exact Ha.
    - cbn in Hd. apply andb_true_iff in Hd. destruct Hd as [Hc Hd].
      pose proof (digit_val_range c Hc).
      replace (k + Z.of_nat (S (List.length ds)))
        with ((k + 1) + Z.of_nat (List.length ds)) by lia.
      apply IH; [ exact Hd | | lia ].
      rewrite Z.pow_add_r by lia. change (10 ^ 1) with 10. lia. }
  specialize (G 0 0). cbn [Z.add] in G. apply G; [ cbn; lia | lia ].
Qed.



(** ** [mapM] *)

Lemma mapM_length {A B : Type} (f : A -> result B) (l : list A) : forall l',
  mapM f l = Ok l' -> List.length l' = List.length l.
Proof.
  induction l as [|a l IH]; intros l'; cbn.
  - intros [= <-]. reflexivity.
  - destruct (f a) as [b|]; cbn; [ | discriminate ].
    destruct (mapM f l) as [bs|]; cbn; [ | discriminate ].
    intros [= <-]. cbn. rewrite (IH bs eq_refl). reflexivity.
Qed.


Lemma forallb_map_all {A B : Type} (f : A -> B) (p : B -> bool) (l : list A) :
  (forall x, p (f x) = true) -> forallb p (map f l) = true.
Proof.
  intros H. induction l as [|x l IH]; cbn; [ reflexivity | ].
  rewrite H. exact IH.
Qed.

Lemma existsb_map_none {A B : Type} (f : A -> B) (p : B -> bool) (l : list A) :
  (forall x, p (f x) = false) -> existsb p (map f l) = false.
Proof.
  intros H. induction l as [|x l IH]; cbn; [ reflexivity | ].
  rewrite H. exact IH.
Qed.

(** ** Results *)

Lemma bind_Ok {A B : Type} (c : result A) (f : A -> result B) (b : B) :
  bind c f = Ok b -> exists a, c = Ok a /\ f a = Ok b.
Proof. destruct c as [a|e]; cbn; [ eauto | discriminate ]. Qed.

(** ** Frames *)

Lemma map_fst_combine {A B : Type} (l : list A) : forall l' : list B,
  List.length l' = List.length l -> map fst (combine l l') = l.
Proof.
  induction l as [|a l IH]; intros [|b l'] H; cbn in *; try discriminate;
    [ reflexivity | ].
  f_equal. apply IH. lia.
Qed.

Lemma map_snd_combine {A B : Type} (l : list A) : forall l' : list B,
  List.length l' = List.length l -> map snd (combine l l') = l'.
Proof.
  induction l as [|a l IH]; intros [|b l'] H; cbn in *; try discriminate;
    [ reflexivity | ].
  f_equal. apply IH. lia.
Qed.

Lemma positions_from_range c cols : forall i p,
  In p (positions_from i c cols) ->
  (i <= p < i + List.length cols)%nat /\ nth_error cols (p - i) = Some c.
Proof.
  induction cols as [|x cols IH]; intros i p; cbn; [ intros [] | ].
  intros H. apply in_app_or in H. destruct H as [H | H].
  - destruct (String.eqb x c) eqn:E; [ | destruct H ].
    destruct H as [<- | []]. apply String.eqb_eq in E. subst x.
    rewrite Nat.sub_diag. split; [ lia | reflexivity ].
  - destruct (IH _ _ H) as [R N]. split; [ lia | ].
    replace (p - i)%nat with (S (p - S i)) by lia. exact N.
Qed.

Lemma positions_from_none c cols : forall i,
  existsb (String.eqb c) cols = false -> positions_from i c cols = [].
Proof.
  induction cols as [|x cols IH]; intros i; cbn; [ reflexivity | ].
  intros H. apply orb_false_iff in H. destruct H as [H1 H2].
  rewrite String.eqb_sym, H1. cbn. apply IH. exact H2.
Qed.

Lemma positions_from_some c cols : forall i,
  existsb (String.eqb c) cols = true -> positions_from i c cols <> [].
Proof.
  induction cols as [|x cols IH]; intros i; cbn; [ discriminate | ].
  intros H. rewrite String.eqb_sym. destruct (String.eqb c x); [ discriminate | ].
  cbn in *. apply IH. exact H.
Qed.

Lemma positions_from_app c cols1 cols2 : forall i,
  positions_from i c (cols1 ++ cols2)
  = (positions_from i c cols1
     ++ positions_from (i + List.length cols1) c cols2)%list.
Proof.
  induction cols1 as [|x cols1 IH]; intros i; cbn.
  - rewrite Nat.add_0_r. reflexivity.
  - rewrite IH, app_assoc.
    replace (i + S (List.length cols1))%nat with (S i + List.length cols1)%nat by lia.
    reflexivity.
Qed.

(** The positions of two labels are apart. *)
Lemma positions_apart c c' cols i p :
  c <> c' -> In p (positions_from i c cols) -> ~ In p (positions_from i c' cols).
Proof.
  intros N H H'. apply positions_from_range in H. apply positions_from_range in H'.
  destruct H as [_ H], H' as [_ H']. congruence.
Qed.

Lemma length_set_at ps v r : forall i,
  List.length (set_at ps v i r) = List.length r.
Proof.
  induction r as [|x r IH]; intros i; cbn; [ reflexivity | ].
  rewrite IH. reflexivity.
Qed.

Lemma nth_set_at ps v d r : forall i k,
  (k < List.length r)%nat ->
  nth k (set_at ps v i r) d
  = if existsb (Nat.eqb (i + k)) ps then v else nth k r d.
Proof.
  induction r as [|x r IH]; intros i k H; cbn in H; [ lia | ].
  destruct k as [|k]; cbn.
  - rewrite Nat.add_0_r. reflexivity.
  - rewrite IH by lia. replace (S i + k)%nat with (i + S k)%nat by lia.
    reflexivity.
Qed.

Lemma length_keep_where {A B : Type} (mask : list bool) :
  forall (l : list A) (l' : list B),
  List.length l = List.length l' ->
  List.length (keep_where mask l) = List.length (keep_where mask l').
Proof.
  induction mask as [|b mask IH]; intros [|a l] [|a' l'] H; cbn in *;
    try discriminate; try reflexivity.
  destruct b; cbn; rewrite (IH l l') by lia; reflexivity.
Qed.

(** A frame whose rows have one cell for each column. *)
Definition well_formed (df : frame) : Prop :=
  Forall (fun r : row => List.length r = List.length (columns df)) (rows df).

(** The cells at position [j], row by row. *)
Definition column (j : nat) (df : frame) : list value :=
  map (fun r => cell r j) (rows df).

Lemma get_col_column e c df vals :
  get_col e c df = Ok vals <->
  exists j, positions c df = [j] /\ vals = column j df.
Proof.
  unfold get_col, position, column. split.
  - destruct (positions c df) as [|j [|j' ps]]; cbn; try discriminate.
    intros [= <-]. eauto.
  - intros (j & -> & ->). reflexivity.
Qed.

Lemma get_col_length e c df vals :
  get_col e c df = Ok vals -> List.length vals = List.length (rows df).
Proof.
  intros H. apply get_col_column in H. destruct H as (j & _ & ->).
  unfold column. apply length_map.
Qed.

Lemma has_col_positions c df :
  has_col c df = false <-> positions c df = [].
Proof.
  unfold has_col, positions. split.
  - apply positions_from_none.
  - intros H. destruct (existsb (String.eqb c) (columns df)) eqn:E; [ | reflexivity ].
    exfalso. exact (positions_from_some c _ 0 E H).
Qed.

Lemma position_in_row c df j r :
  well_formed df -> positions c df = [j] -> In r (rows df) ->
  (j < List.length r)%nat.
Proof.
  intros W P H. unfold well_formed in W. rewrite Forall_forall in W.
  rewrite (W r H).
  assert (I : In j (positions c df)) by (rewrite P; left; reflexivity).
  apply positions_from_range in I. lia.
Qed.

(** *** [df[c] = vals] *)

Lemma set_col_rows c vals df :
  List.length vals = List.length (rows df) ->
  List.length (rows (set_col c vals df)) = List.length (rows df).
Proof.
  intros H. unfold set_col.
  destruct (has_col c df); cbn [rows]; rewrite length_map, length_combine; lia.
Qed.

Lemma set_col_well_formed c vals df :
  well_formed df -> well_formed (set_col c vals df).
Proof.
  unfold well_formed, set_col. intros W. rewrite Forall_forall in W.
  destruct (has_col c df); cbn [rows columns]; apply Forall_forall;
    intros r H; apply in_map_iff in H; destruct H as ([r0 v] & <- & H);
    apply in_combine_l in H; cbn [fst snd].
  - rewrite length_set_at. apply W. exact H.
  - rewrite !length_app, (W r0 H). reflexivity.
Qed.

(** The column written holds the values given. *)
Lemma set_col_same c vals df j :
  well_formed df -> List.length vals = List.length (rows df) ->
  positions c df = [j] ->
  positions c (set_col c vals df) = [j] /\ column j (set_col c vals df) = vals.
Proof.
  intros W L P. unfold set_col.
  destruct (has_col c df) eqn:E.
  2:{ apply has_col_positions in E. congruence. }
  split; [ exact P | ].
  unfold column. cbn [rows]. rewrite map_map, P.
  rewrite <- (map_snd_combine (rows df) vals L) at 2.
  apply map_ext_in. intros [r v] H. cbn [fst snd]. unfold cell.
  apply in_combine_l in H.
  rewrite nth_set_at by (eapply position_in_row; eauto).
  cbn. rewrite Nat.eqb_refl. reflexivity.
Qed.

(** The other columns are as they were. *)
Lemma set_col_other c c' vals df j :
  well_formed df -> List.length vals = List.length (rows df) ->
  c <> c' -> positions c df = [j] ->
  positions c (set_col c' vals df) = [j]
  /\ column j (set_col c' vals df) = column j df.
Proof.
  intros W L N P. unfold set_col.
  destruct (has_col c' df) eqn:E.
  - split; [ exact P | ].
    unfold column. cbn [rows]. rewrite map_map.
    rewrite <- (map_fst_combine (rows df) vals L) at 2. rewrite map_map.
    apply map_ext_in. intros [r v] H. cbn [fst snd]. unfold cell.
    apply in_combine_l in H.
    rewrite nth_set_at by (eapply position_in_row; eauto). cbn.
    destruct (existsb (Nat.eqb j) (positions c' df)) eqn:X; [ | reflexivity ].
    exfalso. apply existsb_exists in X. destruct X as (p & Hp & Ep).
    apply Nat.eqb_eq in Ep. subst p.
    refine (positions_apart c c' (columns df) 0%nat j N _ Hp).
    unfold positions in P. rewrite P. left. reflexivity.
  - unfold positions in *. cbn [columns rows]. split.
    + rewrite positions_from_app, P. cbn.
      destruct (String.eqb c' c) eqn:X; [ | reflexivity ].
      apply String.eqb_eq in X. congruence.
    + unfold column. cbn [rows]. rewrite map_map.
      rewrite <- (map_fst_combine (rows df) vals L) at 2. rewrite map_map.
      apply map_ext_in. intros [r v] H. cbn [fst snd]. unfold cell.
      apply in_combine_l in H. apply app_nth1.
      eapply position_in_row; eauto.
Qed.

(** *** [df.drop(columns=labels)] *)

Lemma positions_from_keep_none c cols : forall mask i i',
  positions_from i c cols = [] ->
  positions_from i' c (keep_where mask cols) = [].
Proof.
  induction cols as [|x cols IH]; intros [|b mask] i i' H; cbn in *;
    try reflexivity.
  destruct (String.eqb x c) eqn:E; cbn in H; [ discriminate | ].
  destruct b; cbn; [ rewrite E; cbn | ]; eapply IH; eassumption.
Qed.

Section Drop.

Variable labels : list label.

Definition kept_columns (cols : list label) : list bool :=
  map (fun c => negb (existsb (String.eqb c) labels)) cols.

Lemma drop_positions c :
  existsb (String.eqb c) labels = false ->
  forall cols i i' j,
  positions_from i c cols = [j] ->
  exists j',
    positions_from i' c (keep_where (kept_columns cols) cols) = [j']
    /\ (i' <= j')%nat
    /\ forall (r : row) d, List.length r = List.length cols ->
         nth (j' - i') (keep_where (kept_columns cols) r) d = nth (j - i) r d.
Proof.
  intros Hc. induction cols as [|x cols IH]; intros i i' j H; cbn in H;
    [ discriminate | ].
  cbn [kept_columns map keep_where].
  destruct (String.eqb x c) eqn:E.
  - apply String.eqb_eq in E. subst x. rewrite Hc. cbn [negb].
    cbn in H. injection H as <- H.
    exists i'. cbn [positions_from]. rewrite String.eqb_refl. cbn.
    rewrite (positions_from_keep_none c cols _ (S i) (S i') H).
    split; [ reflexivity | split; [ lia | ] ].
    intros [|a r] d L; [ discriminate | ].
    rewrite !Nat.sub_diag. reflexivity.
  - cbn in H.
    assert (R : (S i <= j)%nat).
    { assert (I : In j (positions_from (S i) c cols)) by (rewrite H; left; reflexivity).
      apply positions_from_range in I. lia. }
    destruct (negb (existsb (String.eqb x) labels)).
    + destruct (IH (S i) (S i') j H) as (j' & P & B & N).
      exists j'. cbn [positions_from]. rewrite E. cbn.
      split; [ exact P | split; [ lia | ] ].
      intros [|a r] d L; [ discriminate | ]. cbn in L.
      replace (j' - i')%nat with (S (j' - S i')) by lia.
      replace (j - i)%nat with (S (j - S i)) by lia.
      cbn. apply N. lia.
    + destruct (IH (S i) i' j H) as (j' & P & B & N).
      exists j'. split; [ exact P | split; [ exact B | ] ].
      intros [|a r] d L; [ discriminate | ]. cbn in L.
      replace (j - i)%nat with (S (j - S i)) by lia.
      cbn. apply N. lia.
Qed.

Lemma drop_cols_rows df :
  List.length (rows (drop_cols labels df)) = List.length (rows df).
Proof. unfold drop_cols. cbn. apply length_map. Qed.

Lemma drop_cols_well_formed df :
  well_formed df -> well_formed (drop_cols labels df).
Proof.
  unfold well_formed, drop_cols. cbn [rows columns]. intros W.
  rewrite Forall_forall in W. apply Forall_forall. intros r H.
  apply in_map_iff in H. destruct H as (r0 & <- & H).
  apply length_keep_where. apply W. exact H.
Qed.

Lemma drop_cols_other c df j :
  well_formed df -> existsb (String.eqb c) labels = false ->
  positions c df = [j] ->
  exists j', positions c (drop_cols labels df) = [j']
             /\ column j' (drop_cols labels df) = column j df.
Proof.
  intros W Hc P. unfold positions in *.
  destruct (drop_positions c Hc (columns df) 0%nat 0%nat j P) as (j' & P' & _ & N).
  exists j'. split; [ exact P' | ].
  unfold column, drop_cols. cbn [rows]. rewrite map_map.
  apply map_ext_in. intros r H. unfold cell.
  unfold well_formed in W. rewrite Forall_forall in W.
  specialize (N r (Scalar SNone) (W r H)).
  rewrite !Nat.sub_0_r in N. exact N.
Qed.

End Drop.

(** *** Columns that keep their present values *)

Section Keeping.

Variable c : label.
Variable P : value -> bool.

(** [new] has the cells of [old] wherever [P] holds. *)
Definition kept (old new : list value) : Prop :=
  List.length new = List.length old
  /\ forall i v, nth_error old i = Some v -> P v = true -> nth_error new i = Some v.

(** From [df] to [df'] the rows stay in place and the column [c], where
    [df] has it, keeps the cells on which [P] holds. *)
Definition keeps (df df' : frame) : Prop :=
  well_formed df'
  /\ List.length (rows df') = List.length (rows df)
  /\ forall j, positions c df = [j] ->
       exists j', positions c df' = [j'] /\ kept (column j df) (column j' df').

Lemma kept_refl old : kept old old.
Proof. split; auto. Qed.

Lemma kept_trans l1 l2 l3 : kept l1 l2 -> kept l2 l3 -> kept l1 l3.
Proof.
  intros [L1 K1] [L2 K2]. split; [ congruence | ].
  intros i v H Hp. apply K2; [ apply K1; assumption | exact Hp ].
Qed.

Lemma keeps_refl df : well_formed df -> keeps df df.
Proof.
  intros W. split; [ exact W | split; [ reflexivity | ] ].
  intros j H. exists j. split; [ exact H | apply kept_refl ].
Qed.

Lemma keeps_trans df1 df2 df3 : keeps df1 df2 -> keeps df2 df3 -> keeps df1 df3.
Proof.
  intros (W1 & R1 & K1) (W2 & R2 & K2).
  split; [ exact W2 | split; [ congruence | ] ].
  intros j H. destruct (K1 j H) as (j1 & H1 & Q1).
  destruct (K2 j1 H1) as (j2 & H2 & Q2).
  exists j2. split; [ exact H2 | eapply kept_trans; eassumption ].
Qed.

Lemma set_col_keeps c' vals df :
  well_formed df -> List.length vals = List.length (rows df) ->
  (c' = c -> forall j, positions c df = [j] -> kept (column j df) vals) ->
  keeps df (set_col c' vals df).
Proof.
  intros W L K.
  split; [ apply set_col_well_formed; exact W | ].
  split; [ apply set_col_rows; exact L | ].
  intros j H. exists j. destruct (string_dec c' c) as [-> | N].
  - destruct (set_col_same c vals df j W L H) as [H1 H2].
    split; [ exact H1 | ]. rewrite H2. apply K; [ reflexivity | exact H ].
  - destruct (set_col_other c c' vals df j W L (not_eq_sym N) H) as [H1 H2].
    split; [ exact H1 | ]. rewrite H2. apply kept_refl.
Qed.

Lemma drop_cols_keeps labels df :
  well_formed df -> existsb (String.eqb c) labels = false ->
  keeps df (drop_cols labels df).
Proof.
  intros W Hc.
  split; [ apply drop_cols_well_formed; exact W | ].
  split; [ apply drop_cols_rows | ].
  intros j H. destruct (drop_cols_other labels c df j W Hc H) as (j' & H1 & H2).
  exists j'. split; [ exact H1 | ]. rewrite H2. apply kept_refl.
Qed.

(** [cond(old) ? new : old], cell by cell: the cells of [old] on which
    the condition fails stay. *)
Lemma fill_kept (p : value -> bool) (old new : list value) :
  (forall v, P v = true -> p v = false) ->
  List.length new = List.length old ->
  kept old (map (fun on => if p (fst on) then snd on else fst on) (combine old new)).
Proof.
  intros Hp L. split.
  - rewrite length_map, length_combine. lia.
  - revert new L. induction old as [|a old IH]; intros [|b new] L i v H Hv;
      cbn in L; try discriminate; destruct i as [|i]; cbn in *; try discriminate.
    + injection H as <-. rewrite (Hp a Hv). reflexivity.
    + apply IH; [ lia | exact H | exact Hv ].
Qed.

End Keeping.

(** ** The greedy choice of the matcher

    A run of characters of one class, then a character outside it: the
    loop takes the whole run first, and when the rest of the pattern
    accepts there, that is the match. *)

Section Greedy.

Variable R : Type.
Variable total : nat.

(** [rest] does not go on with a character of the class [p]. *)
Definition stops (p : ascii -> bool) (rest : text) : Prop :=
  match rest with
  | c :: _ => p c = false
  | [] => True
  end.

Lemma rmatch_chr_cons (p : ascii -> bool) (c : ascii) (s : text)
    (caps : captures) (k : cont R) :
  rmatch total (Chr p) (c :: s) caps k = if p c then k s caps else None.
Proof. reflexivity. Qed.

Lemma star_loop_greedy (p : ascii -> bool) (k : cont R) (rest : text)
    (caps : captures) (x : R) :
  stops p rest -> k rest caps = Some x ->
  forall w n, forallb p w = true -> (List.length w <= n)%nat ->
  star_loop (rmatch total (Chr p)) k n (w ++ rest) caps = Some x.
Proof.
  intros Hs Hk. induction w as [|c w IH]; intros n Hw Hn.
  - cbn [app]. destruct n as [|n]; cbn [star_loop]; [ exact Hk | ].
    destruct rest as [|c rest]; [ exact Hk | ].
    rewrite rmatch_chr_cons. cbn in Hs. rewrite Hs. exact Hk.
  - cbn in Hw, Hn. apply andb_true_iff in Hw. destruct Hw as [Hc Hw].
    destruct n as [|n]; [ lia | ].
    cbn [star_loop app]. rewrite rmatch_chr_cons, Hc.
    assert (L : (List.length (w ++ rest) <? List.length (c :: w ++ rest))%nat = true)
      by (apply Nat.ltb_lt; cbn; lia).
    rewrite L. rewrite (IH n Hw) by lia. reflexivity.
Qed.

Lemma star_chr_greedy (p : ascii -> bool) (k : cont R) (w rest : text)
    (caps : captures) (x : R) :
  forallb p w = true -> stops p rest -> k rest caps = Some x ->
  rmatch total (Star (Chr p)) (w ++ rest) caps k = Some x.
Proof.
  intros Hw Hs Hk. cbn [rmatch].
  apply star_loop_greedy; try assumption.
  rewrite length_app. lia.
Qed.

Lemma plus_chr_greedy (p : ascii -> bool) (k : cont R) (w rest : text)
    (caps : captures) (x : R) :
  w <> [] -> forallb p w = true -> stops p rest -> k rest caps = Some x ->
  rmatch total (Plus (Chr p)) (w ++ rest) caps k = Some x.
Proof.
  intros Hne Hw Hs Hk. destruct w as [|c w]; [ congruence | ].
  cbn in Hw. apply andb_true_iff in Hw. destruct Hw as [Hc Hw].
  unfold Plus. cbn [app].
  change (rmatch total (Seq (Chr p) (Star (Chr p))) (c :: w ++ rest) caps k)
    with (rmatch total (Chr p) (c :: w ++ rest) caps
            (fun s' caps' => rmatch total (Star (Chr p)) s' caps' k)).
  rewrite rmatch_chr_cons, Hc.
  apply (star_chr_greedy p k w rest caps x Hw Hs Hk).
Qed.

End Greedy.

(** The search passes over the characters at which the pattern fails. *)
Lemma search_from_skip (total : nat) (r : regex) (pre s : text) :
  (forall c t, In c pre -> rmatch total r (c :: t) [] accept = None) ->
  search_from total r (pre ++ s) = search_from total r s.
Proof.
  induction pre as [|c pre IH]; intros H; [ reflexivity | ].
  cbn [app search_from]. rewrite H by (left; reflexivity).
  apply IH. intros c' t Hc. apply H. right. exact Hc.
Qed.

(** ** Replacing and splitting around digits *)

Lemma replace_char_app a b s1 s2 :
  replace_char a b (s1 ++ s2) = (replace_char a b s1 ++ replace_char a b s2)%list.
Proof. unfold replace_char. apply flat_map_app. Qed.

Lemma digit_not (a : ascii) (c : ascii) :
  is_digit a = false -> is_digit c = true -> Ascii.eqb c a = false.
Proof.
  intros Ha Hc. destruct (Ascii.eqb c a) eqn:E; [ | reflexivity ].
  apply Ascii.eqb_eq in E. congruence.
Qed.

Lemma replace_char_digits a b s :
  is_digit a = false -> forallb is_digit s = true -> replace_char a b s = s.
Proof.
  intros Ha. induction s as [|c s IH]; intros H; [ reflexivity | ].
  cbn in H. apply andb_true_iff in H. destruct H as [Hc Hs].
  unfold replace_char in *. cbn. rewrite (digit_not a c Ha Hc), (IH Hs).
  reflexivity.
Qed.

Lemma split_char_digits a s :
  is_digit a = false -> forallb is_digit s = true -> split_char a s = [s].
Proof.
  intros Ha. induction s as [|c s IH]; intros H; [ reflexivity | ].
  cbn in H. apply andb_true_iff in H. destruct H as [Hc Hs].
  cbn. rewrite (digit_not a c Ha Hc), (IH Hs). reflexivity.
Qed.

Lemma split_char_digits_sep a w f :
  is_digit a = false -> forallb is_digit w = true -> forallb is_digit f = true ->
  split_char a (w ++ a :: f) = [w; f].
Proof.
  intros Ha Hw Hf. induction w as [|c w IH].
  - cbn. rewrite Ascii.eqb_refl, (split_char_digits a f Ha Hf). reflexivity.
  - cbn in Hw. apply andb_true_iff in Hw. destruct Hw as [Hc Hw].
    cbn. rewrite (digit_not a c Ha Hc), (IH Hw). reflexivity.
Qed.

(** A loop whose rest of the pattern always accepts always matches. *)
Lemma star_loop_accepts (R : Type) (body : text -> captures -> cont R -> option R)
    (k : cont R) (n : nat) (s : text) (caps : captures) :
  (forall s' caps', k s' caps' <> None) -> star_loop body k n s caps <> None.
Proof.
  intros Hk. destruct n as [|n]; cbn [star_loop]; [ apply Hk | ].
  destruct (body s caps _); [ discriminate | apply Hk ].
Qed.

(** ** The labels of a frame *)

Lemma existsb_eqb_In (c : label) (cols : list label) :
  existsb (String.eqb c) cols = true <-> In c cols.
Proof.
  rewrite existsb_exists. split.
  - intros (x & Hx & E). apply String.eqb_eq in E. subst x. exact Hx.
  - intros H. exists c. split; [ exact H | apply String.eqb_refl ].
Qed.

Lemma has_col_In (c : label) (df : frame) :
  has_col c df = true <-> In c (columns df).
Proof. apply existsb_eqb_In. Qed.

Lemma has_col_not_In (c : label) (df : frame) :
  has_col c df = false <-> ~ In c (columns df).
Proof.
  rewrite <- has_col_In. destruct (has_col c df); split; congruence.
Qed.

(** A list of labels without repetition, decided. *)
Fixpoint distinct (cols : list label) : bool :=
  match cols with
  | [] => true
  | c :: cols' => negb (existsb (String.eqb c) cols') && distinct cols'
  end.

Lemma distinct_NoDup (cols : list label) : distinct cols = true <-> NoDup cols.
Proof.
  induction cols as [|c cols IH]; cbn.
  - split; [ constructor | reflexivity ].
  - rewrite andb_true_iff, negb_true_iff, IH. split.
    + intros [H1 H2]. constructor; [ | exact H2 ].
      intros Hin. apply existsb_eqb_In in Hin. congruence.
    + intros H. inversion H as [|? ? Hn Hd]; subst. split; [ | exact Hd ].
      destruct (existsb (String.eqb c) cols) eqn:E; [ | reflexivity ].
      apply existsb_eqb_In in E. contradiction.
Qed.

Lemma columns_set_col (c : label) (vals : list value) (df : frame) :
  columns (set_col c vals df)
  = if has_col c df then columns df else (columns df ++ [c])%list.
Proof. unfold set_col. destruct (has_col c df); reflexivity. Qed.

Lemma NoDup_set_col (c : label) (vals : list value) (df : frame) :
  NoDup (columns df) -> NoDup (columns (set_col c vals df)).
Proof.
  intros H. rewrite columns_set_col. destruct (has_col c df) eqn:E; [ exact H | ].
  apply has_col_not_In in E.
  apply NoDup_app; [ exact H | repeat constructor; intros [] | ].
  intros x Hx [<- | []]. contradiction.
Qed.

Lemma has_col_set_col (c c' : label) (vals : list value) (df : frame) :
  has_col c (set_col c' vals df) = has_col c df || String.eqb c c'.
Proof.
  unfold has_col at 1. rewrite columns_set_col.
  destruct (has_col c' df) eqn:E.
  - fold (has_col c df). destruct (String.eqb c c') eqn:X.
    + apply String.eqb_eq in X. subst c'. rewrite E. reflexivity.
    + rewrite orb_false_r. reflexivity.
  - rewrite existsb_app. cbn. rewrite orb_false_r. reflexivity.
Qed.

Lemma keep_where_filter {A : Type} (f : label -> bool) (cols : list label) :
  keep_where (map f cols) cols = filter f cols.
Proof.
  induction cols as [|c cols IH]; cbn; [ reflexivity | ].
  destruct (f c); rewrite IH; reflexivity.
Qed.

Lemma columns_drop_cols (labels : list label) (df : frame) :
  columns (drop_cols labels df)
  = filter (fun c => negb (existsb (String.eqb c) labels)) (columns df).
Proof. unfold drop_cols. cbn [columns]. apply (keep_where_filter (A := label)). Qed.

Lemma NoDup_drop_cols (labels : list label) (df : frame) :
  NoDup (columns df) -> NoDup (columns (drop_cols labels df)).
Proof. intros H. rewrite columns_drop_cols. apply NoDup_filter. exact H. Qed.

(** *** A label stands once among labels without repetition *)

Lemma positions_from_NoDup (c : label) (cols : list label) : forall i,
  NoDup cols -> (List.length (positions_from i c cols) <= 1)%nat.
Proof.
  induction cols as [|x cols IH]; intros i H; cbn; [ lia | ].
  inversion H as [|? ? Hn Hd]; subst.
  destruct (String.eqb x c) eqn:E.
  - apply String.eqb_eq in E. subst x.
    rewrite positions_from_none; [ cbn; lia | ].
    destruct (existsb (String.eqb c) cols) eqn:X; [ | reflexivity ].
    apply existsb_eqb_In in X. contradiction.
  - cbn. apply IH. exact Hd.
Qed.

Lemma positions_once (c : label) (df : frame) :
  NoDup (columns df) -> has_col c df = true -> exists j, positions c df = [j].
Proof.
  intros H Hc. pose proof (positions_from_NoDup c (columns df) 0 H) as L.
  unfold positions. destruct (positions_from 0 c (columns df)) as [|j [|j' ps]] eqn:E.
  - exfalso. apply (positions_from_some c (columns df) 0 Hc E).
  - eauto.
  - cbn in L. lia.
Qed.

(** *** [df[labels]] *)

Lemma select_columns (labels : list label) (df df' : frame) :
  NoDup (columns df) -> select labels df = Ok df' -> columns df' = labels.
Proof.
  intros H. unfold select. intros S.
  apply bind_Ok in S. destruct S as (ps & Hps & S). injection S as <-.
  cbn [columns]. revert ps Hps.
  induction labels as [|c labels IH]; intros ps Hps; cbn in Hps.
  - injection Hps as <-. reflexivity.
  - apply bind_Ok in Hps. destruct Hps as (p & Hp & Hps).
    apply bind_Ok in Hps. destruct Hps as (ps' & Hps' & Hps).
    injection Hps as <-. cbn [List.concat]. rewrite map_app, (IH ps' Hps').
    pose proof (positions_from_NoDup c (columns df) 0 H) as L.
    unfold positions in Hp.
    destruct (positions_from 0 c (columns df)) as [|j [|j' js]];
      [ discriminate | | cbn in L; lia ].
    injection Hp as <-. reflexivity.
Qed.

Lemma select_returns (labels : list label) (df : frame) :
  (forall c, In c labels -> has_col c df = true) ->
  exists df', select labels df = Ok df'.
Proof.
  intros H. unfold select.
  match goal with
  | |- context [mapM ?g labels] => assert (M : exists ps, mapM g labels = Ok ps)
  end.
  { induction labels as [|c labels IH]; cbn [mapM]; [ eauto | ].
    destruct IH as (ps & ->); [ intros c' Hc'; apply H; right; exact Hc' | ].
    assert (Hc : has_col c df = true) by (apply H; left; reflexivity).
    unfold positions at 1.
    destruct (positions_from 0 c (columns df)) eqn:E.
    - exfalso. apply (positions_from_some c (columns df) 0 Hc E).
    - cbn [bind]. eauto. }
  destruct M as (ps & ->). cbn. eauto.
Qed.

(** A column under a new label holds the values given. *)
Lemma set_col_new (e : exn) (c : label) (vals : list value) (df : frame) :
  well_formed df -> has_col c df = false ->
  List.length vals = List.length (rows df) ->
  get_col e c (set_col c vals df) = Ok vals.
Proof.
  intros W Hc L. apply get_col_column.
  exists (List.length (columns df)). unfold set_col. rewrite Hc.
  unfold positions, column. cbn [columns rows]. split.
  - rewrite positions_from_app.
    apply has_col_positions in Hc. unfold positions in Hc. rewrite Hc.
    cbn. rewrite String.eqb_refl. reflexivity.
  - rewrite map_map.
    rewrite <- (map_snd_combine (rows df) vals L) at 1.
    apply map_ext_in. intros [r v] H. cbn [fst snd]. unfold cell.
    apply in_combine_l in H. unfold well_formed in W. rewrite Forall_forall in W.
    rewrite <- (W r H). rewrite app_nth2 by lia. rewrite Nat.sub_diag. reflexivity.
Qed.

(** ** Integers that doubles hold exactly *)

Lemma ilog2_int n : 0 < n -> ilog2 n 1 = Z.log2 n.
Proof.
  intros Hn. unfold ilog2. change (Z.log2 1) with 0. rewrite Z.sub_0_r.
  pose proof (Z.log2_nonneg n) as G. pose proof (Z.log2_spec n Hn) as [Lo _].
  destruct (pow2_nonneg (Z.log2 n) G) as [-> ->].
  rewrite Z.mul_1_l, Z.mul_1_r.
  destruct (2 ^ Z.log2 n <=? n)%Z eqn:E; [ reflexivity | ].
  apply Z.leb_gt in E. lia.
Qed.

Lemma rne_int n : rne n 1 = n.
Proof.
  unfold rne. rewrite Z.mod_1_r, Z.div_1_r. reflexivity.
Qed.

(** [int(float(n)) == n] up to [2^53]. *)
Lemma int_of_float_exact n :
  0 <= n < 2 ^ 53 -> int_of_float (round64 n 1) = Ok n.
Proof.
  intros [Lo Hi]. unfold round64.
  destruct (n =? 0)%Z eqn:E0.
  - apply Z.eqb_eq in E0. subst n. reflexivity.
  - apply Z.eqb_neq in E0. assert (Hn : 0 < n) by lia.
    rewrite (ilog2_int n Hn).
    pose proof (Z.log2_nonneg n) as G. pose proof (Z.log2_spec n Hn) as [L U].
    assert (G53 : Z.log2 n < 53).
    { apply Z.log2_lt_pow2; [ exact Hn | exact Hi ]. }
    rewrite (Z.max_l (Z.log2 n - 52) (- 1074)) by lia.
    destruct (pow2_nonpos (Z.log2 n - 52)) as [E1 E2]; [ lia | ].
    cbv zeta. rewrite E1, E2, Z.mul_1_l, rne_int, Z.mul_1_r.
    replace (- (Z.log2 n - 52)) with (52 - Z.log2 n) by lia.
    assert (B : n * 2 ^ (52 - Z.log2 n) < 2 ^ 53).
    { replace (2 ^ 53) with (2 ^ (Z.succ (Z.log2 n)) * 2 ^ (52 - Z.log2 n)).
      - apply Z.mul_lt_mono_pos_r; [ apply Z.pow_pos_nonneg; lia | exact U ].
      - rewrite <- Z.pow_add_r by lia. f_equal. lia. }
    destruct (2 ^ 1024 <=? n * 2 ^ (52 - Z.log2 n))%Z eqn:E.
    + apply Z.leb_le in E.
      assert (2 ^ 53 < 2 ^ 1024) by (apply Z.pow_lt_mono_r; lia). lia.
    + cbn [int_of_float]. rewrite E1, E2, Z.mul_1_r.
      replace (- (Z.log2 n - 52)) with (52 - Z.log2 n) by lia.
      rewrite Z.quot_mul; [ reflexivity | ].
      apply Z.pow_nonzero; lia.
Qed.

(** *** The cells of [df[labels]] *)

Lemma nth_map_default {A B : Type} (f : A -> B) (l : list A) (i : nat)
    (d : B) (d' : A) :
  (i < List.length l)%nat -> nth i (map f l) d = f (nth i l d').
Proof.
  intros H. rewrite (nth_indep _ d (f d')) by (rewrite length_map; exact H).
  apply map_nth.
Qed.

(** The columns picked for distinct labels: one for each label asked. *)
Lemma select_picked (labels : list label) (df : frame) :
  NoDup (columns df) ->
  forall ps,
  mapM (fun c => match positions c df with
                 | [] => Raise KeyError
                 | js => Ok (map (fun j => (c, j)) js)
                 end) labels = Ok ps ->
  List.concat ps = map (fun c => (c, hd 0%nat (positions c df))) labels.
Proof.
  intros N. induction labels as [|c labels IH]; intros ps H; cbn [mapM] in H.
  - injection H as <-. reflexivity.
  - apply bind_Ok in H. destruct H as (p & Hp & H).
    apply bind_Ok in H. destruct H as (ps' & Hps & H). injection H as <-.
    cbn [List.concat map]. rewrite (IH ps' Hps).
    pose proof (positions_from_NoDup c (columns df) 0 N) as L.
    unfold positions in *.
    destruct (positions_from 0 c (columns df)) as [|j [|j' js]];
      [ discriminate | | cbn in L; lia ].
    injection Hp as <-. reflexivity.
Qed.

Lemma select_get_col (e : exn) (labels : list label) (df df' : frame)
    (c : label) (j : nat) :
  NoDup (columns df) -> NoDup labels ->
  select labels df = Ok df' -> In c labels -> positions c df = [j] ->
  get_col e c df' = Ok (column j df).
Proof.
  intros N Nl S Hc Hj. unfold select in S.
  apply bind_Ok in S. destruct S as (ps & Hps & S). injection S as <-.
  rewrite (select_picked labels df N ps Hps).
  set (picked := map (fun c0 => (c0, hd 0%nat (positions c0 df))) labels).
  apply get_col_column.
  assert (Hl : map fst picked = labels).
  { unfold picked. rewrite map_map. cbn [fst]. apply map_id. }
  set (out := Frame (map fst picked) _).
  destruct (positions_once c out) as (i & Hi).
  { unfold out. cbn [columns]. rewrite Hl. exact Nl. }
  { apply has_col_In. unfold out. cbn [columns]. rewrite Hl. exact Hc. }
  exists i. split; [ exact Hi | ].
  assert (R : In i (positions c out)) by (rewrite Hi; left; reflexivity).
  unfold positions, out in R. cbn [columns] in R. rewrite Hl in R.
  apply positions_from_range in R. destruct R as [Ri Rn].
  rewrite Nat.sub_0_r in Rn. cbn in Ri.
  unfold column, out. cbn [rows]. rewrite map_map.
  apply map_ext. intros r. unfold cell.
  assert (Li : (i < List.length picked)%nat)
    by (unfold picked; rewrite length_map; lia).
  rewrite (nth_map_default (fun cj : label * nat => nth (snd cj) r (Scalar SNone))
             picked i (Scalar SNone) (c, j) Li).
  unfold picked.
  rewrite (nth_map_default (fun c0 => (c0, hd 0%nat (positions c0 df)))
             labels i (c, j) c) by lia.
  cbn [snd].
  rewrite (nth_error_nth _ _ c Rn). rewrite Hj. reflexivity.
Qed.

(** A list comprehension raises as soon as one of its elements does. *)
Lemma mapM_raises {A B : Type} (f : A -> result B) (l : list A) (a : A) (e : exn) :
  In a l -> f a = Raise e -> exists e', mapM f l = Raise e'.
Proof.
  induction l as [|x l IH]; intros Hin Ha; [ contradiction Hin | ].
  cbn [mapM]. destruct (f x) as [b|e0] eqn:Ex; [ | exists e0; reflexivity ].
  destruct Hin as [-> | Hin]; [ congruence | ].
  destruct (IH Hin Ha) as (e' & ->). exists e'. reflexivity.
Qed.

(** A column that was read is there. *)
Lemma position_has_col (e : exn) (c : label) (df : frame) (j : nat) :
  position e c df = Ok j -> has_col c df = true.
Proof.
  unfold position. intros H. destruct (has_col c df) eqn:E; [ reflexivity | ].
  apply has_col_positions in E. rewrite E in H. discriminate H.
Qed.

Lemma get_col_has_col (e : exn) (c : label) (df : frame) (vals : list value) :
  get_col e c df = Ok vals -> has_col c df = true.
Proof.
  unfold get_col. intros H. apply bind_Ok in H. destruct H as (j & H & _).
  exact (position_has_col e c df j H).
Qed.

Lemma select_has_col (labels : list label) (df df' : frame) (c : label) :
  select labels df = Ok df' -> In c labels -> has_col c df = true.
Proof.
  unfold select. intros H Hc. apply bind_Ok in H. destruct H as (ps & H & _).
  revert ps H. induction labels as [|l labels IH]; intros ps H; [ contradiction Hc | ].
  cbn [mapM] in H. apply bind_Ok in H. destruct H as (p & Hp & H).
  apply bind_Ok in H. destruct H as (ps' & Hps & _).
  destruct Hc as [-> | Hc]; [ | exact (IH Hc ps' Hps) ].
  destruct (has_col c df) eqn:E; [ reflexivity | ].
  apply has_col_positions in E. rewrite E in Hp. discriminate Hp.
Qed.

Lemma has_col_drop_cols (c : label) (labels : list label) (df : frame) :
  has_col c (drop_cols labels df) = true -> has_col c df = true.
Proof.
  rewrite !has_col_In, columns_drop_cols. intros H. apply filter_In in H. apply H.
Qed.

Lemma select_well_formed (labels : list label) (df df' : frame) :
  select labels df = Ok df' -> well_formed df'.
Proof.
  unfold select. intros S. apply bind_Ok in S. destruct S as (ps & _ & S).
  injection S as <-. unfold well_formed. cbn [rows columns].
  apply Forall_forall. intros r Hr. apply in_map_iff in Hr.
  destruct Hr as (r0 & <- & _). rewrite !length_map. reflexivity.
Qed.

End PyFacts.

(** * Properties of [transform_tiki.py] *)

Module TikiFacts.

Import Py Tiki PyFacts Samples.
Local Open Scope Z_scope.
Local Open Scope string_scope.

(** ** The price cleaner *)

(** Numbers go through [np.isnan] and [int]: a finite float is truncated
    toward zero, whatever its size. *)
Lemma clean_price_float (m e : Z) :
  clean_price (SFloat (FFin m e)) = Ok (Some (Z.quot (m * pow2 e) (pow2 (- e)))).
Proof. reflexivity. Qed.

Lemma clean_price_int (z : Z) :
  - 2 ^ 63 <= z < 2 ^ 64 -> clean_price (SInt z) = Ok (Some z).
Proof.
  intros [Hlo Hhi]. unfold clean_price. cbn [isna_or_None pd_isna truth bind
    scalar_isna is_None orb is_number scalar_of np_isnan].
  apply Z.leb_le in Hlo. apply Z.ltb_lt in Hhi.
  rewrite Hlo, Hhi. reflexivity.
Qed.

(** C5. The price cleaner returns 1000000 on "1.000.000 VND" (the
    thousands separators stripped, the currency suffix tolerated), null
    on null, and the truncated integer 3520000 on the float 3520000.0; a
    NaN gives null, and every finite float its truncation toward zero. *)
Theorem clean_price_examples :
  clean_price (SStr "1.000.000 VND") = Ok (Some 1000000)
  /\ clean_price SNone = Ok None
  /\ clean_price (SFloat (FFin 3520000 0)) = Ok (Some 3520000)
  /\ clean_price NaN = Ok None
  /\ (forall m e : Z,
        clean_price (SFloat (FFin m e))
        = Ok (Some (Z.quot (m * pow2 e) (pow2 (- e))))).
Proof.
  split; [ vm_compute; reflexivity | ].
  split; [ reflexivity | ].
  split; [ vm_compute; reflexivity | ].
  split; [ reflexivity | ].
  exact clean_price_float.
Qed.

(** ** The feature flag *)

(** [has_tiki_now] swallows every exception. *)
Lemma has_tiki_now_null : has_tiki_now SNone = false /\ has_tiki_now NaN = false.
Proof. split; reflexivity. Qed.

(** A list of two or more badges never reaches the membership test: the
    truth value of [pd.isna(badges)] raises, and the handler answers
    [False]. *)
Lemma has_tiki_now_long_list (a b : scalar) (l : list scalar) :
  has_tiki_now (VList (a :: b :: l)) = false.
Proof. reflexivity. Qed.

(** On a raw string the test is a case-insensitive search. *)
Lemma has_tiki_now_string (s : string) :
  has_tiki_now (SStr s) = contains (txt "tiki_now") (lower (txt s)).
Proof. reflexivity. Qed.

(** On a list of one badge the test is equality with the tag. *)
Lemma has_tiki_now_singleton (s : string) :
  has_tiki_now (VList [SStr s]) = String.eqb s "tiki_now".
Proof.
  unfold has_tiki_now. cbn. rewrite orb_false_r. reflexivity.
Qed.

(** C6, at the failing input: the badge array [['tiki_now',
    'freeship_xtra']] holds the tag, and the flag computed is false. *)
Theorem has_tiki_now_two_badges :
  has_tiki_now (VList [SStr "tiki_now"; SStr "freeship_xtra"]) = false
  /\ In (SStr "tiki_now") [SStr "tiki_now"; SStr "freeship_xtra"].
Proof.
  split; [ apply has_tiki_now_long_list | left; reflexivity ].
Qed.

(** ** The value parsers return *)



















(** ** Sales volumes with a suffix *)

(** The examples of the docstring and of the tests. *)
Lemma parse_sales_volume_examples :
  parse_sales_volume (SStr "1.5k") = Ok 1500
  /\ parse_sales_volume (SStr "2,5k") = Ok 2500
  /\ parse_sales_volume (SStr "1tr") = Ok 1000000
  /\ parse_sales_volume (SStr "Đã bán 1.5k") = Ok 1500
  /\ parse_sales_volume (SStr "Đã bán 2tr") = Ok 2000000
  /\ parse_sales_volume (SStr "Đã bán 1,5k") = Ok 1500
  /\ parse_sales_volume SNone = Ok 0
  /\ parse_sales_volume NaN = Ok 0.
Proof. vm_compute. repeat split; reflexivity. Qed.

(** The double nearest to 32.3 is below it, and so is its product with
    1000, 32299.999999999996. *)
Lemma product_below_32300 :
  float_of_decimal (txt "32.3") = Ok (FFin 4545820873877094 (-47))
  /\ fmul (FFin 4545820873877094 (-47)) (float_of_int 1000)
     = FFin 8878556394291199 (-38)
  /\ 8878556394291199 < 32300 * 2 ^ 38.
Proof. vm_compute. repeat split; reflexivity. Qed.

(** C4. On ["32.3k"] the parser returns 32299, where 32.3 times 1000 is
    32300: the product is computed on doubles and [int] truncates it. *)
Theorem parse_sales_volume_truncates :
  parse_sales_volume (SStr "32.3k") = Ok 32299
  /\ parse_sales_volume (SStr "Đã bán 32.3k") = Ok 32299
  /\ 323 * multipliers (txt "k") = 32300 * 10.
Proof. vm_compute. repeat split; reflexivity. Qed.

(** ** The schema of the product dimension *)

(** C1. A raw batch whose records carry both [thumbnail_url] and
    [image_url], whatever [datetime.fromisoformat] and [pd.to_datetime]
    answer on its timestamp: the renaming gives two columns the label
    [image_url], the selection by [DIM_PRODUCTS_SCHEMA] returns both,
    and the product dimension has 15 columns, [image_url] twice, where
    the schema has 14.  The fact table, whose schema has none of the
    renamed labels, has its schema. *)
Theorem dim_repeats_renamed_column (d : option (Z * Z * Z)) (t : option Z) :
  exists fact_df dim_df cat_df,
    transform_data (answering d t) (DataFrame [two_names_record])
    = Ok (fact_df, dim_df, cat_df)
    /\ columns fact_df = FACT_SCHEMA
    /\ columns dim_df
       = [ "product_id"; "sku"; "name"; "brand_name"; "image_url"; "image_url";
           "product_url"; "seller_id"; "seller_name"; "seller_logo";
           "category_id"; "root_category_id"; "category_depth"; "created_at";
           "updated_at" ]
    /\ has_duplicate_columns dim_df = true
    /\ List.length DIM_PRODUCTS_SCHEMA = 14%nat.
Proof.
  destruct d as [[[y m] dd]|], t as [ns|]; do 3 eexists;
    (split; [ vm_compute; reflexivity | repeat split; reflexivity ]).
Qed.

(** The same in a batch that mixes records of the two names. *)
Example dim_repeats_in_mixed_batch :
  exists fact_df dim_df cat_df,
    transform_data blind_library (DataFrame [sample_record; thumbnail_record])
    = Ok (fact_df, dim_df, cat_df)
    /\ List.length (rows dim_df) = 2%nat
    /\ has_duplicate_columns dim_df = true
    /\ has_duplicate_columns fact_df = false
    /\ has_duplicate_columns cat_df = false.
Proof.
  do 3 eexists. split; [ vm_compute; reflexivity | repeat split; reflexivity ].
Qed.

(** ** Deduplication *)

Section Dedup.

Variable key : row -> value.
Variable time : row -> option Z.

(** Latest first, NaT last. *)
Definition latest_first (a b : row) : Prop := desc_le (time a) (time b) = true.

Lemma desc_le_refl a : desc_le a a = true.
Proof. destruct a; cbn; [ apply Z.leb_refl | reflexivity ]. Qed.

Lemma desc_le_trans a b c :
  desc_le a b = true -> desc_le b c = true -> desc_le a c = true.
Proof.
  destruct a, b, c; cbn; try reflexivity; try discriminate.
  intros H1 H2. apply Z.leb_le in H1. apply Z.leb_le in H2.
  apply Z.leb_le. lia.
Qed.

Lemma desc_le_total a b : desc_le a b = false -> desc_le b a = true.
Proof.
  destruct a, b; cbn; try reflexivity; try discriminate.
  intros H. apply Z.leb_gt in H. apply Z.leb_le. lia.
Qed.

Lemma insert_desc_perm r l : Permutation (insert_desc time r l) (r :: l).
Proof.
  induction l as [|x l IH]; cbn; [ reflexivity | ].
  destruct (desc_le (time r) (time x)); [ reflexivity | ].
  rewrite IH. apply perm_swap.
Qed.

Lemma sort_values_desc_perm rs : Permutation (sort_values_desc time rs) rs.
Proof.
  unfold sort_values_desc. induction rs as [|r rs IH]; cbn; [ reflexivity | ].
  rewrite insert_desc_perm. constructor. exact IH.
Qed.

Lemma insert_desc_sorted r l :
  StronglySorted latest_first l -> StronglySorted latest_first (insert_desc time r l).
Proof.
  induction 1 as [|x l Hs IH Hx]; cbn.
  - constructor; constructor.
  - destruct (desc_le (time r) (time x)) eqn:E.
    + constructor; [ constructor; assumption | ].
      constructor; [ exact E | ].
      eapply Forall_impl; [ | exact Hx ].
      intros y Hy. unfold latest_first in *. eapply desc_le_trans; eauto.
    + constructor; [ exact IH | ].
      apply (Permutation_Forall (Permutation_sym (insert_desc_perm r l))).
      constructor; [ | exact Hx ].
      apply desc_le_total. exact E.
Qed.

Lemma sort_values_desc_sorted rs :
  StronglySorted latest_first (sort_values_desc time rs).
Proof.
  unfold sort_values_desc. induction rs as [|r rs IH]; cbn.
  - constructor.
  - apply insert_desc_sorted. exact IH.
Qed.

Definition has_key (p : value) (r : row) : bool := value_eqb (key r) p.

Lemma value_eqb_eq a b : value_eqb a b = true <-> a = b.
Proof.
  unfold value_eqb. destruct (value_eq_dec a b); split; congruence.
Qed.

Lemma value_eqb_sym a b : value_eqb a b = value_eqb b a.
Proof.
  unfold value_eqb. destruct (value_eq_dec a b), (value_eq_dec b a); congruence.
Qed.

(** Of the rows of one key, [drop_duplicates] keeps the first, unless the
    key was seen before. *)
Lemma drop_duplicates_first p l : forall seen,
  filter (has_key p) (drop_duplicates_by key seen l)
  = if existsb (value_eqb p) seen then []
    else match find (has_key p) l with
         | Some r => [r]
         | None => []
         end.
Proof.
  induction l as [|r l IH]; intros seen; cbn [drop_duplicates_by find filter].
  - destruct (existsb _ seen); reflexivity.
  - destruct (existsb (value_eqb (key r)) seen) eqn:Eseen.
    + rewrite IH. destruct (existsb (value_eqb p) seen) eqn:Ep; [ reflexivity | ].
      destruct (has_key p r) eqn:Er; [ | reflexivity ].
      unfold has_key in Er. apply value_eqb_eq in Er. subst p. congruence.
    + cbn [filter]. rewrite IH. cbn [existsb].
      destruct (has_key p r) eqn:Er.
      * unfold has_key in Er. pose proof Er as Er'. apply value_eqb_eq in Er. subst p.
        rewrite Eseen. rewrite Er'. reflexivity.
      * unfold has_key in Er. rewrite value_eqb_sym, Er. cbn [orb].
        reflexivity.
Qed.

(** In a list sorted latest first, the first row of a key is a latest
    one of that key. *)
Lemma find_sorted_latest p l r :
  StronglySorted latest_first l -> find (has_key p) l = Some r ->
  In r l /\ has_key p r = true
  /\ forall r', In r' l -> has_key p r' = true -> latest_first r r'.
Proof.
  induction 1 as [|x l Hs IH Hx]; cbn [find]; [ discriminate | ].
  destruct (has_key p x) eqn:E.
  - intros [= <-]. split; [ left; reflexivity | split; [ exact E | ] ].
    intros r' [<- | Hin] _; [ apply desc_le_refl | ].
    rewrite Forall_forall in Hx. apply Hx. exact Hin.
  - intros H. destruct (IH H) as (Hin & Hk & Hl).
    split; [ right; exact Hin | split; [ exact Hk | ] ].
    intros r' [<- | Hin'] Hk'; [ congruence | apply Hl; assumption ].
Qed.

(** Whatever order the sort leaves ties in: of a list that is sorted
    latest first, the rows [drop_duplicates] keeps for a key are one row,
    a latest one of that key. *)
Lemma drop_duplicates_sorted p l r0 :
  StronglySorted latest_first l -> In r0 l -> key r0 = p ->
  exists r, filter (has_key p) (drop_duplicates_by key [] l) = [r]
            /\ In r l /\ key r = p
            /\ forall r', In r' l -> key r' = p -> latest_first r r'.
Proof.
  intros Hs Hin Hk. rewrite drop_duplicates_first. cbn [existsb].
  destruct (find (has_key p) l) as [r|] eqn:E.
  - destruct (find_sorted_latest p l r Hs E) as (H1 & H2 & H3).
    exists r. split; [ reflexivity | split; [ exact H1 | split ] ].
    + apply value_eqb_eq. exact H2.
    + intros r' Hr' Hk'. apply H3; [ exact Hr' | ].
      apply value_eqb_eq. exact Hk'.
  - exfalso. apply (find_none _ _ E) in Hin.
    unfold has_key in Hin. rewrite <- Hk in Hin.
    assert (value_eqb (key r0) (key r0) = true) by (apply value_eqb_eq; reflexivity).
    congruence.
Qed.

End Dedup.

(** C2. In a batch where two rows [r1] and [r2] are the rows of one
    product id, observed at [t1 < t2], the deduplicated rows hold exactly
    one row of that product id, and it is [r2], the later row, whole. *)
Theorem dedup_keeps_latest (df : frame) (at_extracted at_product : nat)
    (r1 r2 : row) (p : value) (t1 t2 : Z) :
  position ValueError "extracted_at" df = Ok at_extracted ->
  position KeyError "product_id" df = Ok at_product ->
  In r1 (rows df) -> In r2 (rows df) ->
  cell r1 at_product = p -> cell r2 at_product = p ->
  (forall r, In r (rows df) -> cell r at_product = p -> r = r1 \/ r = r2) ->
  instant (cell r1 at_extracted) = Some t1 ->
  instant (cell r2 at_extracted) = Some t2 ->
  t1 < t2 ->
  exists df',
    deduplicate df = Ok df'
    /\ columns df' = columns df
    /\ filter (fun r => value_eqb (cell r at_product) p) (rows df') = [r2].
Proof.
  intros He Hp Hin1 Hin2 Hk1 Hk2 Hall Ht1 Ht2 Hlt.
  unfold deduplicate. rewrite He, Hp. cbn [bind].
  eexists. split; [ reflexivity | split; [ reflexivity | ] ].
  cbn [rows]. unfold dedup_rows.
  set (key := fun r : row => cell r at_product).
  set (time := fun r : row => instant (cell r at_extracted)).
  pose proof (sort_values_desc_perm time (rows df)) as Hperm.
  pose proof (sort_values_desc_sorted time (rows df)) as Hsorted.
  destruct (drop_duplicates_sorted key time p _ r2 Hsorted) as (r & Hf & Hr & Hkr & Hlatest).
  - apply (Permutation_in _ (Permutation_sym Hperm)). exact Hin2.
  - exact Hk2.
  - change (fun r0 : row => value_eqb (cell r0 at_product) p) with (has_key key p).
    rewrite Hf. f_equal.
    apply (Permutation_in _ Hperm) in Hr.
    destruct (Hall r Hr Hkr) as [-> | ->]; [ | reflexivity ].
    exfalso.
    assert (Hl : latest_first time r1 r2).
    { apply Hlatest; [ | exact Hk2 ].
      apply (Permutation_in _ (Permutation_sym Hperm)). exact Hin2. }
    unfold latest_first, time in Hl. rewrite Ht1, Ht2 in Hl. cbn in Hl.
    apply Z.leb_le in Hl. lia.
Qed.

Lemma dedup_keeps_latest_witness :
  exists df',
    deduplicate observed_twice = Ok df'
    /\ columns df' = columns observed_twice
    /\ filter (fun r => value_eqb (cell r 0) (Scalar (SInt 1))) (rows df')
       = [late_row].
Proof.
  apply (dedup_keeps_latest observed_twice 1 0 early_row late_row
           (Scalar (SInt 1)) 100 200).
  - reflexivity.
  - reflexivity.
  - left. reflexivity.
  - right. right. left. reflexivity.
  - reflexivity.
  - reflexivity.
  - intros r [<- | [<- | [<- | []]]] H.
    + left. reflexivity.
    + discriminate H.
    + right. reflexivity.
  - reflexivity.
  - reflexivity.
  - lia.
Defined.

(** ** The entry point *)

(** Reading the raw zone writes nothing. *)
Lemma load_raw_data_reads (execution_date : string) (w : gcs) :
  snd (load_raw_data execution_date w) = w.
Proof. reflexivity. Qed.

(** C9. When the credentials are found, the raw files of the date load
    and the transformation returns an empty fact table, the run raises
    [ValueError] to its caller and the bucket is as it was: the error
    comes before [save_to_clean_zone]. *)
Theorem empty_fact_aborts (L : library) (execution_date : string) (w : gcs)
    (raw_df fact_df dim_df cat_df : frame) :
  credentials_found w = true ->
  fst (load_raw_data execution_date w) = Ok raw_df ->
  transform_data L raw_df = Ok (fact_df, dim_df, cat_df) ->
  frame_empty fact_df = true ->
  run_transformation L execution_date w = (Raise ValueError, w).
Proof.
  intros Hcred Hload Htrans Hempty.
  unfold run_transformation, io_bind, get_gcs_client, io_read.
  rewrite Hcred.
  pose proof (load_raw_data_reads execution_date w) as Hw.
  destruct (load_raw_data execution_date w) as [r w'].
  cbn [fst snd] in Hload, Hw. subst r w'.
  unfold io_lift. rewrite Htrans. rewrite Hempty. reflexivity.
Qed.

Lemma empty_fact_aborts_witness :
  run_transformation blind_library "2026-01-18" (sample_bucket priceless_record)
  = (Raise ValueError, sample_bucket priceless_record).
Proof.
  eapply (empty_fact_aborts blind_library "2026-01-18"
            (sample_bucket priceless_record)).
  - reflexivity.
  - reflexivity.
  - vm_compute. reflexivity.
  - reflexivity.
Defined.

(** The same batch with its price is written: three tables. *)
Example run_transformation_writes :
  List.length (bucket (snd (run_transformation blind_library "2026-01-18"
                              (sample_bucket sample_record)))) = 4%nat.
Proof. vm_compute. reflexivity. Qed.

(** ** Category resolution *)

(** A value the record carries: for the depth a value that is not 0,
    for the two ids a value that is not null. *)
Definition present (c : label) (v : value) : bool :=
  if c =? "category_depth" then negb (is_zero v) else negb (cell_isna v).

Definition category_fields : list label :=
  [ "category_id"; "root_category_id"; "category_depth" ].

Section Resolution.

Variable c : label.
Variable P : value -> bool.

(** One field filled from the parsed path: written whole when the
    column is absent or empty, filled where empty otherwise. *)
Lemma fill_block_keeps c' (empty : value -> bool) (new : list value) (df df' : frame) :
  well_formed df -> List.length new = List.length (rows df) ->
  (c' = c -> forall v, P v = true -> empty v = false) ->
  (if negb (has_col c' df) then Ok (set_col c' new df)
   else
     old <- get_col ValueError c' df ;;
     if forallb empty old then Ok (set_col c' new df)
     else Ok (set_col c'
                (map (fun on => if empty (fst on) then snd on else fst on)
                     (combine old new)) df)) = Ok df' ->
  keeps c P df df'.
Proof.
  intros W L E H. destruct (has_col c' df) eqn:Hc; cbn [negb] in H.
  - apply bind_Ok in H. destruct H as (old & Ho & H).
    pose proof (get_col_length _ _ _ _ Ho) as Lo.
    apply get_col_column in Ho. destruct Ho as (j0 & Pj & ->).
    destruct (forallb empty (column j0 df)) eqn:A; injection H as <-.
    + apply set_col_keeps; [ exact W | exact L | ].
      intros -> j Hj. rewrite Pj in Hj. injection Hj as <-.
      split; [ congruence | ].
      intros i v Hi Hv. exfalso.
      apply nth_error_In in Hi. rewrite forallb_forall in A.
      specialize (E eq_refl v Hv). rewrite (A v Hi) in E. discriminate.
    + apply set_col_keeps; [ exact W | | ].
      * rewrite length_map, length_combine. lia.
      * intros -> j Hj. rewrite Pj in Hj. injection Hj as <-.
        apply fill_kept; [ apply E; reflexivity | congruence ].
  - injection H as <-. apply set_col_keeps; [ exact W | exact L | ].
    intros -> j Hj. apply has_col_positions in Hc. congruence.
Qed.

Hypothesis c_field : In c category_fields.
Hypothesis P_id : c = "category_id" -> forall v, P v = true -> cell_isna v = false.
Hypothesis P_root :
  c = "root_category_id" -> forall v, P v = true -> cell_isna v = false.
Hypothesis P_depth :
  c = "category_depth" -> forall v, P v = true -> is_zero v = false.

Lemma not_parsed_path : existsb (String.eqb c) ["_parsed_path"] = false.
Proof.
  destruct c_field as [<- | [<- | [<- | []]]]; reflexivity.
Qed.

(** The part that reads [category_path]. *)
Lemma from_path_keeps (df df' : frame) :
  well_formed df ->
  (if has_col "category_path" df then
     category_path <- get_col ValueError "category_path" df ;;
     let parsed := map parse_category_path category_path in
     let df := set_col "_parsed_path"
                 (map (fun ids => VList (map SInt ids)) parsed) df in
     let leaves := map (fun ids => Scalar (get_leaf_id ids)) parsed in
     let roots := map (fun ids => Scalar (get_root_id ids)) parsed in
     let depths := map (fun ids => Scalar (get_depth ids)) parsed in
     df <-
       (if negb (has_col "category_id" df) then Ok (set_col "category_id" leaves df)
        else
          old <- get_col ValueError "category_id" df ;;
          if forallb cell_isna old then Ok (set_col "category_id" leaves df)
          else Ok (set_col "category_id" (fillna old leaves) df)) ;;
     df <-
       (if negb (has_col "root_category_id" df)
        then Ok (set_col "root_category_id" roots df)
        else
          old <- get_col ValueError "root_category_id" df ;;
          if forallb cell_isna old then Ok (set_col "root_category_id" roots df)
          else Ok (set_col "root_category_id" (fillna old roots) df)) ;;
     df <-
       (if negb (has_col "category_depth" df)
        then Ok (set_col "category_depth" depths df)
        else
          old <- get_col ValueError "category_depth" df ;;
          if forallb is_zero old then Ok (set_col "category_depth" depths df)
          else Ok (set_col "category_depth" (fill_zero old depths) df)) ;;
     Ok (drop_cols ["_parsed_path"] df)
   else Ok df) = Ok df' ->
  keeps c P df df'.
Proof.
  intros W H. destruct (has_col "category_path" df).
  2:{ injection H as <-. apply keeps_refl. exact W. }
  apply bind_Ok in H. destruct H as (path & Hp & H).
  apply get_col_length in Hp. cbv zeta in H.
  set (parsed := map parse_category_path path) in H.
  assert (Lp : List.length parsed = List.length (rows df))
    by (unfold parsed; rewrite length_map; exact Hp).
  set (df0 := set_col "_parsed_path" (map (fun ids => VList (map SInt ids)) parsed) df) in H.
  assert (K0 : keeps c P df df0).
  { apply set_col_keeps; [ exact W | rewrite length_map; exact Lp | ].
    intros <-. destruct c_field as [X | [X | [X | []]]]; discriminate X. }
  apply bind_Ok in H. destruct H as (df1 & H1 & H).
  apply bind_Ok in H. destruct H as (df2 & H2 & H).
  apply bind_Ok in H. destruct H as (df3 & H3 & H).
  injection H as <-.
  assert (K1 : keeps c P df0 df1).
  { destruct K0 as (W0 & R0 & _).
    eapply fill_block_keeps with (empty := cell_isna); [ exact W0 | | | exact H1 ].
    - rewrite length_map. congruence.
    - intros E. apply P_id. symmetry. exact E. }
  assert (K2 : keeps c P df1 df2).
  { destruct K0 as (_ & R0 & _), K1 as (W1 & R1 & _).
    eapply fill_block_keeps with (empty := cell_isna); [ exact W1 | | | exact H2 ].
    - rewrite length_map. congruence.
    - intros E. apply P_root. symmetry. exact E. }
  assert (K3 : keeps c P df2 df3).
  { destruct K0 as (_ & R0 & _), K1 as (_ & R1 & _), K2 as (W2 & R2 & _).
    eapply fill_block_keeps with (empty := is_zero); [ exact W2 | | | exact H3 ].
    - rewrite length_map. congruence.
    - intros E. apply P_depth. symmetry. exact E. }
  eapply keeps_trans; [ exact K0 | ].
  eapply keeps_trans; [ exact K1 | ].
  eapply keeps_trans; [ exact K2 | ].
  eapply keeps_trans; [ exact K3 | ].
  apply drop_cols_keeps; [ destruct K3 as (W3 & _); exact W3 | apply not_parsed_path ].
Qed.

(** The fallback that reads the id in [_category_url]. *)
Lemma from_url_keeps (df df' : frame) :
  well_formed df ->
  (if negb (has_col "category_id" df) then
     url <- get_col ValueError "_category_url" df ;;
     ids <- mapM extract_category_id url ;;
     Ok (set_col "category_id" (map (fun z => Scalar (option_cell z)) ids) df)
   else
     old <- get_col ValueError "category_id" df ;;
     if existsb cell_isna old then
       url <- get_col ValueError "_category_url" df ;;
       url_ids <- mapM extract_category_id url ;;
       Ok (set_col "category_id"
             (fillna old (map (fun z => Scalar (option_cell z)) url_ids)) df)
     else Ok df) = Ok df' ->
  keeps c P df df'.
Proof.
  intros W H. destruct (has_col "category_id" df) eqn:Hc; cbn [negb] in H.
  - apply bind_Ok in H. destruct H as (old & Ho & H).
    pose proof (get_col_length _ _ _ _ Ho) as Lo.
    apply get_col_column in Ho. destruct Ho as (j0 & Pj & ->).
    destruct (existsb cell_isna (column j0 df)).
    2:{ injection H as <-. apply keeps_refl. exact W. }
    apply bind_Ok in H. destruct H as (url & Hu & H).
    apply bind_Ok in H. destruct H as (ids & Hi & H).
    injection H as <-.
    apply get_col_length in Hu. apply mapM_length in Hi.
    apply set_col_keeps; [ exact W | | ].
    + unfold fillna. rewrite length_map, length_combine, length_map. lia.
    + intros E j Hj. rewrite <- E in Hj. rewrite Pj in Hj. injection Hj as <-.
      apply fill_kept; [ apply P_id; symmetry; exact E | ].
      rewrite length_map. congruence.
  - apply bind_Ok in H. destruct H as (url & Hu & H).
    apply bind_Ok in H. destruct H as (ids & Hi & H).
    injection H as <-.
    apply get_col_length in Hu. apply mapM_length in Hi.
    apply set_col_keeps; [ exact W | rewrite length_map; congruence | ].
    intros E j Hj. apply has_col_positions in Hc. rewrite <- E in Hj. congruence.
Qed.

Lemma resolve_categories_keeps (df df' : frame) :
  well_formed df -> resolve_categories df = Ok df' -> keeps c P df df'.
Proof.
  intros W H. unfold resolve_categories in H.
  apply bind_Ok in H. destruct H as (df1 & H1 & H2).
  pose proof (from_path_keeps df df1 W H1) as K1.
  eapply keeps_trans; [ exact K1 | ].
  apply from_url_keeps; [ destruct K1 as (W1 & _); exact W1 | exact H2 ].
Qed.

End Resolution.

(** C8. Of the columns [category_id], [root_category_id] and
    [category_depth] that the frame has before the category resolution,
    every cell that is present (not null; not 0, for a depth) is in the
    same row of the same column after it: the values read in the path
    or in the URL go to the other cells only. *)
Theorem resolve_categories_keeps_present (df df' : frame) (c : label)
    (old : list value) :
  well_formed df ->
  In c category_fields ->
  resolve_categories df = Ok df' ->
  get_col ValueError c df = Ok old ->
  exists new,
    get_col ValueError c df' = Ok new
    /\ List.length new = List.length old
    /\ forall i v, nth_error old i = Some v -> present c v = true ->
                   nth_error new i = Some v.
Proof.
  intros W Hc H Ho.
  assert (K : keeps c (present c) df df').
  { apply resolve_categories_keeps; try assumption.
    - intros -> v Hv. cbn in Hv. apply negb_true_iff in Hv. exact Hv.
    - intros -> v Hv. cbn in Hv. apply negb_true_iff in Hv. exact Hv.
    - intros -> v Hv. cbn in Hv. apply negb_true_iff in Hv. exact Hv. }
  apply get_col_column in Ho. destruct Ho as (j & Pj & ->).
  destruct K as (_ & _ & K). destruct (K j Pj) as (j' & Pj' & L & Q).
  exists (column j' df'). split; [ | split; [ exact L | exact Q ] ].
  apply get_col_column. eauto.
Qed.

Lemma resolve_categories_keeps_present_witness :
  exists df',
    resolve_categories half_resolved = Ok df'
    /\ exists new,
         get_col ValueError "category_id" df' = Ok new
         /\ List.length new = 2%nat
         /\ forall i v,
              nth_error [Scalar (SInt 8095); Scalar SNone] i = Some v ->
              present "category_id" v = true -> nth_error new i = Some v.
Proof.
  eexists. split; [ vm_compute; reflexivity | ].
  apply (resolve_categories_keeps_present half_resolved _ "category_id"
           [Scalar (SInt 8095); Scalar SNone]).
  - repeat constructor.
  - left. reflexivity.
  - vm_compute. reflexivity.
  - reflexivity.
Defined.

(** The absent id and the zero depth are filled from the path, the
    present ones stay. *)
Example resolve_categories_fills :
  (df' <- resolve_categories half_resolved ;;
   ids <- get_col ValueError "category_id" df' ;;
   depths <- get_col ValueError "category_depth" df' ;;
   roots <- get_col ValueError "root_category_id" df' ;;
   Ok (ids, depths, roots))
  = Ok ([Scalar (SInt 8095); Scalar (SInt 1795)],
        [Scalar (SInt 2); Scalar (SInt 2)],
        [Scalar (SInt 1789); Scalar (SInt 1789)]).
Proof. vm_compute. reflexivity. Qed.

(** ** What the parser computes for a number with a suffix *)

Local Open Scope list_scope.

(** The fraction of a number: nothing, or a separator and its digits. *)
Definition fraction (sep : option ascii) (frac : text) : text :=
  match sep with
  | Some c => c :: frac
  | None => []
  end.

(** The suffixes as the pattern reads them: of [trieu] and [triệu] the
    alternation takes [tr], which comes first. *)
Definition suffixes : list text := [ txt "k"; txt "tr"; txt "m" ].

Definition suffix_alternatives : regex :=
  Alt (Lit "k") (Alt (Lit "tr") (Alt (Lit "m") (Alt (Lit "trieu") (Lit "triệu")))).

Lemma suffix_alternatives_match (R : Type) (total : nat) (suf post : text)
    (caps : captures) (k : cont R) (x : R) :
  In suf suffixes -> k post caps = Some x ->
  rmatch total suffix_alternatives (suf ++ post) caps k = Some x.
Proof.
  intros [<- | [<- | [<- | []]]] H; cbn; rewrite H; reflexivity.
Qed.

Lemma suffix_not_space suf post : In suf suffixes -> stops is_space (suf ++ post).
Proof. intros [<- | [<- | [<- | []]]]; reflexivity. Qed.

Lemma suffix_not_digit suf post : In suf suffixes -> stops is_digit (suf ++ post).
Proof. intros [<- | [<- | [<- | []]]]; reflexivity. Qed.

Lemma suffix_not_separator suf post :
  In suf suffixes -> stops dot_or_comma (suf ++ post).
Proof. intros [<- | [<- | [<- | []]]]; reflexivity. Qed.

Lemma separator_cases c : dot_or_comma c = true -> c = "."%char \/ c = ","%char.
Proof.
  unfold dot_or_comma. intros H. apply orb_true_iff in H.
  destruct H as [H | H]; apply Ascii.eqb_eq in H; auto.
Qed.

Lemma space_cases c :
  is_space c = true -> is_digit c = false /\ dot_or_comma c = false.
Proof.
  destruct c as [[] [] [] [] [] [] [] []]; cbn; intros H;
    try discriminate H; split; reflexivity.
Qed.

(** After the blanks, no digit and no separator. *)
Lemma blanks_stop (p : ascii -> bool) ws suf post :
  (forall c, is_space c = true -> p c = false) ->
  stops p (suf ++ post) -> forallb is_space ws = true ->
  stops p (ws ++ suf ++ post).
Proof.
  intros Hp Hs Hw. destruct ws as [|c ws]; [ exact Hs | ].
  cbn in Hw. apply andb_true_iff in Hw. cbn. apply Hp. apply Hw.
Qed.

(** A number well written: digits, then nothing or a separator and
    digits. *)
Definition well_written (whole : text) (sep : option ascii) (frac : text) : Prop :=
  whole <> [] /\ forallb is_digit whole = true /\ forallb is_digit frac = true
  /\ match sep with
     | Some c => dot_or_comma c = true /\ frac <> []
     | None => frac = []
     end.

Lemma number_match (R : Type) (total : nat) (whole frac rest : text)
    (sep : option ascii) (caps : captures) (k : cont R) (x : R) :
  well_written whole sep frac ->
  stops is_digit rest -> stops dot_or_comma rest ->
  k rest caps = Some x ->
  rmatch total (Seq (Plus digit) (Opt (Seq (Chr dot_or_comma) (Plus digit))))
    (whole ++ fraction sep frac ++ rest) caps k = Some x.
Proof.
  intros (Hne & Hw & Hf & Hsep) Hd Hs Hk.
  cbn [rmatch]. unfold digit. apply plus_chr_greedy; try assumption.
  - destruct sep as [c|]; cbn [fraction app]; [ | exact Hd ].
    destruct Hsep as [Hc _]. cbn.
    destruct (separator_cases c Hc) as [-> | ->]; reflexivity.
  - unfold Opt. destruct sep as [c|]; cbn [fraction app].
    + destruct Hsep as [Hc Hfne].
      change (rmatch total (Alt (Seq (Chr dot_or_comma) (Plus (Chr is_digit))) Eps)
                (c :: frac ++ rest) caps k)
        with (match rmatch total (Chr dot_or_comma) (c :: frac ++ rest) caps
                      (fun s' caps' => rmatch total (Plus (Chr is_digit)) s' caps' k)
              with
              | Some y => Some y
              | None => k (c :: frac ++ rest) caps
              end).
      rewrite rmatch_chr_cons, Hc.
      rewrite (plus_chr_greedy R total is_digit k frac rest caps x Hfne Hf Hd Hk).
      reflexivity.
    + change (rmatch total (Alt (Seq (Chr dot_or_comma) (Plus (Chr is_digit))) Eps)
                rest caps k)
        with (match rmatch total (Chr dot_or_comma) rest caps
                      (fun s' caps' => rmatch total (Plus (Chr is_digit)) s' caps' k)
              with
              | Some y => Some y
              | None => k rest caps
              end).
      destruct rest as [|c rest]; [ exact Hk | ].
      cbn in Hs. rewrite rmatch_chr_cons, Hs. exact Hk.
Qed.

Lemma suffix_tail_match (total : nat) (ws suf post : text) (caps : captures) :
  forallb is_space ws = true -> In suf suffixes ->
  rmatch total (Star space) (ws ++ suf ++ post) caps
    (fun s1 c1 =>
       rmatch total suffix_alternatives s1 c1
         (fun s2 c2 =>
            accept s2 ((2%nat, firstn (List.length s1 - List.length s2) s1) :: c2)))
  = Some ((2%nat, suf) :: caps).
Proof.
  intros Hws Hsuf. unfold space.
  apply star_chr_greedy; [ exact Hws | apply suffix_not_space; exact Hsuf | ].
  apply suffix_alternatives_match; [ exact Hsuf | ].
  unfold accept. rewrite firstn_app_length. reflexivity.
Qed.

(** The pattern matches where the number starts, and captures the
    number and the suffix. *)
Lemma suffix_pattern_match (total : nat) (whole frac ws suf post : text)
    (sep : option ascii) :
  well_written whole sep frac -> forallb is_space ws = true -> In suf suffixes ->
  rmatch total suffix_pattern (whole ++ fraction sep frac ++ ws ++ suf ++ post)
    [] accept
  = Some [(2%nat, suf); (1%nat, whole ++ fraction sep frac)].
Proof.
  intros Hn Hws Hsuf. unfold suffix_pattern. fold suffix_alternatives.
  set (s := whole ++ fraction sep frac ++ ws ++ suf ++ post).
  change (rmatch total
            (Seq (Group 1 (Seq (Plus digit) (Opt (Seq (Chr dot_or_comma) (Plus digit)))))
               (Seq (Star space) (Group 2 suffix_alternatives))) s [] accept)
    with (rmatch total (Seq (Plus digit) (Opt (Seq (Chr dot_or_comma) (Plus digit))))
            s []
            (fun s' caps' =>
               rmatch total (Star space) s'
                 ((1%nat, firstn (List.length s - List.length s') s) :: caps')
                 (fun s1 c1 =>
                    rmatch total suffix_alternatives s1 c1
                      (fun s2 c2 =>
                         accept s2
                           ((2%nat, firstn (List.length s1 - List.length s2) s1)
                              :: c2))))).
  unfold s at 1. apply number_match; [ exact Hn | | | ].
  - apply blanks_stop; [ apply space_cases | apply suffix_not_digit; exact Hsuf | exact Hws ].
  - apply blanks_stop; [ apply space_cases | apply suffix_not_separator; exact Hsuf | exact Hws ].
  - replace s with ((whole ++ fraction sep frac) ++ ws ++ suf ++ post)
      by (unfold s; rewrite <- app_assoc; reflexivity).
    rewrite firstn_app_length.
    apply suffix_tail_match; assumption.
Qed.

Lemma search_from_here (total : nat) (r : regex) (s : text) (caps : captures) :
  rmatch total r s [] accept = Some caps -> search_from total r s = Some caps.
Proof. intros H. destruct s; cbn [search_from]; rewrite H; reflexivity. Qed.

Lemma suffix_pattern_needs_digit (total : nat) (c : ascii) (t : text) :
  is_digit c = false -> rmatch total suffix_pattern (c :: t) [] accept = None.
Proof. intros H. cbn. rewrite H. reflexivity. Qed.

(** [float] of the number, the separator read as a dot. *)
Lemma float_of_number (whole frac : text) (sep : option ascii) :
  well_written whole sep frac ->
  float_of_decimal (replace_char "," (txt ".") (whole ++ fraction sep frac))
  = Ok (round64 (decimal (whole ++ frac)) (10 ^ Z.of_nat (List.length frac))).
Proof.
  intros (Hne & Hw & Hf & Hsep).
  assert (Hl : negb (Nat.eqb (List.length (whole ++ frac)) 0) = true).
  { destruct whole; [ congruence | reflexivity ]. }
  assert (Hd : forallb is_digit (whole ++ frac) = true)
    by (rewrite forallb_app, Hw, Hf; reflexivity).
  rewrite replace_char_app, (replace_char_digits ","%char (txt ".") whole eq_refl Hw).
  unfold float_of_decimal. destruct sep as [c|]; cbn [fraction].
  - destruct Hsep as [Hc _].
    assert (E : replace_char "," (txt ".") (c :: frac) = "."%char :: frac).
    { unfold replace_char. cbn [flat_map].
      fold (replace_char "," (txt ".") frac).
      rewrite (replace_char_digits ","%char (txt ".") frac eq_refl Hf).
      destruct (separator_cases c Hc) as [-> | ->]; reflexivity. }
    rewrite E, (split_char_digits_sep "."%char whole frac eq_refl Hw Hf).
    rewrite Hl, Hd. reflexivity.
  - subst frac. cbn [replace_char flat_map]. rewrite !app_nil_r in *.
    rewrite (split_char_digits "."%char whole eq_refl Hw), Hl, Hw. reflexivity.
Qed.

(** X1. In ASCII text, a number with a suffix, after text without
    digits: the parser returns the product of the double nearest to the
    number and the factor of the suffix, rounded to a double and then
    truncated. *)
Theorem parse_sales_volume_suffix (s : string) (pre whole frac ws suf post : text)
    (sep : option ascii) :
  ascii_text (txt s) = true ->
  strip (lower (txt s)) = pre ++ whole ++ fraction sep frac ++ ws ++ suf ++ post ->
  forallb (fun c => negb (is_digit c)) pre = true ->
  well_written whole sep frac ->
  forallb is_space ws = true ->
  In suf suffixes ->
  parse_sales_volume (SStr s)
  = int_of_float
      (fmul (round64 (decimal (whole ++ frac)) (10 ^ Z.of_nat (List.length frac)))
            (float_of_int (multipliers suf))).
Proof.
  intros _ Ht Hpre Hn Hws Hsuf. unfold parse_sales_volume.
  cbn [isna_or_None pd_isna truth bind scalar_isna is_None orb is_number
       py_str str_scalar].
  rewrite Ht. unfold re_search.
  rewrite search_from_skip.
  2:{ intros c t Hc. apply suffix_pattern_needs_digit.
      rewrite forallb_forall in Hpre. apply negb_true_iff. apply Hpre. exact Hc. }
  rewrite (search_from_here _ _ _ _
             (suffix_pattern_match _ whole frac ws suf post sep Hn Hws Hsuf)).
  cbn [group_str group Nat.eqb bind].
  rewrite (float_of_number whole frac sep Hn). reflexivity.
Qed.

Lemma parse_sales_volume_suffix_witness :
  parse_sales_volume (SStr "Da ban 2,5 K")
  = int_of_float (fmul (round64 (decimal (txt "25")) (10 ^ 1))
                       (float_of_int (multipliers (txt "k"))))
  /\ parse_sales_volume (SStr "Da ban 2,5 K") = Ok 2500.
Proof.
  split; [ | reflexivity ].
  apply (parse_sales_volume_suffix "Da ban 2,5 K" (txt "da ban ") (txt "2")
           (txt "5") (txt " ") (txt "k") [] (Some ","%char)).
  - reflexivity.
  - reflexivity.
  - reflexivity.
  - repeat split; discriminate.
  - reflexivity.
  - left. reflexivity.
Defined.

(** ** The discount rate *)

(** What [(\d+)] captures in a search is a run of digits. *)
Lemma simple_pattern_group (t : text) (caps : captures) :
  re_search simple_pattern t = Some caps ->
  exists w, caps = [(1%nat, w)] /\ forallb is_digit w = true /\ w <> [].
Proof.
  intros H. apply search_from_sound in H. destruct H as (s0 & s' & H).
  apply steps_group_plus_chr in H. destruct H as (w & -> & _ & Hw & Hne).
  eauto.
Qed.

(** The pattern [(\d+)] at a run of digits. *)
Lemma simple_pattern_match (total : nat) (ds post : text) :
  ds <> [] -> forallb is_digit ds = true -> stops is_digit post ->
  rmatch total simple_pattern (ds ++ post) [] accept = Some [(1%nat, ds)].
Proof.
  intros Hne Hd Hs. unfold simple_pattern.
  change (rmatch total (Group 1 (Plus digit)) (ds ++ post) [] accept)
    with (rmatch total (Plus (Chr is_digit)) (ds ++ post) []
            (fun s' caps' =>
               accept s' ((1%nat, firstn (List.length (ds ++ post) - List.length s')
                                    (ds ++ post)) :: caps'))).
  apply plus_chr_greedy; try assumption.
  unfold accept. rewrite firstn_app_length. reflexivity.
Qed.

Lemma simple_pattern_needs_digit (total : nat) (c : ascii) (t : text) :
  is_digit c = false -> rmatch total simple_pattern (c :: t) [] accept = None.
Proof. intros H. cbn. rewrite H. reflexivity. Qed.

(** X2. On an ASCII string the discount rate is the first run of
    digits, read as a number: the sign and the percent sign around it
    are passed over.  The run has at most 4300 digits, beyond which
    [int] refuses a string. *)
Theorem parse_discount_rate_first_digits (s : string) (pre ds post : text) :
  ascii_text (txt s) = true ->
  strip (txt s) = pre ++ ds ++ post ->
  forallb (fun c => negb (is_digit c)) pre = true ->
  ds <> [] -> (List.length ds <= 4300)%nat ->
  forallb is_digit ds = true -> stops is_digit post ->
  parse_discount_rate (SStr s) = Ok (decimal ds).
Proof.
  intros _ Ht Hpre Hne _ Hd Hs. unfold parse_discount_rate.
  cbn [isna_or_None pd_isna truth bind scalar_isna is_None orb is_number
       py_str str_scalar].
  rewrite Ht. unfold re_search. rewrite search_from_skip.
  2:{ intros c t Hc. apply simple_pattern_needs_digit.
      rewrite forallb_forall in Hpre. apply negb_true_iff. apply Hpre. exact Hc. }
  rewrite (search_from_here _ _ _ _ (simple_pattern_match _ ds post Hne Hd Hs)).
  cbn [group_str group Nat.eqb bind].
  apply int_of_text_digits; assumption.
Qed.

Lemma parse_discount_rate_first_digits_witness :
  parse_discount_rate (SStr " -41% ") = Ok (decimal (txt "41"))
  /\ decimal (txt "41") = 41.
Proof.
  split; [ | reflexivity ].
  apply (parse_discount_rate_first_digits " -41% " (txt "-") (txt "41") (txt "%")).
  - reflexivity.
  - reflexivity.
  - reflexivity.
  - discriminate.
  - cbn. lia.
  - reflexivity.
  - reflexivity.
Defined.

(** X3. Whatever the value, a discount rate that is returned is not
    negative. *)
Theorem parse_discount_rate_nonneg (v : value) (z : Z) :
  parse_discount_rate v = Ok z -> 0 <= z.
Proof.
  unfold parse_discount_rate. intros H.
  apply bind_Ok in H. destruct H as ([|] & _ & H).
  - injection H as <-. lia.
  - destruct (is_number v).
    + apply bind_Ok in H. destruct H as (z0 & _ & H). injection H as <-.
      apply Z.abs_nonneg.
    + destruct (re_search simple_pattern _) as [m|] eqn:E.
      * apply simple_pattern_group in E. destruct E as (w & -> & Hw & Hne).
        cbn [group_str group Nat.eqb bind] in H.
        rewrite (int_of_text_digits w Hw Hne) in H. injection H as <-.
        apply (decimal_range w Hw).
      * injection H as <-. lia.
Qed.

Lemma parse_discount_rate_nonneg_witness :
  parse_discount_rate (SInt (-25)) = Ok 25 /\ 0 <= 25.
Proof.
  split; [ reflexivity | ].
  apply (parse_discount_rate_nonneg (SInt (-25)) 25). reflexivity.
Defined.

(** ** The category id of a URL *)

(** [/c(\d+)] at a marker: the digits after it are the group. *)
Lemma category_url_pattern_match (total : nat) (ds post : text) :
  ds <> [] -> forallb is_digit ds = true -> stops is_digit post ->
  rmatch total category_url_pattern ("/"%char :: "c"%char :: ds ++ post) [] accept
  = Some [(1%nat, ds)].
Proof.
  intros Hne Hd Hs. unfold category_url_pattern.
  change (rmatch total (Seq (Lit "/c") (Group 1 (Plus digit)))
            ("/"%char :: "c"%char :: ds ++ post) [] accept)
    with (rmatch total (Plus (Chr is_digit)) (ds ++ post) []
            (fun s' caps' =>
               accept s' ((1%nat, firstn (List.length (ds ++ post) - List.length s')
                                    (ds ++ post)) :: caps'))).
  apply plus_chr_greedy; try assumption.
  unfold accept. rewrite firstn_app_length. reflexivity.
Qed.

(** Where the pattern fails on a text, it fails on the text followed by
    a marker. *)
Lemma category_url_pattern_fails (t1 t2 : nat) (s rest : text) :
  s <> [] ->
  rmatch t1 category_url_pattern s [] accept = None ->
  rmatch t2 category_url_pattern (s ++ "/"%char :: "c"%char :: rest) [] accept = None.
Proof.
  intros Hne H. unfold category_url_pattern in *.
  destruct s as [|c1 s]; [ congruence | ].
  change (rmatch t2 (Seq (Lit "/c") (Group 1 (Plus digit)))
            ((c1 :: s) ++ "/"%char :: "c"%char :: rest) [] accept)
    with (if Ascii.eqb "/" c1
          then rmatch t2 (Seq (Char "c") (Group 1 (Plus digit)))
                 (s ++ "/"%char :: "c"%char :: rest) [] accept
          else None).
  change (rmatch t1 (Seq (Lit "/c") (Group 1 (Plus digit))) (c1 :: s) [] accept)
    with (if Ascii.eqb "/" c1
          then rmatch t1 (Seq (Char "c") (Group 1 (Plus digit))) s [] accept
          else None) in H.
  destruct (Ascii.eqb "/" c1); [ | reflexivity ].
  destruct s as [|c2 s]; [ reflexivity | ].
  change (rmatch t2 (Seq (Char "c") (Group 1 (Plus digit)))
            ((c2 :: s) ++ "/"%char :: "c"%char :: rest) [] accept)
    with (if Ascii.eqb "c" c2
          then rmatch t2 (Group 1 (Plus digit))
                 (s ++ "/"%char :: "c"%char :: rest) [] accept
          else None).
  change (rmatch t1 (Seq (Char "c") (Group 1 (Plus digit))) (c2 :: s) [] accept)
    with (if Ascii.eqb "c" c2
          then rmatch t1 (Group 1 (Plus digit)) s [] accept
          else None) in H.
  destruct (Ascii.eqb "c" c2); [ | reflexivity ].
  destruct s as [|c3 s]; [ reflexivity | ].
  destruct (is_digit c3) eqn:E3.
  - exfalso. revert H.
    change (rmatch t1 (Group 1 (Plus digit)) (c3 :: s) [] accept)
      with (if is_digit c3
            then star_loop (rmatch t1 (Chr is_digit))
                   (fun s' caps' =>
                      accept s' ((1%nat, firstn (List.length (c3 :: s) - List.length s')
                                           (c3 :: s)) :: caps'))
                   (List.length s) s []
            else None).
    rewrite E3. apply star_loop_accepts. discriminate.
  - cbn. rewrite E3. reflexivity.
Qed.

(** The search passes over a text that has no marker. *)
Lemma category_url_search_skip (t1 t2 : nat) (rest : text) : forall pre,
  search_from t1 category_url_pattern pre = None ->
  search_from t2 category_url_pattern (pre ++ "/"%char :: "c"%char :: rest)
  = search_from t2 category_url_pattern ("/"%char :: "c"%char :: rest).
Proof.
  induction pre as [|c pre IH]; intros H; [ reflexivity | ].
  cbn [search_from] in H.
  destruct (rmatch t1 category_url_pattern (c :: pre) [] accept) eqn:E;
    [ discriminate | ].
  change ((c :: pre) ++ "/"%char :: "c"%char :: rest)
    with (c :: (pre ++ "/"%char :: "c"%char :: rest)).
  cbn [search_from].
  change (c :: (pre ++ "/"%char :: "c"%char :: rest))
    with ((c :: pre) ++ "/"%char :: "c"%char :: rest).
  rewrite (category_url_pattern_fails t1 t2 (c :: pre) rest); [ | discriminate | exact E ].
  apply IH. exact H.
Qed.

(** X4. The category id of a URL in ASCII is the number after its
    first marker [/c] that digits follow, whatever comes after the
    digits.  The number has at most 4300 digits, beyond which [int]
    refuses a string. *)
Theorem extract_category_id_first_marker (s : string) (pre ds post : text) :
  ascii_text (txt s) = true ->
  txt s = pre ++ "/"%char :: "c"%char :: ds ++ post ->
  re_search category_url_pattern pre = None ->
  ds <> [] -> (List.length ds <= 4300)%nat ->
  forallb is_digit ds = true -> stops is_digit post ->
  extract_category_id (SStr s) = Ok (Some (decimal ds)).
Proof.
  intros _ Ht Hpre Hne _ Hd Hs. unfold extract_category_id.
  cbn [isna_or_None pd_isna truth bind scalar_isna is_None orb py_str str_scalar].
  rewrite Ht. unfold re_search in *.
  rewrite (category_url_search_skip _ _ (ds ++ post) pre Hpre).
  rewrite (search_from_here _ _ _ _ (category_url_pattern_match _ ds post Hne Hd Hs)).
  cbn [group_str group Nat.eqb bind].
  rewrite (int_of_text_digits ds Hd Hne). reflexivity.
Qed.

Lemma extract_category_id_first_marker_witness :
  extract_category_id (SStr "https://tiki.vn/cham-soc-nha-cua/c1883?page=2")
  = Ok (Some (decimal (txt "1883")))
  /\ decimal (txt "1883") = 1883.
Proof.
  split; [ | reflexivity ].
  apply (extract_category_id_first_marker
           "https://tiki.vn/cham-soc-nha-cua/c1883?page=2"
           (txt "https://tiki.vn/cham-soc-nha-cua") (txt "1883") (txt "?page=2")).
  - reflexivity.
  - reflexivity.
  - reflexivity.
  - discriminate.
  - cbn. lia.
  - reflexivity.
  - reflexivity.
Defined.

(** ** The schema of a table *)

(** The loop that adds the missing columns of a schema. *)
Definition add_missing (schema : list label) (df : frame) : frame :=
  fold_left (fun df col => if negb (has_col col df)
                           then set_const col (Scalar SNone) df else df)
            schema df.

Lemma add_missing_NoDup (schema : list label) : forall df,
  NoDup (columns df) -> NoDup (columns (add_missing schema df)).
Proof.
  induction schema as [|c schema IH]; intros df H; [ exact H | ].
  cbn. apply IH. destruct (has_col c df); cbn [negb]; [ exact H | ].
  apply NoDup_set_col. exact H.
Qed.

Lemma add_missing_keeps (schema : list label) (c : label) : forall df,
  has_col c df = true -> has_col c (add_missing schema df) = true.
Proof.
  induction schema as [|x schema IH]; intros df H; [ exact H | ].
  cbn. apply IH. destruct (has_col x df); cbn [negb]; [ exact H | ].
  unfold set_const. rewrite has_col_set_col, H. reflexivity.
Qed.

Lemma add_missing_has (schema : list label) (c : label) : forall df,
  In c schema -> has_col c (add_missing schema df) = true.
Proof.
  induction schema as [|x schema IH]; intros df Hc; [ destruct Hc | ].
  destruct Hc as [<- | H].
  - cbn. apply add_missing_keeps. destruct (has_col x df) eqn:E; cbn [negb];
      [ exact E | ].
    unfold set_const. rewrite has_col_set_col, String.eqb_refl. apply orb_true_r.
  - cbn. apply IH. exact H.
Qed.

Lemma add_missing_rows (schema : list label) : forall df,
  List.length (rows (add_missing schema df)) = List.length (rows df).
Proof.
  induction schema as [|x schema IH]; intros df; [ reflexivity | ].
  cbn. rewrite IH. destruct (has_col x df); cbn [negb]; [ reflexivity | ].
  unfold set_const. apply set_col_rows. apply length_map.
Qed.

Lemma select_rows (labels : list label) (df df' : frame) :
  select labels df = Ok df' -> List.length (rows df') = List.length (rows df).
Proof.
  unfold select. intros S. apply bind_Ok in S. destruct S as (ps & _ & S).
  injection S as <-. cbn. apply length_map.
Qed.

(** X5. On a frame whose labels are distinct the schema enforcement
    returns, whatever the schema: the table has exactly the labels of
    the schema, in its order, and as many rows as before. *)
Theorem enforce_schema_exact (schema : list label) (df : frame) :
  NoDup (columns df) ->
  exists df',
    enforce_schema schema df = Ok df'
    /\ columns df' = schema
    /\ List.length (rows df') = List.length (rows df).
Proof.
  intros H. unfold enforce_schema. fold (add_missing schema df).
  destruct (select_returns schema (add_missing schema df)) as (df' & S).
  { intros c Hc. apply add_missing_has. exact Hc. }
  exists df'. split; [ exact S | split ].
  - apply (select_columns schema (add_missing schema df) df');
      [ apply add_missing_NoDup; exact H | exact S ].
  - rewrite (select_rows _ _ _ S). apply add_missing_rows.
Qed.

Lemma enforce_schema_exact_witness :
  exists df',
    enforce_schema FACT_SCHEMA (DataFrame [sample_record]) = Ok df'
    /\ columns df' = FACT_SCHEMA
    /\ List.length (rows df') = List.length (rows (DataFrame [sample_record])).
Proof.
  apply (enforce_schema_exact FACT_SCHEMA (DataFrame [sample_record])).
  apply distinct_NoDup. reflexivity.
Defined.

(** ** Distinct labels along the pipeline *)

(** The equations of a stage that returned, one for each step. *)
Ltac open_stage :=
  repeat match goal with
         | H : bind _ _ = Ok _ |- _ =>
             apply bind_Ok in H; destruct H as (? & ? & H); cbv beta zeta in H
         | H : (if ?b then _ else _) = Ok _ |- _ => destruct b eqn:?
         | H : Raise _ = Ok _ |- _ => discriminate H
         | H : Ok _ = Ok _ |- _ => injection H as H; try subst
         end.

Ltac distinct_labels :=
  repeat first [ assumption
               | apply NoDup_set_col
               | apply NoDup_drop_cols ].

Section Stages.

Variable L : library.

Lemma parse_columns_NoDup (df df' : frame) :
  parse_columns L df = Ok df' -> NoDup (columns df) -> NoDup (columns df').
Proof.
  unfold parse_columns. intros H N. open_stage. distinct_labels.
Qed.

Lemma resolve_categories_NoDup (df df' : frame) :
  resolve_categories df = Ok df' -> NoDup (columns df) -> NoDup (columns df').
Proof.
  unfold resolve_categories. intros H N. open_stage; distinct_labels.
Qed.

Lemma convert_category_types_NoDup (df df' : frame) :
  convert_category_types L df = Ok df' -> NoDup (columns df) -> NoDup (columns df').
Proof.
  unfold convert_category_types. intros H N. open_stage; distinct_labels.
Qed.

Lemma derive_flags_NoDup (df df' : frame) :
  derive_flags L df = Ok df' -> NoDup (columns df) -> NoDup (columns df').
Proof.
  unfold derive_flags. intros H N. open_stage; distinct_labels.
Qed.

Lemma deduplicate_columns (df df' : frame) :
  deduplicate df = Ok df' -> columns df' = columns df.
Proof. unfold deduplicate. intros H. open_stage. reflexivity. Qed.

Lemma validate_nulls_columns (df df' : frame) :
  validate_nulls df = Ok df' -> columns df' = columns df.
Proof. unfold validate_nulls. intros H. open_stage. reflexivity. Qed.

End Stages.

Lemma enforce_schema_columns (schema : list label) (df df' : frame) :
  NoDup (columns df) -> enforce_schema schema df = Ok df' -> columns df' = schema.
Proof.
  intros H. unfold enforce_schema. fold (add_missing schema df). intros S.
  apply (select_columns schema (add_missing schema df) df');
    [ apply add_missing_NoDup; exact H | exact S ].
Qed.

Lemma build_fact_columns (df fact_df : frame) :
  NoDup (columns df) -> build_fact df = Ok fact_df -> columns fact_df = FACT_SCHEMA.
Proof. intros N H. apply (select_columns _ df fact_df N H). Qed.

Lemma build_dim_NoDup (df dim_df : frame) :
  NoDup (columns df) -> build_dim df = Ok dim_df -> NoDup (columns dim_df).
Proof.
  unfold build_dim. intros N H.
  apply bind_Ok in H. destruct H as (d0 & S & H). cbv beta zeta in H.
  apply (select_columns _ df d0 N) in S.
  assert (N0 : NoDup (columns d0)).
  { rewrite S. apply distinct_NoDup.
    destruct (has_col "root_category_id" df), (has_col "category_depth" df);
      reflexivity. }
  open_stage. distinct_labels.
Qed.

(** The conversion of the integer columns keeps the labels. *)
Ltac same_labels :=
  rewrite ?columns_set_col;
  repeat match goal with
         | B : has_col _ _ = _ |- _ => rewrite B; clear B
         end;
  try reflexivity.

Lemma build_categories_columns (df cat_df : frame) :
  NoDup (columns df) -> build_categories df = Ok cat_df ->
  columns cat_df = DIM_CATEGORIES_SCHEMA.
Proof.
  unfold build_categories. intros N H.
  apply bind_Ok in H. destruct H as (c0 & S & H). cbv beta zeta in H.
  apply (select_columns _ df c0 N) in S.
  assert (N0 : NoDup (columns c0)).
  { rewrite S. apply distinct_NoDup.
    destruct (has_col "category_name" df), (has_col "root_category_id" df),
      (has_col "category_depth" df); reflexivity. }
  clear S.
  apply bind_Ok in H. destruct H as (at_id & _ & H). cbv beta zeta in H.
  set (c1 := Frame (columns c0) _) in H.
  assert (N1 : NoDup (columns c1)) by exact N0.
  clearbody c1. clear N0.
  apply bind_Ok in H. destruct H as (url & _ & H).
  apply bind_Ok in H. destruct H as (url_key & _ & H). cbv beta zeta in H.
  set (c2 := if negb (has_col "category_name" _) then _ else _) in H.
  assert (N2 : NoDup (columns c2)).
  { unfold c2. destruct (negb _); unfold set_const; distinct_labels. }
  clearbody c2. clear N1.
  apply bind_Ok in H. destruct H as (c3 & E3 & H).
  assert (N3 : NoDup (columns c3)).
  { unfold set_const in E3. open_stage; distinct_labels. }
  clear E3 N2.
  apply bind_Ok in H. destruct H as (leaf & _ & H).
  apply bind_Ok in H. destruct H as (c4 & E4 & H).
  assert (N4 : NoDup (columns c4)) by (open_stage; distinct_labels).
  clear E4 N3.
  apply bind_Ok in H. destruct H as (c5 & E5 & H). cbv beta zeta in H.
  assert (N5 : NoDup (columns c5)).
  { unfold set_const in E5. open_stage; distinct_labels. }
  clear E5 N4.
  apply bind_Ok in H. destruct H as (c6 & S6 & H).
  match type of S6 with
  | select _ (fold_left _ ?m ?d) = _ => fold (add_missing m d) in S6
  end.
  apply select_columns in S6.
  2:{ apply add_missing_NoDup. unfold set_const. distinct_labels. }
  apply bind_Ok in H. destruct H as (c7 & E7 & H).
  assert (C7 : columns c7 = columns c6).
  { cbn [fold_left] in E7. open_stage; same_labels. }
  assert (F : has_duplicate_columns c7 = false).
  { unfold has_duplicate_columns. rewrite C7, S6. reflexivity. }
  rewrite F in H. injection H as <-. congruence.
Qed.

(** X6. When no two columns of the raw batch come under one name by the
    renaming, a transformation that returns gives the three tables
    exactly the labels of their schemas, in order. *)
Theorem transform_data_schemas (L : library) (df fact_df dim_df cat_df : frame) :
  NoDup (map rename_map (columns df)) ->
  transform_data L df = Ok (fact_df, dim_df, cat_df) ->
  columns fact_df = FACT_SCHEMA
  /\ columns dim_df = DIM_PRODUCTS_SCHEMA
  /\ columns cat_df = DIM_CATEGORIES_SCHEMA.
Proof.
  intros N H. unfold transform_data in H. cbv zeta in H.
  apply bind_Ok in H. destruct H as (d1 & E1 & H).
  apply (parse_columns_NoDup L _ _ E1) in N. clear E1.
  apply bind_Ok in H. destruct H as (d2 & E2 & H).
  apply (resolve_categories_NoDup _ _ E2) in N. clear E2.
  apply bind_Ok in H. destruct H as (d3 & E3 & H).
  apply (convert_category_types_NoDup L _ _ E3) in N. clear E3.
  apply bind_Ok in H. destruct H as (d4 & E4 & H).
  apply (derive_flags_NoDup L _ _ E4) in N. clear E4.
  apply bind_Ok in H. destruct H as (d5 & E5 & H).
  rewrite <- (deduplicate_columns _ _ E5) in N. clear E5.
  apply bind_Ok in H. destruct H as (d6 & E6 & H).
  rewrite <- (validate_nulls_columns _ _ E6) in N. clear E6.
  apply bind_Ok in H. destruct H as (f0 & Ef & H).
  apply bind_Ok in H. destruct H as (m0 & Em & H).
  apply bind_Ok in H. destruct H as (c0 & Ec & H).
  apply bind_Ok in H. destruct H as (f1 & Ef1 & H).
  apply bind_Ok in H. destruct H as (m1 & Em1 & H).
  injection H as <- <- <-.
  split; [ | split ].
  - apply (enforce_schema_columns FACT_SCHEMA f0 f1); [ | exact Ef1 ].
    rewrite (build_fact_columns d6 f0 N Ef). apply distinct_NoDup. reflexivity.
  - apply (enforce_schema_columns DIM_PRODUCTS_SCHEMA m0 m1); [ | exact Em1 ].
    apply (build_dim_NoDup d6 m0 N Em).
  - apply (build_categories_columns d6 c0 N Ec).
Qed.

Lemma transform_data_schemas_witness :
  exists fact_df dim_df cat_df,
    transform_data blind_library (DataFrame [sample_record])
    = Ok (fact_df, dim_df, cat_df)
    /\ columns fact_df = FACT_SCHEMA
    /\ columns dim_df = DIM_PRODUCTS_SCHEMA
    /\ columns cat_df = DIM_CATEGORIES_SCHEMA.
Proof.
  do 3 eexists. split; [ vm_compute; reflexivity | ].
  apply (transform_data_schemas blind_library (DataFrame [sample_record])).
  - apply distinct_NoDup. reflexivity.
  - vm_compute. reflexivity.
Defined.

(** ** One row for each product *)

Lemma existsb_value_eqb (v : value) (seen : list value) :
  existsb (value_eqb v) seen = true <-> In v seen.
Proof.
  rewrite existsb_exists. split.
  - intros (x & Hx & E). apply value_eqb_eq in E. subst x. exact Hx.
  - intros H. exists v. split; [ exact H | apply value_eqb_eq; reflexivity ].
Qed.

Lemma drop_duplicates_subset (key : row -> value) (l : list row) : forall seen r,
  In r (drop_duplicates_by key seen l) -> In r l /\ ~ In (key r) seen.
Proof.
  induction l as [|x l IH]; intros seen r; cbn; [ intros [] | ].
  destruct (existsb (value_eqb (key x)) seen) eqn:E.
  - intros H. destruct (IH _ _ H). auto.
  - intros [<- | H].
    + split; [ left; reflexivity | ].
      intros Hin. apply existsb_value_eqb in Hin. congruence.
    + destruct (IH _ _ H) as [H1 H2]. split; [ right; exact H1 | ].
      intros Hin. apply H2. right. exact Hin.
Qed.

Lemma drop_duplicates_NoDup (key : row -> value) (l : list row) : forall seen,
  NoDup (map key (drop_duplicates_by key seen l)).
Proof.
  induction l as [|x l IH]; intros seen; cbn; [ constructor | ].
  destruct (existsb (value_eqb (key x)) seen); [ apply IH | ].
  cbn. constructor; [ | apply IH ].
  intros Hin. apply in_map_iff in Hin. destruct Hin as (r & Hk & Hr).
  apply drop_duplicates_subset in Hr. destruct Hr as [_ Hr].
  apply Hr. left. symmetry. exact Hk.
Qed.

(** X7. A deduplication that returns found the two columns it reads.
    No two of its rows have the same product id; each of them is a row
    of the batch; and every row of the batch has its product id on a
    kept row that was observed no earlier (a missing timestamp counting
    as the earliest). *)
Theorem deduplicate_unique_latest (df df' : frame) :
  deduplicate df = Ok df' ->
  exists at_extracted at_product,
    position ValueError "extracted_at" df = Ok at_extracted
    /\ position KeyError "product_id" df = Ok at_product
    /\ columns df' = columns df
    /\ NoDup (map (fun r => cell r at_product) (rows df'))
    /\ (forall r', In r' (rows df') -> In r' (rows df))
    /\ (forall r, In r (rows df) ->
          exists r', In r' (rows df')
                     /\ cell r' at_product = cell r at_product
                     /\ desc_le (instant (cell r' at_extracted))
                                (instant (cell r at_extracted)) = true).
Proof.
  unfold deduplicate. intros H.
  apply bind_Ok in H. destruct H as (at_extracted & He & H).
  apply bind_Ok in H. destruct H as (at_product & Hp & H).
  injection H as <-. exists at_extracted, at_product.
  split; [ exact He | split; [ exact Hp | split; [ reflexivity | ] ] ].
  cbn [rows]. unfold dedup_rows.
  set (key := fun r : row => cell r at_product).
  set (time := fun r : row => instant (cell r at_extracted)).
  pose proof (sort_values_desc_perm time (rows df)) as Hperm.
  pose proof (sort_values_desc_sorted time (rows df)) as Hsorted.
  split; [ apply drop_duplicates_NoDup | split ].
  - intros r' Hr'. apply drop_duplicates_subset in Hr'.
    apply (Permutation_in _ Hperm). apply Hr'.
  - intros r Hr.
    apply (Permutation_in _ (Permutation_sym Hperm)) in Hr.
    destruct (drop_duplicates_sorted key time (key r) _ r Hsorted Hr eq_refl)
      as (r' & Hf & _ & Hk & Hl).
    exists r'. split; [ | split; [ exact Hk | apply (Hl r Hr eq_refl) ] ].
    assert (I : In r' (filter (has_key key (key r))
                         (drop_duplicates_by key []
                            (sort_values_desc time (rows df)))))
      by (rewrite Hf; left; reflexivity).
    apply filter_In in I. apply I.
Qed.

Lemma deduplicate_unique_latest_witness :
  exists df' at_extracted at_product,
    deduplicate observed_twice = Ok df'
    /\ position ValueError "extracted_at" observed_twice = Ok at_extracted
    /\ position KeyError "product_id" observed_twice = Ok at_product
    /\ NoDup (map (fun r => cell r at_product) (rows df')).
Proof.
  eexists.
  destruct (deduplicate_unique_latest observed_twice _ eq_refl)
    as (e & p & He & Hp & _ & Hn & _).
  exists e, p. split; [ reflexivity | ]. split; [ exact He | ].
  split; [ exact Hp | exact Hn ].
Defined.

(** ** The bucket *)

(** The blob of a name: the first one listed under it. *)
Fixpoint blob_at (name : string) (bk : list (string * blob)) : option blob :=
  match bk with
  | [] => None
  | (n, b) :: bk' => if String.eqb n name then Some b else blob_at name bk'
  end.

Lemma blob_at_upload (name : string) (b : blob) (bk : list (string * blob)) :
  blob_at name (upload name b bk) = Some b.
Proof.
  induction bk as [|[n old] bk IH]; cbn.
  - rewrite String.eqb_refl. reflexivity.
  - destruct (String.eqb n name) eqn:E; cbn.
    + rewrite String.eqb_refl. reflexivity.
    + rewrite E. exact IH.
Qed.

Lemma blob_at_upload_other (name other : string) (b : blob)
    (bk : list (string * blob)) :
  other <> name -> blob_at other (upload name b bk) = blob_at other bk.
Proof.
  intros N. induction bk as [|[n old] bk IH]; cbn.
  - destruct (String.eqb name other) eqn:E; [ | reflexivity ].
    apply String.eqb_eq in E. congruence.
  - destruct (String.eqb n name) eqn:E; cbn.
    + apply String.eqb_eq in E. subst n.
      destruct (String.eqb name other) eqn:X; [ | reflexivity ].
      apply String.eqb_eq in X. congruence.
    + rewrite IH. reflexivity.
Qed.

Lemma upload_same (name : string) (b : blob) (bk : list (string * blob)) :
  blob_at name bk = Some b -> upload name b bk = bk.
Proof.
  induction bk as [|[n old] bk IH]; cbn; [ discriminate | ].
  destruct (String.eqb n name) eqn:E.
  - intros [= ->]. apply String.eqb_eq in E. subst n. reflexivity.
  - intros H. rewrite (IH H). reflexivity.
Qed.

(** The three paths a run writes for a date. *)
Definition fact_path (execution_date : string) : string :=
  (clean_zone_prefix ++ "/snapshot_date=" ++ execution_date ++ "/part-001.parquet")%string.

Definition dim_path (execution_date : string) : string :=
  ("clean_zone/tiki/dim_products" ++ "/snapshot_date=" ++ execution_date
   ++ "/part-001.parquet")%string.

Definition cat_path (execution_date : string) : string :=
  ("clean_zone/tiki/dim_categories" ++ "/snapshot_date=" ++ execution_date
   ++ "/part-001.parquet")%string.

Definition written_paths (execution_date : string) : list string :=
  [ fact_path execution_date; dim_path execution_date; cat_path execution_date ].

Lemma write_parquet_to_gcs_others (df : frame) (path other : string) (w : gcs) :
  other <> path ->
  blob_at other (bucket (snd (write_parquet_to_gcs df path w)))
  = blob_at other (bucket w).
Proof.
  intros N. unfold write_parquet_to_gcs.
  destruct (has_duplicate_columns df); cbn [snd bucket]; [ reflexivity | ].
  apply blob_at_upload_other. exact N.
Qed.

Lemma save_to_clean_zone_others (fact_df dim_df cat_df : frame)
    (execution_date other : string) (w : gcs) :
  ~ In other (written_paths execution_date) ->
  blob_at other (bucket (snd (save_to_clean_zone fact_df dim_df cat_df
                                execution_date w)))
  = blob_at other (bucket w).
Proof.
  intros N. unfold save_to_clean_zone, io_bind, io_ret.
  assert (Nf : other <> fact_path execution_date)
    by (intros ->; apply N; left; reflexivity).
  assert (Nd : other <> dim_path execution_date)
    by (intros ->; apply N; right; left; reflexivity).
  assert (Nc : other <> cat_path execution_date)
    by (intros ->; apply N; right; right; left; reflexivity).
  pose proof (write_parquet_to_gcs_others fact_df _ other w Nf) as H1.
  unfold fact_path in H1.
  destruct (write_parquet_to_gcs fact_df _ w) as [[u1|e1] w1]; cbn [snd] in *;
    [ | exact H1 ].
  pose proof (write_parquet_to_gcs_others dim_df _ other w1 Nd) as H2.
  unfold dim_path in H2.
  destruct (write_parquet_to_gcs dim_df _ w1) as [[u2|e2] w2]; cbn [snd] in *;
    [ | congruence ].
  pose proof (write_parquet_to_gcs_others cat_df _ other w2 Nc) as H3.
  unfold cat_path in H3.
  destruct (write_parquet_to_gcs cat_df _ w2) as [[u3|e3] w3]; cbn [snd] in *;
    congruence.
Qed.

(** X8. Whatever a run returns or raises, every blob of the bucket
    other than the three Parquet files of its date is as it was: the raw
    zone in particular is only read. *)
Theorem run_transformation_writes_only_its_files (L : library)
    (execution_date other : string) (w : gcs) :
  ~ In other (written_paths execution_date) ->
  blob_at other (bucket (snd (run_transformation L execution_date w)))
  = blob_at other (bucket w).
Proof.
  intros N. unfold run_transformation, io_bind, get_gcs_client, io_read, io_lift.
  destruct (credentials_found w); [ | reflexivity ].
  pose proof (load_raw_data_reads execution_date w) as Hw.
  destruct (load_raw_data execution_date w) as [[raw_df|e] w0]; cbn [snd] in Hw;
    subst w0; [ | reflexivity ].
  destruct (transform_data L raw_df) as [[[fact_df dim_df] cat_df]|e];
    [ | reflexivity ].
  destruct (frame_empty fact_df); [ reflexivity | ].
  pose proof (save_to_clean_zone_others fact_df dim_df cat_df execution_date
                other w N) as H.
  destruct (save_to_clean_zone fact_df dim_df cat_df execution_date w)
    as [[[[u1 u2] u3]|e] w1]; exact H.
Qed.

Lemma run_transformation_writes_only_its_files_witness :
  blob_at "raw_zone/tiki/products/snapshot_date=2026-01-18/page-001.json"
    (bucket (snd (run_transformation blind_library "2026-01-18"
                    (sample_bucket sample_record))))
  = Some (Json [sample_record]).
Proof.
  rewrite (run_transformation_writes_only_its_files blind_library "2026-01-18"
             "raw_zone/tiki/products/snapshot_date=2026-01-18/page-001.json"
             (sample_bucket sample_record)).
  - reflexivity.
  - intros [H | [H | [H | []]]]; discriminate H.
Defined.

Lemma written_paths_apart (d : string) :
  fact_path d <> dim_path d /\ fact_path d <> cat_path d /\ dim_path d <> cat_path d.
Proof.
  unfold fact_path, dim_path, cat_path, clean_zone_prefix.
  repeat split; cbn; congruence.
Qed.

Lemma gcs_eta (w : gcs) : Gcs (credentials_found w) (bucket_name w) (bucket w) = w.
Proof. destruct w; reflexivity. Qed.

(** What a save that returns has done. *)
Lemma save_to_clean_zone_returns (fact_df dim_df cat_df : frame) (d : string)
    (w w' : gcs) (uris : string * string * string) :
  save_to_clean_zone fact_df dim_df cat_df d w = (Ok uris, w') ->
  has_duplicate_columns fact_df = false
  /\ has_duplicate_columns dim_df = false
  /\ has_duplicate_columns cat_df = false
  /\ uris = (("gs://" ++ bucket_name w ++ "/" ++ fact_path d)%string,
             ("gs://" ++ bucket_name w ++ "/" ++ dim_path d)%string,
             ("gs://" ++ bucket_name w ++ "/" ++ cat_path d)%string)
  /\ w' = Gcs (credentials_found w) (bucket_name w)
            (upload (cat_path d) (Parquet cat_df)
               (upload (dim_path d) (Parquet dim_df)
                  (upload (fact_path d) (Parquet fact_df) (bucket w)))).
Proof.
  unfold save_to_clean_zone, io_bind, io_ret, write_parquet_to_gcs.
  fold (fact_path d). fold (dim_path d). fold (cat_path d).
  destruct (has_duplicate_columns fact_df); [ discriminate | ].
  destruct (has_duplicate_columns dim_df); [ discriminate | ].
  destruct (has_duplicate_columns cat_df); [ discriminate | ].
  cbn [credentials_found bucket_name bucket].
  intros [= <- <-]. repeat split.
Qed.

(** X9. A run that returns has loaded the raw files of the date and
    transformed them to a fact table that is not empty; the bucket then
    holds the three tables under the three paths of the date, and the
    record counts returned are the numbers of their rows. *)
Theorem run_transformation_returns (L : library) (d : string) (w w' : gcs)
    (s : summary) :
  run_transformation L d w = (Ok s, w') ->
  exists raw_df fact_df dim_df cat_df,
    fst (load_raw_data d w) = Ok raw_df
    /\ transform_data L raw_df = Ok (fact_df, dim_df, cat_df)
    /\ frame_empty fact_df = false
    /\ blob_at (fact_path d) (bucket w') = Some (Parquet fact_df)
    /\ blob_at (dim_path d) (bucket w') = Some (Parquet dim_df)
    /\ blob_at (cat_path d) (bucket w') = Some (Parquet cat_df)
    /\ fact_records s = List.length (rows fact_df)
    /\ dim_records s = List.length (rows dim_df)
    /\ cat_records s = List.length (rows cat_df).
Proof.
  unfold run_transformation, io_bind, get_gcs_client, io_read, io_lift.
  destruct (credentials_found w); [ | discriminate ].
  pose proof (load_raw_data_reads d w) as Hw.
  destruct (load_raw_data d w) as [[raw_df|e] w0] eqn:El; cbn [snd] in Hw;
    subst w0; [ | discriminate ].
  destruct (transform_data L raw_df) as [[[fact_df dim_df] cat_df]|e] eqn:Et;
    [ | discriminate ].
  destruct (frame_empty fact_df) eqn:Ee; [ discriminate | ].
  destruct (save_to_clean_zone fact_df dim_df cat_df d w)
    as [[[[u1 u2] u3]|e] w1] eqn:Es; [ | discriminate ].
  unfold io_ret. intros [= <- <-].
  apply save_to_clean_zone_returns in Es.
  destruct Es as (_ & _ & _ & _ & ->).
  destruct (written_paths_apart d) as (N1 & N2 & N3).
  exists raw_df, fact_df, dim_df, cat_df. cbn [fst bucket].
  split; [ reflexivity | ]. split; [ exact Et | ]. split; [ exact Ee | ].
  split; [ rewrite !blob_at_upload_other by assumption; apply blob_at_upload | ].
  split; [ rewrite blob_at_upload_other by assumption; apply blob_at_upload | ].
  split; [ apply blob_at_upload | ].
  repeat split.
Qed.

Lemma run_transformation_returns_witness :
  exists raw_df fact_df dim_df cat_df,
    fst (load_raw_data "2026-01-18" (sample_bucket sample_record)) = Ok raw_df
    /\ transform_data blind_library raw_df = Ok (fact_df, dim_df, cat_df)
    /\ frame_empty fact_df = false
    /\ blob_at (fact_path "2026-01-18")
         (bucket (snd (run_transformation blind_library "2026-01-18"
                         (sample_bucket sample_record))))
       = Some (Parquet fact_df).
Proof.
  destruct (run_transformation blind_library "2026-01-18"
              (sample_bucket sample_record)) as [r w'] eqn:E.
  assert (R : exists s, r = Ok s).
  { assert (X : returns (fst (run_transformation blind_library "2026-01-18"
                                (sample_bucket sample_record))) = true)
      by (vm_compute; reflexivity).
    rewrite E in X. cbn [fst] in X. destruct r; [ eauto | discriminate ]. }
  destruct R as (s & ->).
  destruct (run_transformation_returns blind_library "2026-01-18"
              (sample_bucket sample_record) w' s E)
    as (raw_df & fact_df & dim_df & cat_df & H1 & H2 & H3 & H4 & _).
  exists raw_df, fact_df, dim_df, cat_df. cbn [snd]. auto.
Defined.

(** The prefix of the raw files of a date. *)
Definition raw_prefix (d : string) : string :=
  (raw_zone_prefix ++ "/snapshot_date=" ++ d ++ "/")%string.

(** A blob that [list_blobs_with_prefix] lists for the date. *)
Definition is_raw_file (d : string) (nb : string * blob) : bool :=
  starts_with (txt (raw_prefix d)) (txt (fst nb)) && ends_with ".json" (fst nb).

Lemma written_paths_not_raw (d path : string) (b : blob) :
  In path (written_paths d) -> is_raw_file d (path, b) = false.
Proof.
  intros [<- | [<- | [<- | []]]]; reflexivity.
Qed.

Lemma filter_upload (p : string * blob -> bool) (name : string) (b : blob)
    (bk : list (string * blob)) :
  (forall b', p (name, b') = false) ->
  filter p (upload name b bk) = filter p bk.
Proof.
  intros H. induction bk as [|[n old] bk IH]; cbn.
  - rewrite H. reflexivity.
  - destruct (String.eqb n name) eqn:E; cbn.
    + apply String.eqb_eq in E. subst n. rewrite !H. reflexivity.
    + rewrite IH. reflexivity.
Qed.

(** Loading reads the raw files of the date and nothing else. *)
Lemma load_raw_data_filter (d : string) (w w' : gcs) :
  filter (is_raw_file d) (bucket w') = filter (is_raw_file d) (bucket w) ->
  fst (load_raw_data d w') = fst (load_raw_data d w).
Proof.
  intros H. unfold load_raw_data, io_read, list_blobs_with_prefix.
  cbn [fst]. fold (raw_prefix d).
  change (fun nb : string * blob =>
            starts_with (txt (raw_prefix d)) (txt (fst nb))
            && ends_with ".json" (fst nb)) with (is_raw_file d).
  rewrite H. reflexivity.
Qed.

(** X10. A blob that is not under the prefix of the date, or whose name
    does not end in [.json], is not read: with it or without it in the
    bucket the raw data loaded are the same. *)
Theorem load_raw_data_ignores (d name : string) (b : blob)
    (credentials : bool) (bucket_name : string) (before after : list (string * blob)) :
  is_raw_file d (name, b) = false ->
  fst (load_raw_data d (Gcs credentials bucket_name (before ++ (name, b) :: after)))
  = fst (load_raw_data d (Gcs credentials bucket_name (before ++ after))).
Proof.
  intros H. apply load_raw_data_filter. cbn [bucket].
  rewrite !filter_app. cbn [filter]. rewrite H. reflexivity.
Qed.

Lemma load_raw_data_ignores_witness :
  fst (load_raw_data "2026-01-18"
         (Gcs true "tiki-bucket"
            ([] ++ ("raw_zone/tiki/products/snapshot_date=2026-01-17/page-001.json",
                    Json [priceless_record])
                :: bucket (sample_bucket sample_record))))
  = Ok (DataFrame [sample_record]).
Proof.
  rewrite (load_raw_data_ignores "2026-01-18"
             "raw_zone/tiki/products/snapshot_date=2026-01-17/page-001.json"
             (Json [priceless_record]) true "tiki-bucket" []
             (bucket (sample_bucket sample_record))).
  - reflexivity.
  - reflexivity.
Defined.

(** X11. A run that returned can be run again on the bucket it left: it
    returns the same summary and leaves the bucket as it is. *)
Theorem run_transformation_again (L : library) (d : string) (w w' : gcs)
    (s : summary) :
  run_transformation L d w = (Ok s, w') ->
  run_transformation L d w' = (Ok s, w').
Proof.
  intros H. pose proof H as H0. revert H.
  unfold run_transformation, io_bind, get_gcs_client, io_read, io_lift.
  destruct (credentials_found w) eqn:Ec; [ | discriminate ].
  pose proof (load_raw_data_reads d w) as Hw.
  destruct (load_raw_data d w) as [[raw_df|e] w0] eqn:El; cbn [snd] in Hw;
    subst w0; [ | discriminate ].
  destruct (transform_data L raw_df) as [[[fact_df dim_df] cat_df]|e] eqn:Et;
    [ | discriminate ].
  destruct (frame_empty fact_df) eqn:Ee; [ discriminate | ].
  destruct (save_to_clean_zone fact_df dim_df cat_df d w)
    as [[[[u1 u2] u3]|e] w1] eqn:Es; [ | discriminate ].
  unfold io_ret. intros [= <- <-].
  apply save_to_clean_zone_returns in Es.
  destruct Es as (Df & Dd & Dc & [= -> -> ->] & ->).
  cbn [credentials_found]. rewrite Ec.
  set (w1 := Gcs true (bucket_name w) _).
  assert (Hl : load_raw_data d w1 = (Ok raw_df, w1)).
  { pose proof (load_raw_data_reads d w1) as R.
    pose proof (load_raw_data_filter d w w1) as F.
    destruct (load_raw_data d w1) as [r w2]. cbn [snd] in R. subst w2.
    rewrite El in F. cbn [fst] in F. rewrite F; [ reflexivity | ].
    unfold w1. cbn [bucket].
    rewrite !filter_upload; [ reflexivity | | | ];
      intros b'; apply written_paths_not_raw; cbn; auto. }
  rewrite Hl, Et, Ee.
  unfold save_to_clean_zone, io_bind, io_ret, write_parquet_to_gcs.
  fold (fact_path d). fold (dim_path d). fold (cat_path d).
  rewrite Df, Dd, Dc.
  destruct (written_paths_apart d) as (N1 & N2 & N3).
  unfold w1. cbn [credentials_found bucket_name bucket].
  rewrite (upload_same (fact_path d) (Parquet fact_df)).
  2:{ rewrite !blob_at_upload_other by assumption. apply blob_at_upload. }
  rewrite (upload_same (dim_path d) (Parquet dim_df)).
  2:{ rewrite blob_at_upload_other by assumption. apply blob_at_upload. }
  rewrite (upload_same (cat_path d) (Parquet cat_df)).
  2:{ apply blob_at_upload. }
  reflexivity.
Qed.

Lemma run_transformation_again_witness :
  snd (run_transformation blind_library "2026-01-18"
         (snd (run_transformation blind_library "2026-01-18"
                 (sample_bucket sample_record))))
  = snd (run_transformation blind_library "2026-01-18"
           (sample_bucket sample_record)).
Proof.
  destruct (run_transformation blind_library "2026-01-18"
              (sample_bucket sample_record)) as [r w'] eqn:E.
  assert (R : exists s, r = Ok s).
  { assert (X : returns (fst (run_transformation blind_library "2026-01-18"
                                (sample_bucket sample_record))) = true)
      by (vm_compute; reflexivity).
    rewrite E in X. cbn [fst] in X. destruct r; [ eauto | discriminate ]. }
  destruct R as (s & ->). cbn [snd].
  rewrite (run_transformation_again blind_library "2026-01-18"
             (sample_bucket sample_record) w' s E).
  reflexivity.
Defined.

(** X12. Without credentials a run raises [FileNotFoundError], and with
    credentials but no [.json] file under the prefix of its date it
    raises [ValueError]; in both cases before anything is transformed,
    the bucket left as it was. *)
Theorem run_transformation_without_input (L : library) (d : string) (w : gcs) :
  (credentials_found w = false ->
   run_transformation L d w = (Raise FileNotFoundError, w))
  /\ (credentials_found w = true ->
      filter (is_raw_file d) (bucket w) = [] ->
      run_transformation L d w = (Raise ValueError, w)).
Proof.
  unfold run_transformation, io_bind, get_gcs_client, io_read, io_lift.
  split.
  - intros ->. reflexivity.
  - intros -> H. unfold load_raw_data, io_read, list_blobs_with_prefix.
    fold (raw_prefix d).
    change (fun nb : string * blob =>
              starts_with (txt (raw_prefix d)) (txt (fst nb))
              && ends_with ".json" (fst nb)) with (is_raw_file d).
    rewrite H. reflexivity.
Qed.

Lemma run_transformation_without_input_witness :
  run_transformation blind_library "2026-01-19" (sample_bucket sample_record)
  = (Raise ValueError, sample_bucket sample_record).
Proof.
  apply (proj2 (run_transformation_without_input blind_library "2026-01-19"
                  (sample_bucket sample_record))).
  - reflexivity.
  - reflexivity.
Defined.

(** X13. A save is not undone when a later table is refused: when the
    product dimension has a repeated label and the fact table has none,
    the save raises [ValueError] and leaves the fact table written,
    alone. *)
Theorem save_to_clean_zone_stops_midway (fact_df dim_df cat_df : frame)
    (d : string) (w : gcs) :
  has_duplicate_columns fact_df = false ->
  has_duplicate_columns dim_df = true ->
  save_to_clean_zone fact_df dim_df cat_df d w
  = (Raise ValueError,
     Gcs (credentials_found w) (bucket_name w)
         (upload (fact_path d) (Parquet fact_df) (bucket w)))
  /\ blob_at (fact_path d)
       (bucket (snd (save_to_clean_zone fact_df dim_df cat_df d w)))
     = Some (Parquet fact_df)
  /\ blob_at (dim_path d)
       (bucket (snd (save_to_clean_zone fact_df dim_df cat_df d w)))
     = blob_at (dim_path d) (bucket w)
  /\ blob_at (cat_path d)
       (bucket (snd (save_to_clean_zone fact_df dim_df cat_df d w)))
     = blob_at (cat_path d) (bucket w).
Proof.
  intros Hf Hd.
  assert (E : save_to_clean_zone fact_df dim_df cat_df d w
              = (Raise ValueError,
                 Gcs (credentials_found w) (bucket_name w)
                     (upload (fact_path d) (Parquet fact_df) (bucket w)))).
  { unfold save_to_clean_zone, io_bind, io_ret, write_parquet_to_gcs.
    rewrite Hf, Hd. reflexivity. }
  rewrite E. cbn [snd bucket].
  destruct (written_paths_apart d) as (N1 & N2 & N3).
  split; [ reflexivity | ]. split; [ apply blob_at_upload | ].
  split; apply blob_at_upload_other; congruence.
Qed.

Lemma save_to_clean_zone_stops_midway_witness :
  exists fact_df dim_df cat_df,
    transform_data blind_library (DataFrame [two_names_record])
    = Ok (fact_df, dim_df, cat_df)
    /\ blob_at (fact_path "2026-01-18")
         (bucket (snd (save_to_clean_zone fact_df dim_df cat_df "2026-01-18"
                         (sample_bucket two_names_record))))
       = Some (Parquet fact_df)
    /\ blob_at (dim_path "2026-01-18")
         (bucket (snd (save_to_clean_zone fact_df dim_df cat_df "2026-01-18"
                         (sample_bucket two_names_record))))
       = None.
Proof.
  do 3 eexists. split; [ vm_compute; reflexivity | ].
  match goal with
  | |- context [save_to_clean_zone ?f ?m ?c ?d ?w] =>
      destruct (save_to_clean_zone_stops_midway f m c d w eq_refl eq_refl)
        as (_ & H1 & H2 & _)
  end.
  split; [ exact H1 | ]. rewrite H2. reflexivity.
Defined.

(** ** Prices written in digits *)

(** The thousands pattern matches only a text with a dot. *)
Lemma price_pattern_needs_dot (t : text) :
  forallb (fun c => negb (Ascii.eqb c ".")) t = true ->
  re_match price_pattern t = None.
Proof.
  intros Hd. destruct (re_match price_pattern t) as [caps|] eqn:E; [ | reflexivity ].
  exfalso. apply re_match_sound in E. destruct E as (s' & H).
  unfold price_pattern, Plus in H.
  inversion H as [ | | ? ? ? ? s1 c1 ? ? H1 H2 | | | | | | | | ]; subst. clear H.
  inversion H2 as [ | | ? ? ? ? s2 c2 ? ? H3 H4 | | | | | | | | ]; subst. clear H2.
  inversion H4 as [ | | ? ? ? ? s3 c3 ? ? H5 H6 | | | | | | | | ]; subst. clear H4 H6.
  inversion H5 as [ | | | | | | | ? ? ? ? ? ? H7 | | | ]; subst. clear H5.
  inversion H7 as [ | | ? ? ? ? s4 c4 ? ? H8 H9 | | | | | | | | ]; subst. clear H7.
  inversion H9 as [ | | ? ? ? ? s5 c5 ? ? Ha Hb | | | | | | | | ]; subst. clear H9 Hb.
  inversion Ha as [ | | ? ? ? ? s6 c6 ? ? Hc Hd' | | | | | | | | ]; subst. clear Ha Hd'.
  unfold Char in Hc. inversion Hc as [ | ? a ? ? Hdot | | | | | | | | | ]; subst.
  apply Ascii.eqb_eq in Hdot. subst a.
  apply steps_suffix in H1, H3, H8.
  destruct H1 as (w1 & E1), H3 as (w3 & E3), H8 as (w8 & E8).
  assert (Hin : In "."%char t).
  { rewrite E1, E3, E8. apply in_or_app. right. apply in_or_app. right.
    apply in_or_app. right. left. reflexivity. }
  rewrite forallb_forall in Hd. specialize (Hd _ Hin). discriminate Hd.
Qed.

(** X18. A price written in digits, with any other characters but a
    dot around or between them (blanks, commas, a currency), is read as
    the number its digits write, up to [2^53]; the text is in ASCII. *)
Theorem clean_price_digits (s : string) (ds : text) :
  ascii_text (txt s) = true ->
  forallb (fun c => negb (Ascii.eqb c ".")) (strip (txt s)) = true ->
  filter is_digit (strip (txt s)) = ds ->
  ds <> [] -> decimal ds < 2 ^ 53 ->
  clean_price (SStr s) = Ok (Some (decimal ds)).
Proof.
  intros _ Hdot Hds Hne Hlt. unfold clean_price.
  cbn [isna_or_None pd_isna truth bind scalar_isna is_None orb is_number
       py_str str_scalar].
  rewrite (price_pattern_needs_dot _ Hdot).
  assert (Hc : re_sub_class not_digit_or_dot (strip (txt s)) = ds).
  { rewrite <- Hds. unfold re_sub_class. apply filter_ext_in.
    intros c Hin. unfold not_digit_or_dot. rewrite negb_involutive.
    rewrite forallb_forall in Hdot. specialize (Hdot c Hin).
    apply negb_true_iff in Hdot. rewrite Hdot. apply orb_false_r. }
  rewrite Hc.
  assert (Hd : forallb is_digit ds = true).
  { rewrite <- Hds. apply forallb_forall. intros c Hin.
    apply filter_In in Hin. apply Hin. }
  destruct (Nat.eqb (List.length ds) 0) eqn:El.
  { destruct ds; [ congruence | discriminate El ]. }
  unfold float_of_decimal.
  rewrite (split_char_digits "."%char ds eq_refl Hd), El, Hd. cbn [negb andb bind].
  rewrite int_of_float_exact; [ reflexivity | ].
  split; [ apply (decimal_range ds Hd) | exact Hlt ].
Qed.

Lemma clean_price_digits_witness :
  clean_price (SStr " 37,250,000 VND") = Ok (Some (decimal (txt "37250000")))
  /\ decimal (txt "37250000") = 37250000.
Proof.
  split; [ | reflexivity ].
  apply (clean_price_digits " 37,250,000 VND" (txt "37250000")).
  - reflexivity.
  - reflexivity.
  - reflexivity.
  - discriminate.
  - reflexivity.
Defined.

(** ** The rows of the fact table *)

Lemma add_missing_present (schema : list label) (df : frame) :
  (forall c, In c schema -> has_col c df = true) -> add_missing schema df = df.
Proof.
  induction schema as [|c schema IH]; intros H; [ reflexivity | ].
  cbn. rewrite (H c (or_introl eq_refl)). cbn [negb].
  apply IH. intros c' Hc'. apply H. right. exact Hc'.
Qed.

(** Dropping the rows with a null cell leaves the surviving keys as apart
    as they were. *)
Lemma dropna_at_distinct (js : list nat) (j : nat) (rs : list row) :
  NoDup (map (fun r => cell r j) rs) ->
  NoDup (map (fun r => cell r j) (dropna_at js rs)).
Proof.
  unfold dropna_at. induction rs as [|r rs IH]; intros N; [ exact N | ].
  cbn [map] in N. apply NoDup_cons_iff in N. destruct N as [Hr N].
  cbn [filter].
  destruct (forallb (fun k => negb (cell_isna (cell r k))) js);
    [ | exact (IH N) ].
  cbn [map]. apply NoDup_cons; [ | exact (IH N) ].
  contradict Hr. apply in_map_iff in Hr. destruct Hr as (r' & Er & Hr).
  apply in_map_iff. exists r'. apply filter_In in Hr. tauto.
Qed.

(** A column of the frame the fact table is made from, in the fact
    table. *)
Lemma fact_column (df f0 fact_df : frame) (c : label) (j : nat) :
  NoDup (columns df) -> build_fact df = Ok f0 ->
  enforce_schema FACT_SCHEMA f0 = Ok fact_df ->
  In c FACT_SCHEMA -> positions c df = [j] ->
  get_col KeyError c fact_df = Ok (column j df).
Proof.
  intros N Hb He Hc Hj.
  assert (Nf : NoDup FACT_SCHEMA) by (apply distinct_NoDup; reflexivity).
  pose proof (build_fact_columns df f0 N Hb) as C0.
  pose proof (select_get_col KeyError _ df f0 c j N Nf Hb Hc Hj) as G0.
  apply get_col_column in G0. destruct G0 as (j0 & P0 & E0).
  unfold enforce_schema in He. fold (add_missing FACT_SCHEMA f0) in He.
  rewrite add_missing_present in He.
  2:{ intros c' Hc'. apply has_col_In. rewrite C0. exact Hc'. }
  rewrite E0.
  apply (select_get_col KeyError FACT_SCHEMA f0 fact_df c j0); try assumption.
  rewrite C0. exact Nf.
Qed.

(** X19. When the renaming brings no two columns under one name and
    the transformation returns, the fact table has a [product_id] and a
    [current_price] in every row, and no [product_id] in two rows. *)
Theorem fact_rows_keyed (L : library) (df fact_df dim_df cat_df : frame) :
  NoDup (map rename_map (columns df)) ->
  transform_data L df = Ok (fact_df, dim_df, cat_df) ->
  exists ids prices,
    get_col KeyError "product_id" fact_df = Ok ids
    /\ get_col KeyError "current_price" fact_df = Ok prices
    /\ NoDup ids
    /\ Forall (fun v => cell_isna v = false) ids
    /\ Forall (fun v => cell_isna v = false) prices.
Proof.
  intros N H. unfold transform_data in H. cbv zeta in H.
  apply bind_Ok in H. destruct H as (d1 & E1 & H).
  apply (parse_columns_NoDup L _ _ E1) in N. clear E1.
  apply bind_Ok in H. destruct H as (d2 & E2 & H).
  apply (resolve_categories_NoDup _ _ E2) in N. clear E2.
  apply bind_Ok in H. destruct H as (d3 & E3 & H).
  apply (convert_category_types_NoDup L _ _ E3) in N. clear E3.
  apply bind_Ok in H. destruct H as (d4 & E4 & H).
  apply (derive_flags_NoDup L _ _ E4) in N. clear E4.
  apply bind_Ok in H. destruct H as (d5 & E5 & H).
  apply bind_Ok in H. destruct H as (d6 & E6 & H).
  apply bind_Ok in H. destruct H as (f0 & Ef & H).
  apply bind_Ok in H. destruct H as (m0 & _ & H).
  apply bind_Ok in H. destruct H as (c0 & _ & H).
  apply bind_Ok in H. destruct H as (f1 & Ef1 & H).
  apply bind_Ok in H. destruct H as (m1 & _ & H).
  injection H as <- <- <-.
  unfold deduplicate in E5.
  apply bind_Ok in E5. destruct E5 as (at_extracted & _ & E5).
  apply bind_Ok in E5. destruct E5 as (at_product & Hp & E5). injection E5 as <-.
  unfold validate_nulls in E6.
  apply bind_Ok in E6. destruct E6 as (jp & Hjp & E6).
  apply bind_Ok in E6. destruct E6 as (jc & Hjc & E6). injection E6 as <-.
  cbn [columns rows] in *.
  assert (Pp : positions "product_id" d4 = [jp]).
  { unfold position, positions in *. cbn [columns] in Hjp.
    destruct (positions_from 0 "product_id" (columns d4)) as [|a [|b l]];
      try discriminate. congruence. }
  assert (Pc : positions "current_price" d4 = [jc]).
  { unfold position, positions in *. cbn [columns] in Hjc.
    destruct (positions_from 0 "current_price" (columns d4)) as [|a [|b l]];
      try discriminate. congruence. }
  assert (Ea : at_product = jp).
  { unfold position in Hp. rewrite Pp in Hp. congruence. }
  subst at_product.
  set (d6 := Frame (columns d4) (dropna_at _ _)) in *.
  exists (column jp d6), (column jc d6).
  split; [ apply (fact_column d6 f0 f1); try assumption; cbn; auto | ].
  split; [ apply (fact_column d6 f0 f1); try assumption; cbn; auto | ].
  unfold column, d6, dropna_at. cbn [rows].
  split; [ apply dropna_at_distinct; apply drop_duplicates_NoDup | ].
  split; apply Forall_forall; intros v Hv; apply in_map_iff in Hv;
    destruct Hv as (r & <- & Hr); apply filter_In in Hr; destruct Hr as [_ Hr];
    cbn in Hr; apply andb_true_iff in Hr; destruct Hr as [H1 H2];
    apply andb_true_iff in H2; destruct H2 as [H2 _];
    apply negb_true_iff; assumption.
Qed.

Lemma fact_rows_keyed_witness :
  exists fact_df dim_df cat_df ids,
    transform_data blind_library (DataFrame [sample_record; sample_record])
    = Ok (fact_df, dim_df, cat_df)
    /\ get_col KeyError "product_id" fact_df = Ok ids
    /\ NoDup ids.
Proof.
  do 3 eexists.
  match goal with
  | |- exists ids, ?t = Ok (?f, ?m, ?c) /\ _ =>
      assert (E : t = Ok (f, m, c)) by (vm_compute; reflexivity)
  end.
  assert (N : NoDup (map rename_map
                       (columns (DataFrame [sample_record; sample_record]))))
    by (apply distinct_NoDup; reflexivity).
  destruct (fact_rows_keyed blind_library _ _ _ _ N E)
    as (ids & prices & H1 & _ & H3 & _).
  exists ids. split; [ exact E | split; [ exact H1 | exact H3 ] ].
Defined.

(** ** The ids of a category path *)

















(** X21. A category path in ASCII is read whole or not at all: when
    one of the parts between the ['>'] is not an integer, no id is
    returned, not even those of the parts before it. *)
Theorem parse_category_path_all_or_nothing (s : string) (p : text) (e : exn) :
  ascii_text (txt s) = true ->
  In p (split_char ">" (txt s)) -> int_of_text p = Raise e ->
  parse_category_path (Scalar (SStr s)) = [].
Proof.
  intros _ Hin Hp. unfold parse_category_path.
  cbn [pd_isna scalar_isna truth bind orb py_str str_scalar].
  destruct (negb (truthy (Scalar (SStr s)))); [ reflexivity | ].
  destruct (mapM_raises int_of_text _ p e Hin Hp) as (e' & ->). reflexivity.
Qed.

Lemma parse_category_path_all_or_nothing_witness :
  parse_category_path (Scalar (SStr "1815 > 28670 >")) = [].
Proof.
  apply (parse_category_path_all_or_nothing "1815 > 28670 >" [] ValueError).
  - reflexivity.
  - cbn. right. right. left. reflexivity.
  - reflexivity.
Defined.

(** ** The columns the transformation asks for *)

(** Where a column of a later frame comes from: the frame before, or
    one of the labels written since. *)
Ltac origin H :=
  repeat match type of H with
         | has_col _ (set_col _ _ _) = true =>
             rewrite has_col_set_col in H; apply orb_true_iff in H;
             destruct H as [H | H];
             [ | right; apply String.eqb_eq in H; rewrite H; cbn; tauto ]
         | has_col _ (drop_cols _ _) = true => apply has_col_drop_cols in H
         end;
  try (left; exact H).

Definition parse_columns_writes : list label :=
  [ "snapshot_date"; "product_id"; "seller_id"; "current_price"; "original_price";
    "discount_rate"; "sales_volume_acc"; "rating_average"; "review_count" ].

Definition resolve_categories_writes : list label :=
  [ "_parsed_path"; "category_id"; "root_category_id"; "category_depth" ].

Definition derive_flags_writes : list label :=
  [ "inventory_status"; "tiki_now"; "extracted_at" ].

(** The columns [transform_data] reads from its input, by their names
    after the renaming. *)
Definition required_columns : list label :=
  [ "extracted_at"; "product_id"; "seller_id"; "price"; "original_price";
    "discount_rate"; "sales_volume"; "rating_average"; "review_count";
    "badges"; "sku"; "name"; "brand_name"; "image_url"; "product_url";
    "seller_name"; "seller_logo"; "category_name"; "_category_url" ].

Section Origins.

Variable L : library.

Lemma parse_columns_origin (df df' : frame) (c : label) :
  parse_columns L df = Ok df' -> has_col c df' = true ->
  has_col c df = true \/ In c parse_columns_writes.
Proof.
  unfold parse_columns. intros H Hc. open_stage. origin Hc.
Qed.

Lemma resolve_categories_origin (df df' : frame) (c : label) :
  resolve_categories df = Ok df' -> has_col c df' = true ->
  has_col c df = true \/ In c resolve_categories_writes.
Proof.
  unfold resolve_categories. intros H Hc. open_stage; origin Hc.
Qed.

Lemma convert_category_types_origin (df df' : frame) (c : label) :
  convert_category_types L df = Ok df' -> has_col c df' = true ->
  has_col c df = true \/ In c resolve_categories_writes.
Proof.
  unfold convert_category_types. intros H Hc. open_stage; origin Hc.
Qed.

Lemma derive_flags_origin (df df' : frame) (c : label) :
  derive_flags L df = Ok df' -> has_col c df' = true ->
  has_col c df = true \/ In c derive_flags_writes.
Proof.
  unfold derive_flags. intros H Hc. open_stage; origin Hc.
Qed.

(** What [parse_columns] reads. *)
Lemma parse_columns_reads (df df' : frame) (c : label) :
  parse_columns L df = Ok df' ->
  In c [ "extracted_at"; "product_id"; "seller_id"; "price"; "original_price";
         "discount_rate"; "sales_volume"; "rating_average"; "review_count" ] ->
  has_col c df = true.
Proof.
  unfold parse_columns. intros H Hc. open_stage.
  repeat match goal with
         | G : get_col _ _ _ = Ok _ |- _ =>
             apply get_col_has_col in G; rewrite ?has_col_set_col in G;
             cbn [String.eqb Ascii.eqb Bool.eqb] in G; rewrite ?orb_false_r in G
         end.
  cbn [In] in Hc.
  repeat (destruct Hc as [<- | Hc]; [ assumption | ]). contradiction Hc.
Qed.

Lemma derive_flags_reads (df df' : frame) :
  derive_flags L df = Ok df' -> has_col "badges" df = true.
Proof.
  unfold derive_flags. intros H. open_stage.
  match goal with
  | G : get_col _ "badges" _ = Ok _ |- _ =>
      apply get_col_has_col in G; rewrite has_col_set_col in G;
      rewrite orb_false_r in G; exact G
  end.
Qed.

Lemma build_dim_reads (df dim_df : frame) (c : label) :
  build_dim df = Ok dim_df ->
  In c [ "sku"; "name"; "brand_name"; "image_url"; "product_url";
         "seller_name"; "seller_logo"; "category_name" ] ->
  has_col c df = true.
Proof.
  unfold build_dim. intros H Hc.
  apply bind_Ok in H. destruct H as (d0 & S & _).
  apply (select_has_col _ df d0 c S). apply in_or_app. left.
  cbn [In] in *. tauto.
Qed.

Lemma build_categories_reads (df cat_df : frame) :
  build_categories df = Ok cat_df -> has_col "_category_url" df = true.
Proof.
  unfold build_categories. intros H.
  apply bind_Ok in H. destruct H as (d0 & S & _).
  apply (select_has_col _ df d0 "_category_url" S). cbn. tauto.
Qed.

End Origins.

(** X22. [transform_data] returns only on an input that has, after the
    renaming, every column it reads without asking: among them
    [category_name], which the product table selects although the
    category table treats it as optional, and [badges]. *)
Theorem transform_data_required_columns (L : library) (df : frame)
    (out : frame * frame * frame) (c : label) :
  transform_data L df = Ok out -> In c required_columns ->
  In c (map rename_map (columns df)).
Proof.
  intros H Hc. unfold transform_data in H. cbv zeta in H.
  apply bind_Ok in H. destruct H as (d1 & E1 & H).
  apply bind_Ok in H. destruct H as (d2 & E2 & H).
  apply bind_Ok in H. destruct H as (d3 & E3 & H).
  apply bind_Ok in H. destruct H as (d4 & E4 & H).
  apply bind_Ok in H. destruct H as (d5 & E5 & H).
  apply bind_Ok in H. destruct H as (d6 & E6 & H).
  apply bind_Ok in H. destruct H as (f0 & _ & H).
  apply bind_Ok in H. destruct H as (m0 & Em & H).
  apply bind_Ok in H. destruct H as (c0 & Ec & _).
  set (d0 := rename rename_map df) in *.
  change (In c (columns d0)). apply has_col_In.
  assert (B : forall c', has_col c' d6 = true ->
                         has_col c' d0 = true
                         \/ In c' (parse_columns_writes ++ resolve_categories_writes
                                   ++ derive_flags_writes)).
  { intros c' H6.
    assert (H4 : has_col c' d4 = true).
    { unfold has_col in *.
      rewrite (validate_nulls_columns _ _ E6), (deduplicate_columns _ _ E5) in H6.
      exact H6. }
    rewrite !in_app_iff.
    destruct (derive_flags_origin L d3 d4 c' E4 H4) as [H3 | W]; [ | tauto ].
    destruct (convert_category_types_origin L d2 d3 c' E3 H3) as [H2 | W]; [ | tauto ].
    destruct (resolve_categories_origin d1 d2 c' E2 H2) as [H1 | W]; [ | tauto ].
    destruct (parse_columns_origin L d0 d1 c' E1 H1) as [H0 | W]; tauto. }
  assert (B4 : forall c', has_col c' d3 = true ->
                          has_col c' d0 = true
                          \/ In c' (parse_columns_writes ++ resolve_categories_writes)).
  { intros c' H3. rewrite !in_app_iff.
    destruct (convert_category_types_origin L d2 d3 c' E3 H3) as [H2 | W]; [ | tauto ].
    destruct (resolve_categories_origin d1 d2 c' E2 H2) as [H1 | W]; [ | tauto ].
    destruct (parse_columns_origin L d0 d1 c' E1 H1) as [H0 | W]; tauto. }
  assert (fresh : forall c' (ws : list label),
             existsb (String.eqb c') ws = false ->
             has_col c' d0 = true \/ In c' ws -> has_col c' d0 = true).
  { intros c' ws F [G | G]; [ exact G | ].
    apply existsb_eqb_In in G. congruence. }
  unfold required_columns in Hc. cbn [In] in Hc.
  repeat (destruct Hc as [<- | Hc];
          [ first
              [ apply (parse_columns_reads L d0 d1 _ E1); cbn; tauto
              | eapply fresh;
                [ | apply B4, (derive_flags_reads L d3 d4 E4) ]; reflexivity
              | eapply fresh;
                [ | apply B, (build_dim_reads d6 m0 _ Em); cbn; tauto ]; reflexivity
              | eapply fresh;
                [ | apply B, (build_categories_reads d6 c0 Ec) ]; reflexivity ]
          | ]).
  contradiction Hc.
Qed.

Lemma transform_data_required_columns_witness :
  In "category_name" (map rename_map (columns (DataFrame [sample_record]))).
Proof.
  assert (E : exists out,
             transform_data blind_library (DataFrame [sample_record]) = Ok out)
    by (eexists; vm_compute; reflexivity).
  destruct E as (out & E).
  apply (transform_data_required_columns blind_library _ out "category_name" E).
  cbn. tauto.
Defined.

(** Without [category_name] the selection of the product columns raises. *)
Example transform_data_without_category_name :
  transform_data blind_library
    (drop_cols ["category_name"] (DataFrame [sample_record]))
  = Raise KeyError.
Proof. vm_compute. reflexivity. Qed.

(** ** The products of the two tables *)

(** The columns added for the schema leave the others as they are. *)
Lemma add_missing_column (schema : list label) (c : label) (j : nat) : forall df,
  well_formed df -> positions c df = [j] ->
  positions c (add_missing schema df) = [j]
  /\ column j (add_missing schema df) = column j df.
Proof.
  induction schema as [|x schema IH]; intros df W P;
    [ split; [ exact P | reflexivity ] | ].
  change (add_missing (x :: schema) df)
    with (add_missing schema
            (if negb (has_col x df) then set_const x (Scalar SNone) df else df)).
  destruct (has_col x df) eqn:Hx; cbn [negb]; [ exact (IH df W P) | ].
  assert (Hcx : c <> x).
  { intros ->. apply has_col_positions in Hx. congruence. }
  unfold set_const.
  destruct (set_col_other c x (map (fun _ => Scalar SNone) (rows df)) df j W
              (length_map _ _) Hcx P) as [P' C'].
  destruct (IH _ (set_col_well_formed x _ df W) P') as [P2 C2].
  split; [ exact P2 | rewrite C2; exact C' ].
Qed.

Lemma enforce_schema_select (schema : list label) (df : frame) :
  enforce_schema schema df = select schema (add_missing schema df).
Proof. reflexivity. Qed.

(** A column of the frame the product table is made from, other than
    the three the table sets, in the product table. *)
Lemma dim_column (df m0 dim_df : frame) (j : nat) :
  NoDup (columns df) -> build_dim df = Ok m0 ->
  enforce_schema DIM_PRODUCTS_SCHEMA m0 = Ok dim_df ->
  positions "product_id" df = [j] ->
  get_col KeyError "product_id" dim_df = Ok (column j df).
Proof.
  intros N Hb He Hj. pose proof (build_dim_NoDup df m0 N Hb) as Nm.
  rewrite enforce_schema_select in He.
  unfold build_dim in Hb.
  apply bind_Ok in Hb. destruct Hb as (d0 & S & Hb). cbv beta zeta in Hb.
  apply bind_Ok in Hb. destruct Hb as (sku & Hs & Hb).
  apply bind_Ok in Hb. destruct Hb as (created & Hx & Hb).
  apply bind_Ok in Hb. destruct Hb as (updated & Hy & Hb).
  injection Hb as <-.
  match type of S with
  | select ?ls _ = _ =>
      assert (Nl : NoDup ls)
        by (apply distinct_NoDup;
            destruct (has_col "root_category_id" df), (has_col "category_depth" df);
            reflexivity);
      assert (Hin : In "product_id" ls) by (cbn; tauto);
      pose proof (select_get_col KeyError ls df d0 "product_id" j N Nl S Hin Hj)
        as G0; clear Nl Hin
  end.
  apply get_col_column in G0. destruct G0 as (j0 & P0 & E0).
  pose proof (select_well_formed _ df d0 S) as W0.
  pose proof (select_rows _ df d0 S) as R0.
  apply get_col_length in Hs, Hx, Hy.
  assert (L1 : List.length (map sku_cell sku) = List.length (rows d0))
    by (rewrite length_map; exact Hs).
  destruct (set_col_other "product_id" "sku" _ d0 j0 W0 L1 ltac:(discriminate) P0)
    as [P1 C1].
  pose proof (set_col_well_formed "sku" (map sku_cell sku) d0 W0) as W1.
  pose proof (set_col_rows "sku" _ d0 L1) as R1.
  set (d1 := set_col "sku" (map sku_cell sku) d0) in *.
  assert (L2 : List.length created = List.length (rows d1)) by congruence.
  destruct (set_col_other "product_id" "created_at" _ d1 j0 W1 L2
              ltac:(discriminate) P1) as [P2 C2].
  pose proof (set_col_well_formed "created_at" created d1 W1) as W2.
  pose proof (set_col_rows "created_at" _ d1 L2) as R2.
  set (d2 := set_col "created_at" created d1) in *.
  assert (L3 : List.length updated = List.length (rows d2)) by congruence.
  destruct (set_col_other "product_id" "updated_at" _ d2 j0 W2 L3
              ltac:(discriminate) P2) as [P3 C3].
  pose proof (set_col_well_formed "updated_at" updated d2 W2) as W3.
  set (d3 := set_col "updated_at" updated d2) in *.
  destruct (add_missing_column DIM_PRODUCTS_SCHEMA "product_id" j0 d3 W3 P3)
    as [P4 C4].
  rewrite E0, <- C1, <- C2, <- C3, <- C4.
  apply (select_get_col KeyError DIM_PRODUCTS_SCHEMA _ dim_df "product_id" j0);
    try assumption.
  - apply add_missing_NoDup. exact Nm.
  - apply distinct_NoDup. reflexivity.
  - cbn. tauto.
Qed.
(** X23. When the renaming brings no two columns under one name and
    the transformation returns, the product table has the rows of the
    fact table: the same [product_id]s in the same order, hence as many
    rows. *)
Theorem tables_same_products (L : library) (df fact_df dim_df cat_df : frame) :
  NoDup (map rename_map (columns df)) ->
  transform_data L df = Ok (fact_df, dim_df, cat_df) ->
  List.length (rows dim_df) = List.length (rows fact_df)
  /\ exists ids,
       get_col KeyError "product_id" fact_df = Ok ids
       /\ get_col KeyError "product_id" dim_df = Ok ids.
Proof.
  intros N H. unfold transform_data in H. cbv zeta in H.
  apply bind_Ok in H. destruct H as (d1 & E1 & H).
  apply (parse_columns_NoDup L _ _ E1) in N. clear E1.
  apply bind_Ok in H. destruct H as (d2 & E2 & H).
  apply (resolve_categories_NoDup _ _ E2) in N. clear E2.
  apply bind_Ok in H. destruct H as (d3 & E3 & H).
  apply (convert_category_types_NoDup L _ _ E3) in N. clear E3.
  apply bind_Ok in H. destruct H as (d4 & E4 & H).
  apply (derive_flags_NoDup L _ _ E4) in N. clear E4.
  apply bind_Ok in H. destruct H as (d5 & E5 & H).
  apply bind_Ok in H. destruct H as (d6 & E6 & H).
  apply bind_Ok in H. destruct H as (f0 & Ef & H).
  apply bind_Ok in H. destruct H as (m0 & Em & H).
  apply bind_Ok in H. destruct H as (c0 & _ & H).
  apply bind_Ok in H. destruct H as (f1 & Ef1 & H).
  apply bind_Ok in H. destruct H as (m1 & Em1 & H).
  injection H as <- <- <-.
  assert (N6 : NoDup (columns d6)).
  { rewrite (validate_nulls_columns _ _ E6), (deduplicate_columns _ _ E5). exact N. }
  assert (P : exists j, positions "product_id" d6 = [j]).
  { apply (positions_once "product_id" d6 N6).
    apply (select_has_col _ d6 f0 "product_id" Ef). cbn. tauto. }
  destruct P as (j & P).
  pose proof (fact_column d6 f0 f1 "product_id" j N6 Ef Ef1
                ltac:(cbn; tauto) P) as Gf.
  pose proof (dim_column d6 m0 m1 j N6 Em Em1 P) as Gd.
  split; [ | exists (column j d6); split; assumption ].
  apply get_col_length in Gf, Gd. congruence.
Qed.

Lemma tables_same_products_witness :
  exists fact_df dim_df cat_df,
    transform_data blind_library (DataFrame [sample_record; sample_record])
    = Ok (fact_df, dim_df, cat_df)
    /\ List.length (rows dim_df) = List.length (rows fact_df).
Proof.
  do 3 eexists.
  match goal with
  | |- ?t = Ok (?f, ?m, ?c) /\ _ =>
      assert (E : t = Ok (f, m, c)) by (vm_compute; reflexivity)
  end.
  assert (N : NoDup (map rename_map
                       (columns (DataFrame [sample_record; sample_record]))))
    by (apply distinct_NoDup; reflexivity).
  split; [ exact E | ].
  exact (proj1 (tables_same_products blind_library _ _ _ _ N E)).
Defined.

End TikiFacts.

(** * Properties of the trends script *)

Module TrendsFacts.

Import Py Trends PyFacts.
Local Open Scope Z_scope.

(** ** The order of the group keys *)

Lemma code_inj a b : code a = code b -> a = b.
Proof.
  unfold code. intros H.
  rewrite <- (ascii_nat_embedding a), <- (ascii_nat_embedding b), H. reflexivity.
Qed.

Lemma text_compare_eq a : forall b, text_compare a b = Eq <-> a = b.
Proof.
  induction a as [|x a IH]; intros [|y b]; cbn; split; try congruence.
  - destruct (Nat.compare (code x) (code y)) eqn:E; try discriminate.
    intros H. apply Nat.compare_eq in E. apply code_inj in E. apply IH in H.
    congruence.
  - intros [= -> ->]. rewrite Nat.compare_refl. apply IH. reflexivity.
Qed.

Lemma text_compare_antisym a : forall b,
  text_compare b a = CompOpp (text_compare a b).
Proof.
  induction a as [|x a IH]; intros [|y b]; cbn; try reflexivity.
  rewrite (Nat.compare_antisym (code x) (code y)).
  destruct (Nat.compare (code x) (code y)); cbn; [ apply IH | reflexivity | reflexivity ].
Qed.

Lemma text_compare_trans a : forall b c,
  text_compare a b = Lt -> text_compare b c = Lt -> text_compare a c = Lt.
Proof.
  induction a as [|x a IH]; intros [|y b] [|z c]; cbn; try congruence.
  destruct (Nat.compare (code x) (code y)) eqn:E1; try discriminate;
    destruct (Nat.compare (code y) (code z)) eqn:E2; try discriminate;
    intros H1 H2.
  - apply Nat.compare_eq in E1, E2. rewrite E1, E2, Nat.compare_refl.
    eapply IH; eauto.
  - apply Nat.compare_eq in E1. rewrite E1, E2. reflexivity.
  - apply Nat.compare_eq in E2. rewrite <- E2, E1. reflexivity.
  - apply Nat.compare_lt_iff in E1, E2.
    assert (E : Nat.compare (code x) (code z) = Lt) by (apply Nat.compare_lt_iff; lia).
    rewrite E. reflexivity.
Qed.

Lemma txt_inj a b : txt a = txt b -> a = b.
Proof.
  unfold txt. intros H.
  rewrite <- (string_of_list_ascii_of_string a),
          <- (string_of_list_ascii_of_string b), H. reflexivity.
Qed.

Lemma key_compare_eq d1 k1 d2 k2 :
  key_compare d1 k1 d2 k2 = Eq <-> d1 = d2 /\ k1 = k2.
Proof.
  unfold key_compare. destruct (Z.compare d1 d2) eqn:E.
  - apply Z.compare_eq in E. rewrite text_compare_eq. split.
    + intros H. apply txt_inj in H. auto.
    + intros [_ ->]. reflexivity.
  - split; [ discriminate | ]. intros [-> _]. rewrite Z.compare_refl in E. discriminate.
  - split; [ discriminate | ]. intros [-> _]. rewrite Z.compare_refl in E. discriminate.
Qed.

Lemma key_compare_antisym d1 k1 d2 k2 :
  key_compare d2 k2 d1 k1 = CompOpp (key_compare d1 k1 d2 k2).
Proof.
  unfold key_compare. rewrite (Z.compare_antisym d1 d2).
  destruct (Z.compare d1 d2); cbn; [ apply text_compare_antisym | reflexivity | reflexivity ].
Qed.

Lemma key_compare_trans d1 k1 d2 k2 d3 k3 :
  key_compare d1 k1 d2 k2 = Lt -> key_compare d2 k2 d3 k3 = Lt ->
  key_compare d1 k1 d3 k3 = Lt.
Proof.
  unfold key_compare.
  destruct (Z.compare d1 d2) eqn:E1; try discriminate;
    destruct (Z.compare d2 d3) eqn:E2; try discriminate; intros H1 H2.
  - apply Z.compare_eq in E1, E2. subst. rewrite Z.compare_refl.
    eapply text_compare_trans; eauto.
  - apply Z.compare_eq in E1. subst. rewrite E2. reflexivity.
  - apply Z.compare_eq in E2. subst. rewrite E1. reflexivity.
  - rewrite Z.compare_lt_iff in E1, E2.
    assert (E : Z.compare d1 d3 = Lt) by (apply Z.compare_lt_iff; lia).
    rewrite E. reflexivity.
Qed.

(** ** Aggregation *)

Section Aggregation.

(** The group of the key [(d, k)]. *)
Variable d : Z.
Variable k : string.



Definition before (a b : trend_row) : Prop :=
  key_compare (out_date a) (out_keyword a) (out_date b) (out_keyword b) = Lt.







(** One row more keeps the groups sorted by key. *)
Lemma upsert_sorted d' r groups :
  StronglySorted before groups ->
  StronglySorted before (upsert d' r groups)
  /\ (forall g, In g (upsert d' r groups) ->
        In g groups \/ (out_date g = d' /\ out_keyword g = keyword r)).
Proof.
  induction 1 as [|x l Hs IH Hx]; cbn [upsert].
  - split; [ repeat constructor | ].
    intros g [<- | []]. right. split; reflexivity.
  - destruct (key_compare d' (keyword r) (out_date x) (out_keyword x)) eqn:E.
    + apply key_compare_eq in E. destruct E as [E1 E2]. split.
      * constructor; [ exact Hs | ]. exact Hx.
      * intros g [<- | Hin]; [ | left; right; exact Hin ].
        right. cbn. split; congruence.
    + split.
      * constructor; [ constructor; assumption | ].
        constructor; [ exact E | ].
        eapply Forall_impl; [ | exact Hx ]. intros y Hy.
        unfold before in *. cbn [out_date out_keyword].
        eapply key_compare_trans; eauto.
      * intros g [<- | Hin]; [ right; split; reflexivity | left; exact Hin ].
    + destruct IH as [IH1 IH2]. split.
      * constructor; [ exact IH1 | ].
        apply Forall_forall. intros g Hg. destruct (IH2 g Hg) as [Hin | [E1 E2]].
        -- rewrite Forall_forall in Hx. apply Hx. exact Hin.
        -- unfold before. rewrite E1, E2.
           rewrite key_compare_antisym, E. reflexivity.
      * intros g [<- | Hin]; [ left; left; reflexivity | ].
        destruct (IH2 g Hin); [ left; right; assumption | right; assumption ].
Qed.






Definition step (groups : list trend_row) (r : long_row) : list trend_row :=
  match date r with
  | Some d' => upsert d' r groups
  | None => groups
  end.





End Aggregation.


(** Scores 5 and 8 of one key give 8, partial when either row is. *)
Example aggregate_5_and_8 :
  aggregate [ LongRow (Some 20471) "iphone" 5 true 1000;
              LongRow (Some 20471) "iphone" 8 false 1000 ]
  = [ TrendRow 20471 "iphone" 8 true 1000 ].
Proof. reflexivity. Qed.

Local Open Scope string_scope.

(** ** Cleaning the scores *)

Section ScoreCleaning.

Variable L : library.


Lemma astype_int64_as_float_zero :
  astype_int64 L (fillna_zero (as_float (SInt 0))) = Ok 0.
Proof. reflexivity. Qed.




End ScoreCleaning.

(** ** The frame saved passes [validate_parquet] *)

Lemma date_cell_not_null days : cell_isna (date_cell days) = false.
Proof.
  unfold date_cell. destruct (civil_of_days days) as [[y m] d]. reflexivity.
Qed.

Lemma validate_parquet_output (out : list trend_row) :
  validate_parquet (frame_of out) = Ok true.
Proof.
  unfold validate_parquet, frame_of.
  change (forallb _ final_columns) with true. cbn [negb].
  unfold get_col, position, positions. cbn [columns rows].
  change (positions_from 0 "score" final_columns) with [2%nat].
  change (positions_from 0 "is_partial" final_columns) with [3%nat].
  change (positions_from 0 "date" final_columns) with [0%nat].
  change (positions_from 0 "keyword" final_columns) with [1%nat].
  cbn [bind]. rewrite !map_map. cbn [cell nth].
  rewrite !forallb_map_all by reflexivity. cbn [negb].
  rewrite !existsb_app, !existsb_map_none;
    [ reflexivity | reflexivity | reflexivity | ].
  intros r. apply date_cell_not_null.
Qed.

(** ** The order and the origin of the groups *)

Import Samples.
Local Open Scope list_scope.

Lemma length_upsert d r groups :
  (List.length (upsert d r groups) <= S (List.length groups))%nat.
Proof.
  induction groups as [|g groups IH]; cbn [upsert]; [ cbn; lia | ].
  destruct (key_compare d (keyword r) (out_date g) (out_keyword g)); cbn in *; lia.
Qed.

(** What the groups built from some rows are: sorted by key, each of the
    key of one of the rows, and no more than the rows. *)
Definition groups_of (rows : list long_row) (groups : list trend_row) : Prop :=
  StronglySorted before groups
  /\ (forall g, In g groups ->
        exists r, In r rows /\ date r = Some (out_date g)
                  /\ keyword r = out_keyword g)
  /\ (List.length groups <= List.length rows)%nat.

Lemma step_groups_of rows groups r :
  groups_of rows groups -> groups_of (rows ++ [r]) (step groups r).
Proof.
  intros (Hs & Hk & Hl). unfold step.
  destruct (date r) as [d|] eqn:Ed.
  - destruct (upsert_sorted d r groups Hs) as [Hs' Hin]. split; [ exact Hs' | split ].
    + intros g Hg. destruct (Hin g Hg) as [Hold | [E1 E2]].
      * destruct (Hk g Hold) as (r0 & H0 & H1 & H2).
        exists r0. split; [ apply in_or_app; left; exact H0 | split; assumption ].
      * exists r. split; [ apply in_or_app; right; left; reflexivity | ].
        split; congruence.
    + pose proof (length_upsert d r groups). rewrite length_app. cbn. lia.
  - split; [ exact Hs | split ].
    + intros g Hg. destruct (Hk g Hg) as (r0 & H0 & H1 & H2).
      exists r0. split; [ apply in_or_app; left; exact H0 | split; assumption ].
    + rewrite length_app. cbn. lia.
Qed.

Lemma fold_groups_of rows : forall seen groups,
  groups_of seen groups -> groups_of (seen ++ rows) (fold_left step rows groups).
Proof.
  induction rows as [|r rows IH]; intros seen groups H; cbn [fold_left].
  - rewrite app_nil_r. exact H.
  - apply (step_groups_of seen groups r) in H. apply IH in H.
    rewrite <- app_assoc in H. exact H.
Qed.

Lemma aggregate_groups_of (long : list long_row) : groups_of long (aggregate long).
Proof.
  apply (fold_groups_of long [] []). unfold groups_of.
  split; [ constructor | ]. split; [ | cbn; lia ].
  intros g Hg. destruct Hg.
Qed.

(** X14. The rows of the aggregation are in the strict order of their
    keys, date first and keyword second, so that no key comes twice;
    each has the date and the keyword of a row of the input; and they
    are no more than the rows of the input. *)
Theorem aggregate_sorted_from_input (long : list long_row) :
  StronglySorted before (aggregate long)
  /\ (forall g, In g (aggregate long) ->
        exists r, In r long /\ date r = Some (out_date g)
                  /\ keyword r = out_keyword g)
  /\ (List.length (aggregate long) <= List.length long)%nat.
Proof.
  exact (aggregate_groups_of long).
Qed.

(** A property of every row carries over to the groups when the first
    row of a group has it and merging keeps it. *)
Lemma aggregate_invariant (P : long_row -> Prop) (Q : trend_row -> Prop) :
  (forall d r, P r -> Q (TrendRow d (keyword r) (score r) (is_partial r)
                           (inserted_at r))) ->
  (forall g r, Q g -> P r -> Q (merge g r)) ->
  forall long, Forall P long -> Forall Q (aggregate long).
Proof.
  intros Hfirst Hmerge long Hall. unfold aggregate.
  assert (G : forall ls groups, Forall P ls -> Forall Q groups ->
                Forall Q (fold_left (fun groups r =>
                                       match date r with
                                       | Some d => upsert d r groups
                                       | None => groups
                                       end) ls groups)).
  { induction ls as [|r ls IH]; intros groups Hr Hg; cbn [fold_left];
      [ exact Hg | ].
    inversion Hr as [|? ? Hp Hrest]; subst. apply IH; [ exact Hrest | ].
    destruct (date r) as [d|]; [ | exact Hg ].
    clear IH Hr Hrest. induction Hg as [|g groups Hq Hg IHg]; cbn [upsert].
    - constructor; [ apply Hfirst; exact Hp | constructor ].
    - destruct (key_compare d (keyword r) (out_date g) (out_keyword g)).
      + constructor; [ apply Hmerge; assumption | exact Hg ].
      + constructor; [ apply Hfirst; exact Hp | constructor; assumption ].
      + constructor; assumption. }
  apply G; [ exact Hall | constructor ].
Qed.

(** ** From the frame read to the rows saved *)

Lemma zip_rows_In (now : Z) (r : long_row) : forall dates kws scores partials,
  In r (zip_rows dates kws scores partials now) ->
  In (keyword r) kws /\ In (is_partial r) partials /\ inserted_at r = now.
Proof.
  induction dates as [|d dates IH]; intros [|k kws] [|s scores] [|p partials];
    cbn; try (intros F; contradiction F).
  intros [<- | H]; cbn.
  - auto.
  - destruct (IH _ _ _ H) as (H1 & H2 & H3). auto.
Qed.

Lemma melted_In (df : frame) (dates partials : list value) (cols : list label) :
  forall melted,
  mapM (fun kw => scores <- get_col ValueError kw df ;;
                  Ok (melt_column dates partials kw scores)) cols = Ok melted ->
  forall x, In x (List.concat melted) ->
    In (snd (fst x)) cols /\ In (snd (fst (fst x))) partials.
Proof.
  induction cols as [|kw cols IH]; intros melted H x Hx; cbn [mapM] in H.
  - injection H as <-. destruct Hx.
  - apply bind_Ok in H. destruct H as (m & Hm & H).
    apply bind_Ok in H. destruct H as (ms & Hms & H). injection H as <-.
    apply bind_Ok in Hm. destruct Hm as (scores & _ & Hm). injection Hm as <-.
    cbn [List.concat] in Hx. apply in_app_or in Hx. destruct Hx as [Hx | Hx].
    + unfold melt_column in Hx. apply in_map_iff in Hx.
      destruct Hx as ([[dt p] s] & <- & Hin). cbn [fst snd].
      split; [ left; reflexivity | ].
      apply in_combine_l in Hin. apply in_combine_r in Hin. exact Hin.
    + destruct (IH ms Hms x Hx) as [H1 H2]. split; [ right; exact H1 | exact H2 ].
Qed.

(** The frame the melt reads, and the label of its isPartial column. *)
Definition with_is_partial (df : frame) : frame * label :=
  match find_is_partial (columns df) with
  | Some col => (df, col)
  | None => (set_const "isPartial" (Scalar (SBool false)) df, "isPartial")
  end.

(** The rows of the long format, before the aggregation. *)
Lemma transform_trends_data_long (L : library)
    (to_date : value -> result (option Z)) (now : Z) (df : frame)
    (out : list trend_row) :
  transform_trends_data L to_date now df = Ok out ->
  exists (long : list long_row) (partials : list value),
    out = aggregate long
    /\ get_col ValueError (snd (with_is_partial df)) (fst (with_is_partial df))
       = Ok partials
    /\ forall r, In r long ->
         inserted_at r = now
         /\ In (keyword r) (columns (fst (with_is_partial df)))
         /\ keyword r <> "date"
         /\ keyword r <> snd (with_is_partial df)
         /\ exists p, In p partials /\ is_partial r = truthy p.
Proof.
  unfold transform_trends_data. fold (with_is_partial df).
  destruct (with_is_partial df) as [df1 col]. cbn [fst snd].
  intros H.
  apply bind_Ok in H. destruct H as (dates & _ & H).
  apply bind_Ok in H. destruct H as (partials & Hp & H).
  apply bind_Ok in H. destruct H as (melted & Hm & H). cbv zeta in H.
  apply bind_Ok in H. destruct H as (scores & _ & H).
  apply bind_Ok in H. destruct H as (ds & _ & H).
  match type of H with
  | match ?l with _ => _ end = _ => destruct l as [|r0 long0] eqn:El
  end; [ discriminate | ].
  injection H as <-. rewrite <- El.
  eexists. exists partials. split; [ reflexivity | split; [ exact Hp | ] ].
  intros r Hr. apply zip_rows_In in Hr. destruct Hr as (Hk & Hpart & Hnow).
  apply in_map_iff in Hk. destruct Hk as (x & Hx & Hin).
  destruct (melted_In df1 dates partials _ melted Hm x Hin) as [Hc _].
  rewrite Hx in Hc. apply filter_In in Hc. destruct Hc as [Hc Hf].
  apply negb_true_iff in Hf. apply orb_false_iff in Hf. destruct Hf as [F1 F2].
  split; [ exact Hnow | split; [ exact Hc | ] ].
  split; [ intros E; rewrite E in F1; discriminate | ].
  split; [ intros E; rewrite E, String.eqb_refl in F2; discriminate | ].
  apply in_map_iff in Hpart. destruct Hpart as (y & Hy & Hyin).
  destruct (melted_In df1 dates partials _ melted Hm y Hyin) as [_ Hp2].
  exists (snd (fst (fst y))). split; [ exact Hp2 | symmetry; exact Hy ].
Qed.

Lemma with_is_partial_columns (df : frame) (kw : label) :
  In kw (columns (fst (with_is_partial df))) -> kw <> snd (with_is_partial df) ->
  In kw (columns df) /\ find_is_partial (columns df) <> Some kw.
Proof.
  unfold with_is_partial.
  destruct (find_is_partial (columns df)) as [col|] eqn:E; cbn [fst snd].
  - intros H N. split; [ exact H | congruence ].
  - intros H N. split; [ | discriminate ].
    unfold set_const in H. rewrite columns_set_col in H.
    destruct (has_col "isPartial" df); [ exact H | ].
    apply in_app_or in H. destruct H as [H | [H | []]]; [ exact H | congruence ].
Qed.

(** X15. The rows saved are in the order of their keys; the keyword of
    each is the label of a column of the input that is neither [date]
    nor the column found for isPartial; and each bears the time of the
    run. *)
Theorem transform_trends_data_rows (L : library)
    (to_date : value -> result (option Z)) (now : Z) (df : frame)
    (out : list trend_row) :
  transform_trends_data L to_date now df = Ok out ->
  StronglySorted before out
  /\ forall g, In g out ->
       In (out_keyword g) (columns df)
       /\ out_keyword g <> "date"
       /\ find_is_partial (columns df) <> Some (out_keyword g)
       /\ out_inserted_at g = now.
Proof.
  intros H. apply transform_trends_data_long in H.
  destruct H as (long & partials & -> & _ & Hl).
  split; [ apply aggregate_groups_of | ].
  assert (A : Forall (fun g => In (out_keyword g) (columns (fst (with_is_partial df)))
                               /\ out_keyword g <> "date"
                               /\ out_keyword g <> snd (with_is_partial df)
                               /\ out_inserted_at g = now)
                (aggregate long)).
  { apply (aggregate_invariant
             (fun r => In (keyword r) (columns (fst (with_is_partial df)))
                       /\ keyword r <> "date"
                       /\ keyword r <> snd (with_is_partial df)
                       /\ inserted_at r = now)).
    - intros d r Hr. exact Hr.
    - intros g r (G1 & G2 & G3 & G4) (R1 & R2 & R3 & R4). cbn.
      repeat split; try assumption. rewrite G4, R4. apply Z.max_id.
    - apply Forall_forall. intros r Hr.
      destruct (Hl r Hr) as (H1 & H2 & H3 & H4 & _). auto. }
  rewrite Forall_forall in A. intros g Hg.
  destruct (A g Hg) as (A1 & A2 & A3 & A4).
  destruct (with_is_partial_columns df _ A1 A3) as [B1 B2]. auto.
Qed.

(** X16. When the input has no isPartial column, in any case of
    letters, no row saved is partial. *)
Theorem transform_trends_data_not_partial (L : library)
    (to_date : value -> result (option Z)) (now : Z) (df : frame)
    (out : list trend_row) :
  well_formed df ->
  find_is_partial (columns df) = None ->
  transform_trends_data L to_date now df = Ok out ->
  forall g, In g out -> out_is_partial g = false.
Proof.
  intros W F H. apply transform_trends_data_long in H.
  destruct H as (long & partials & -> & Hp & Hl).
  unfold with_is_partial in Hp, Hl. rewrite F in Hp, Hl. cbn [fst snd] in Hp, Hl.
  assert (Hc : has_col "isPartial" df = false).
  { apply has_col_not_In. intros Hin. unfold find_is_partial in F.
    apply (find_none _ _ F) in Hin. discriminate Hin. }
  unfold set_const in Hp.
  rewrite (set_col_new ValueError "isPartial" _ df W Hc) in Hp
    by apply length_map.
  injection Hp as <-.
  apply Forall_forall.
  apply (aggregate_invariant (fun r => is_partial r = false)).
  - intros d r Hr. exact Hr.
  - intros g r Hg Hr. cbn. rewrite Hg, Hr. reflexivity.
  - apply Forall_forall. intros r Hr.
    destruct (Hl r Hr) as (_ & _ & _ & _ & p & Hin & ->).
    apply in_map_iff in Hin. destruct Hin as (x & <- & _). reflexivity.
Qed.

Lemma transform_trends_data_rows_witness :
  exists out,
    transform_trends_data blind_library sample_day 0 trends_wide = Ok out
    /\ StronglySorted before out
    /\ List.length out = 4%nat.
Proof.
  eexists. split; [ vm_compute; reflexivity | ]. split; [ | reflexivity ].
  refine (proj1 (transform_trends_data_rows blind_library sample_day 0
                   trends_wide _ _)).
  vm_compute. reflexivity.
Defined.

Lemma transform_trends_data_not_partial_witness :
  exists out,
    transform_trends_data blind_library sample_day 0 trends_wide = Ok out
    /\ forall g, In g out -> out_is_partial g = false.
Proof.
  eexists. split; [ vm_compute; reflexivity | ].
  apply (transform_trends_data_not_partial blind_library sample_day 0 trends_wide).
  - repeat constructor.
  - reflexivity.
  - vm_compute. reflexivity.
Defined.

(** The two windows of the sample: the first day of [iphone] takes the
    greater of its two scores, and ["<1"] and the missing score of
    [samsung] both count as 0. *)
Example transform_trends_data_sample :
  transform_trends_data blind_library sample_day 0 trends_wide
  = Ok [ TrendRow 20470 "iphone" 7 false 0; TrendRow 20470 "samsung" 0 false 0;
         TrendRow 20471 "iphone" 8 false 0; TrendRow 20471 "samsung" 3 false 0 ].
Proof. vm_compute. reflexivity. Qed.

(** ** An input without rows *)

Lemma get_col_no_rows (e : exn) (c : label) (df : frame) :
  NoDup (columns df) -> In c (columns df) -> rows df = [] ->
  get_col e c df = Ok [].
Proof.
  intros N Hc Hr. apply get_col_column.
  destruct (positions_once c df N) as (j & Hj); [ apply has_col_In; exact Hc | ].
  exists j. split; [ exact Hj | ]. unfold column. rewrite Hr. reflexivity.
Qed.

Lemma melt_no_rows (df : frame) (dates partials : list value) (cols : list label) :
  NoDup (columns df) -> rows df = [] ->
  (forall c, In c cols -> In c (columns df)) ->
  exists melted,
    mapM (fun kw => scores <- get_col ValueError kw df ;;
                    Ok (melt_column dates partials kw scores)) cols = Ok melted
    /\ List.concat melted = [].
Proof.
  intros N Hr. induction cols as [|kw cols IH]; intros Hc; cbn [mapM].
  - exists []. split; reflexivity.
  - destruct IH as (melted & -> & Hm); [ intros c H; apply Hc; right; exact H | ].
    rewrite (get_col_no_rows ValueError kw df N (Hc kw (or_introl eq_refl)) Hr).
    cbn [bind]. eexists. split; [ reflexivity | ].
    cbn [List.concat]. rewrite Hm. unfold melt_column.
    rewrite combine_nil. reflexivity.
Qed.

(** X17. A frame read with its header and no row: the transformation
    raises [IndexError], at the line that logs the first [inserted_at],
    and saves nothing. *)
Theorem transform_trends_data_no_rows (L : library)
    (to_date : value -> result (option Z)) (now : Z) (df : frame) :
  NoDup (columns df) -> In "date" (columns df) -> rows df = [] ->
  transform_trends_data L to_date now df = Raise IndexError.
Proof.
  intros N Hd Hr. unfold transform_trends_data. fold (with_is_partial df).
  assert (W : exists df1 col,
            with_is_partial df = (df1, col) /\ NoDup (columns df1)
            /\ rows df1 = [] /\ In "date" (columns df1) /\ In col (columns df1)).
  { unfold with_is_partial. destruct (find_is_partial (columns df)) as [col|] eqn:E.
    - exists df, col. repeat split; try assumption.
      unfold find_is_partial in E. apply find_some in E. apply E.
    - eexists _, _. split; [ reflexivity | ]. unfold set_const.
      split; [ apply NoDup_set_col; exact N | ].
      split; [ unfold set_col; rewrite Hr; destruct (has_col _ df); reflexivity | ].
      rewrite columns_set_col. destruct (has_col "isPartial" df) eqn:Hc.
      + split; [ exact Hd | apply has_col_In; exact Hc ].
      + split; apply in_or_app; [ left; exact Hd | right; left; reflexivity ]. }
  destruct W as (df1 & col & -> & N1 & R1 & D1 & C1).
  rewrite (get_col_no_rows ValueError "date" df1 N1 D1 R1).
  rewrite (get_col_no_rows ValueError col df1 N1 C1 R1). cbn [bind].
  destruct (melt_no_rows df1 [] []
              (filter (fun c => negb (String.eqb c "date" || String.eqb c col))
                      (columns df1)) N1 R1) as (melted & -> & Hm).
  { intros c Hc. apply filter_In in Hc. apply Hc. }
  cbn [bind]. rewrite Hm. reflexivity.
Qed.

Lemma transform_trends_data_no_rows_witness :
  transform_trends_data blind_library sample_day 0
    (Frame [ "date"; "iphone"; "isPartial" ] [])
  = Raise IndexError.
Proof.
  apply (transform_trends_data_no_rows blind_library sample_day 0
           (Frame [ "date"; "iphone"; "isPartial" ] [])).
  - apply distinct_NoDup. reflexivity.
  - left. reflexivity.
  - reflexivity.
Defined.

(** ** The transformation, step by step *)


Section Steps.

Variable L : library.
Variable to_date : value -> result (option Z).
Variable now : Z.


(** What the cleaning makes of a row of the long frame, the score
    apart: the day of its date, its keyword, the truth value of its
    isPartial cell as [astype(bool)] takes it, and the time of the run. *)
Definition cleaned (x : value * value * label * value) (r : long_row) : Prop :=
  clean_date to_date (fst (fst (fst x))) = Ok (date r)
  /\ keyword r = snd (fst x)
  /\ is_partial r = truthy (snd (fst (fst x)))
  /\ inserted_at r = now.





End Steps.




End TrendsFacts.
